(** * RetroFarm wallets: RPC failover manager and batched balance aggregator

    A shallow embedding of the balance-checking core of the repository:

    - [rpc-manager.ts]         the network registry and [RPCManager]
    - [token-list-manager.ts]  [TokenListManager]
    - [multicall3-service.ts]  [Multicall3Service]
    - [balance-checker.ts]     [BalanceChecker]

    Pure helpers are Rocq functions.  Methods that touch the caches, the
    clock or the network are computations in a state-and-exception monad over
    a [World]; the answers of the remote services come from an [Env] oracle
    indexed by the number of external calls made so far.  JavaScript
    [bigint] is [Z], array indices and lengths are [nat], [Date.now()] is a
    [Z] number of milliseconds, and a [number] holding a USD amount is an
    element of an abstract [Float64] interface. *)

From Stdlib Require Import ZArith String Ascii List Decimal DecimalString DecimalPos
  DecimalZ Lia Sorted.
From stdpp Require Import gmap strings list.

(** ** JavaScript primitives used by the code *)

(** [Array.prototype.slice(s, e)] for non-negative indices. *)
Definition slice {A : Type} (l : list A) (s e : nat) : list A :=
  take (e - s) (drop s l).

(** [bigint.toString()] and [String(n)] for an integral number. *)
Definition BigInt_toString (z : Z) : string :=
  NilZero.string_of_int (Z.to_int z).

Fixpoint repeatChar (n : nat) (c : ascii) : string :=
  match n with
  | O => EmptyString
  | S k => String c (repeatChar k c)
  end.

(** [s.padStart(targetLength, c)]. *)
Definition padStart (s : string) (targetLength : Z) (c : ascii) : string :=
  repeatChar (Z.to_nat targetLength - String.length s) c +:+ s.

(** [s.replace(/0+$/, '')]. *)
Fixpoint stripTrailingZeros (s : string) : string :=
  match s with
  | EmptyString => EmptyString
  | String c rest =>
      let rest' := stripTrailingZeros rest in
      if Ascii.eqb c "0" && String.eqb rest' "" then EmptyString
      else String c rest'
  end.

(** [xs[i]] with [i = a % n]: [a % 0] is [NaN] and [xs[NaN]] is
    [undefined]. *)
Definition indexMod {A : Type} (xs : list A) (a : nat) : option A :=
  match length xs with
  | O => None
  | S _ => xs !! (a mod length xs)
  end.

(** ** Data model *)

(** The arithmetic on [number] that the code performs on USD amounts and
    prices, and the one place where a double feeds a [bigint]. *)
Class Float64 := {
  F64 : Type;
  f64_zero : F64;
  f64_add : F64 -> F64 -> F64;
  f64_mul : F64 -> F64 -> F64;
  f64_isNaN : F64 -> bool;
  (** [x <= 0] *)
  f64_le_zero : F64 -> bool;
  parseFloat : string -> F64;
  (** [BigInt(10 ** d)] for [23 <= d <= 308], where the double [10 ** d]
      is not the exact power of ten. *)
  f64_pow10_BigInt : Z -> Z
}.

Record NativeCurrency := {
  cur_name : string;
  cur_symbol : string;
  cur_decimals : Z
}.

(** [NetworkConfig] of rpc-manager.ts.  The viem [chain] descriptor is only
    handed on to [createPublicClient] and is left out. *)
Record NetworkConfig := {
  cfg_chainId : Z;
  cfg_name : string;
  cfg_rpcUrls : list string;
  cfg_multicallAddress : string;
  cfg_nativeCurrency : NativeCurrency
}.

Record HealthCheckResult := {
  isHealthy : bool;
  lastCheck : Z
}.

(** [TokenInfo] of token-list-manager.ts. *)
Record TokenInfo := {
  tok_chainId : Z;
  tok_address : string;
  tok_symbol : string;
  tok_name : string;
  tok_decimals : Z;
  tok_priceUSD : string;
  tok_coinKey : string;
  tok_logoURI : option string
}.

Record CachedData := {
  cached_data : list TokenInfo;
  cached_timestamp : Z;
  cached_ttl : Z
}.

Record Call3 := {
  call_target : string;
  call_allowFailure : bool;
  call_callData : string
}.

Record MulticallResult := {
  res_success : bool;
  res_returnData : string
}.

(** ** The network registry (rpc-manager.ts, [networkConfigs]) *)

Definition networkConfigs : list NetworkConfig :=
[
  {| cfg_chainId := 1; cfg_name := "Ethereum";
     cfg_rpcUrls :=
       [ "https://ethereum-rpc.publicnode.com";
         "https://eth.drpc.org";
         "https://rpc.ankr.com/eth";
         "https://eth.llamarpc.com";
         "https://rpc.flashbots.net";
         "https://eth.blockscout.com";
         "https://ethereum.publicnode.com";
         "https://eth-mainnet.g.alchemy.com/v2/demo" ];
     cfg_multicallAddress := "0xcA11bde05977b3631167028862bE2a173976CA11";
     cfg_nativeCurrency := {| cur_name := "ETH"; cur_symbol := "ETH"; cur_decimals := 18 |} |};
  {| cfg_chainId := 10; cfg_name := "Optimism";
     cfg_rpcUrls :=
       [ "https://optimism-rpc.publicnode.com";
         "https://optimism.drpc.org" ];
     cfg_multicallAddress := "0xcA11bde05977b3631167028862bE2a173976CA11";
     cfg_nativeCurrency := {| cur_name := "ETH"; cur_symbol := "ETH"; cur_decimals := 18 |} |};
  {| cfg_chainId := 14; cfg_name := "Flare";
     cfg_rpcUrls :=
       [ "https://flare-api.flare.network/ext/C/rpc";
         "https://rpc.ankr.com/flare";
         "https://flare.rpc.thirdweb.com" ];
     cfg_multicallAddress := "0xcA11bde05977b3631167028862bE2a173976CA11";
     cfg_nativeCurrency := {| cur_name := "Flare"; cur_symbol := "FLR"; cur_decimals := 18 |} |};
  {| cfg_chainId := 25; cfg_name := "Cronos";
     cfg_rpcUrls :=
       [ "https://evm.cronos.org";
         "https://cronos.drpc.org";
         "https://endpoints.omniatech.io/v1/cronos/mainnet/public" ];
     cfg_multicallAddress := "0xcA11bde05977b3631167028862bE2a173976CA11";
     cfg_nativeCurrency := {| cur_name := "CRO"; cur_symbol := "CRO"; cur_decimals := 18 |} |};
  {| cfg_chainId := 30; cfg_name := "Rootstock";
     cfg_rpcUrls :=
       [ "https://public-node.rsk.co";
         "https://mycrypto.rsk.co";
         "https://rootstock.drpc.org" ];
     cfg_multicallAddress := "0xcA11bde05977b3631167028862bE2a173976CA11";
     cfg_nativeCurrency := {| cur_name := "Rootstock Smart Bitcoin"; cur_symbol := "RBTC"; cur_decimals := 18 |} |};
  {| cfg_chainId := 50; cfg_name := "XDC";
     cfg_rpcUrls :=
       [ "https://rpc.xdcrpc.com";
         "https://erpc.xdcrpc.com";
         "https://rpc1.xinfin.network" ];
     cfg_multicallAddress := "0x0b1795cca8e4ec4df02346a082df54d437f8d9af";
     cfg_nativeCurrency := {| cur_name := "XDC"; cur_symbol := "XDC"; cur_decimals := 18 |} |};
  {| cfg_chainId := 56; cfg_name := "BSC";
     cfg_rpcUrls :=
       [ "https://bsc-dataseed.binance.org";
         "https://bsc-dataseed.bnbchain.org";
         "https://bsc-rpc.publicnode.com";
         "https://bsc-dataseed1.defibit.io";
         "https://bsc-dataseed1.ninicoin.io";
         "https://bsc.drpc.org";
         "https://rpc.ankr.com/bsc";
         "https://bsc.llamarpc.com" ];
     cfg_multicallAddress := "0xcA11bde05977b3631167028862bE2a173976CA11";
     cfg_nativeCurrency := {| cur_name := "BNB"; cur_symbol := "BNB"; cur_decimals := 18 |} |};
  {| cfg_chainId := 100; cfg_name := "Gnosis";
     cfg_rpcUrls :=
       [ "https://rpc.gnosischain.com";
         "https://gnosis-rpc.publicnode.com";
         "https://gnosis.drpc.org" ];
     cfg_multicallAddress := "0xcA11bde05977b3631167028862bE2a173976CA11";
     cfg_nativeCurrency := {| cur_name := "xDAI Native Token"; cur_symbol := "xDAI"; cur_decimals := 18 |} |};
  {| cfg_chainId := 122; cfg_name := "FUSE";
     cfg_rpcUrls :=
       [ "https://rpc.fuse.io";
         "https://fuse.drpc.org";
         "https://fuse-public.nodies.app" ];
     cfg_multicallAddress := "0xcA11bde05977b3631167028862bE2a173976CA11";
     cfg_nativeCurrency := {| cur_name := "FUSE"; cur_symbol := "FUSE"; cur_decimals := 18 |} |};
  {| cfg_chainId := 130; cfg_name := "Unichain";
     cfg_rpcUrls :=
       [ "https://mainnet.unichain.org";
         "https://unichain.drpc.org";
         "https://unichain-rpc.publicnode.com" ];
     cfg_multicallAddress := "0xcA11bde05977b3631167028862bE2a173976CA11";
     cfg_nativeCurrency := {| cur_name := "ETH"; cur_symbol := "ETH"; cur_decimals := 18 |} |};
  {| cfg_chainId := 137; cfg_name := "Polygon";
     cfg_rpcUrls :=
       [ "https://polygon-bor-rpc.publicnode.com";
         "https://polygon.drpc.org";
         "https://polygon-rpc.com";
         "https://rpc-mainnet.maticvigil.com";
         "https://rpc.ankr.com/polygon";
         "https://polygon.llamarpc.com";
         "https://polygon-rpc.com";
         "https://matic-mainnet.chainstacklabs.com" ];
     cfg_multicallAddress := "0xcA11bde05977b3631167028862bE2a173976CA11";
     cfg_nativeCurrency := {| cur_name := "Polygon Ecosystem Token"; cur_symbol := "POL"; cur_decimals := 18 |} |};
  {| cfg_chainId := 146; cfg_name := "Sonic";
     cfg_rpcUrls :=
       [ "https://rpc.soniclabs.com";
         "https://sonic.drpc.org" ];
     cfg_multicallAddress := "0xcA11bde05977b3631167028862bE2a173976CA11";
     cfg_nativeCurrency := {| cur_name := "S"; cur_symbol := "S"; cur_decimals := 18 |} |};
  {| cfg_chainId := 204; cfg_name := "opBNB";
     cfg_rpcUrls :=
       [ "https://opbnb-mainnet-rpc.bnbchain.org";
         "https://1rpc.io/opbnb" ];
     cfg_multicallAddress := "0xcA11bde05977b3631167028862bE2a173976CA11";
     cfg_nativeCurrency := {| cur_name := "BNB"; cur_symbol := "BNB"; cur_decimals := 18 |} |};
  {| cfg_chainId := 232; cfg_name := "Lens";
     cfg_rpcUrls :=
       [ "https://api.lens.matterhosted.dev" ];
     cfg_multicallAddress := "0xeee5a340Cdc9c179Db25dea45AcfD5FE8d4d3eB8";
     cfg_nativeCurrency := {| cur_name := "GHO"; cur_symbol := "GHO"; cur_decimals := 18 |} |};
  {| cfg_chainId := 250; cfg_name := "Fantom";
     cfg_rpcUrls :=
       [ "https://rpcapi.fantom.network";
         "https://rpc.fantom.network";
         "https://fantom-rpc.publicnode.com";
         "https://fantom.drpc.org" ];
     cfg_multicallAddress := "0xcA11bde05977b3631167028862bE2a173976CA11";
     cfg_nativeCurrency := {| cur_name := "FTM"; cur_symbol := "FTM"; cur_decimals := 18 |} |};
  {| cfg_chainId := 252; cfg_name := "Fraxtal";
     cfg_rpcUrls :=
       [ "https://rpc.frax.com" ];
     cfg_multicallAddress := "0xcA11bde05977b3631167028862bE2a173976CA11";
     cfg_nativeCurrency := {| cur_name := "FRAX"; cur_symbol := "FRAX"; cur_decimals := 18 |} |};
  {| cfg_chainId := 288; cfg_name := "Boba";
     cfg_rpcUrls :=
       [ "https://mainnet.boba.network";
         "https://replica.boba.network" ];
     cfg_multicallAddress := "0xcA11bde05977b3631167028862bE2a173976CA11";
     cfg_nativeCurrency := {| cur_name := "ETH"; cur_symbol := "ETH"; cur_decimals := 18 |} |};
  {| cfg_chainId := 324; cfg_name := "zkSync";
     cfg_rpcUrls :=
       [ "https://mainnet.era.zksync.io" ];
     cfg_multicallAddress := "0xF9cda624FBC7e059355ce98a31693d299FACd963";
     cfg_nativeCurrency := {| cur_name := "ETH"; cur_symbol := "ETH"; cur_decimals := 18 |} |};
  {| cfg_chainId := 480; cfg_name := "World Chain";
     cfg_rpcUrls :=
       [ "https://worldchain-mainnet.g.alchemy.com/public";
         "https://worldchain-mainnet.gateway.tenderly.co" ];
     cfg_multicallAddress := "0xcA11bde05977b3631167028862bE2a173976CA11";
     cfg_nativeCurrency := {| cur_name := "ETH"; cur_symbol := "ETH"; cur_decimals := 18 |} |};
  {| cfg_chainId := 999; cfg_name := "HyperEVM";
     cfg_rpcUrls :=
       [ "https://rpc.hyperliquid.xyz/evm";
         "https://rpc.hyperlend.finance";
         "https://hyperliquid-json-rpc.stakely.io";
         "https://hyperliquid.drpc.org" ];
     cfg_multicallAddress := "0xcA11bde05977b3631167028862bE2a173976CA11";
     cfg_nativeCurrency := {| cur_name := "HYPE"; cur_symbol := "HYPE"; cur_decimals := 18 |} |};
  {| cfg_chainId := 1088; cfg_name := "Metis";
     cfg_rpcUrls :=
       [ "https://andromeda.metis.io";
         "https://metis.drpc.org" ];
     cfg_multicallAddress := "0xcA11bde05977b3631167028862bE2a173976CA11";
     cfg_nativeCurrency := {| cur_name := "METIS"; cur_symbol := "METIS"; cur_decimals := 18 |} |};
  {| cfg_chainId := 1101; cfg_name := "Polygon zkEVM";
     cfg_rpcUrls :=
       [ "https://zkevm-rpc.com";
         "https://polygon-zkevm.drpc.org" ];
     cfg_multicallAddress := "0xcA11bde05977b3631167028862bE2a173976CA11";
     cfg_nativeCurrency := {| cur_name := "ETH"; cur_symbol := "ETH"; cur_decimals := 18 |} |};
  {| cfg_chainId := 1135; cfg_name := "Lisk";
     cfg_rpcUrls :=
       [ "https://rpc.api.lisk.com";
         "https://lisk.drpc.org" ];
     cfg_multicallAddress := "0xcA11bde05977b3631167028862bE2a173976CA11";
     cfg_nativeCurrency := {| cur_name := "ETH"; cur_symbol := "ETH"; cur_decimals := 18 |} |};
  {| cfg_chainId := 1284; cfg_name := "Moonbeam";
     cfg_rpcUrls :=
       [ "https://rpc.api.moonbeam.network";
         "https://moonbeam-rpc.publicnode.com";
         "https://moonbeam.drpc.org" ];
     cfg_multicallAddress := "0xcA11bde05977b3631167028862bE2a173976CA11";
     cfg_nativeCurrency := {| cur_name := "GLMR"; cur_symbol := "GLMR"; cur_decimals := 18 |} |};
  {| cfg_chainId := 1285; cfg_name := "Moonriver";
     cfg_rpcUrls :=
       [ "https://rpc.api.moonriver.moonbeam.network";
         "https://moonriver-rpc.publicnode.com";
         "https://moonriver.drpc.org" ];
     cfg_multicallAddress := "0xcA11bde05977b3631167028862bE2a173976CA11";
     cfg_nativeCurrency := {| cur_name := "MOVR"; cur_symbol := "MOVR"; cur_decimals := 18 |} |};
  {| cfg_chainId := 1329; cfg_name := "Sei";
     cfg_rpcUrls :=
       [ "https://evm-rpc.sei-apis.com" ];
     cfg_multicallAddress := "0xcA11bde05977b3631167028862bE2a173976CA11";
     cfg_nativeCurrency := {| cur_name := "SEI"; cur_symbol := "SEI"; cur_decimals := 18 |} |};
  {| cfg_chainId := 999; cfg_name := "Hyperliquid";
     cfg_rpcUrls :=
       [ "https://hyperliquid.drpc.org";
         "https://rpc.hyperliquid.xyz/evm";
         "https://hyperliquid-json-rpc.stakely.io" ];
     cfg_multicallAddress := "";
     cfg_nativeCurrency := {| cur_name := "USD Coin (Perps)"; cur_symbol := "USDC"; cur_decimals := 6 |} |};
  {| cfg_chainId := 1480; cfg_name := "Vana";
     cfg_rpcUrls :=
       [ "https://rpc.vana.org" ];
     cfg_multicallAddress := "0xD8d2dFca27E8797fd779F8547166A2d3B29d360E";
     cfg_nativeCurrency := {| cur_name := "Vana"; cur_symbol := "VAN"; cur_decimals := 18 |} |};
  {| cfg_chainId := 1625; cfg_name := "Gravity";
     cfg_rpcUrls :=
       [ "https://rpc.ankr.com/gravity" ];
     cfg_multicallAddress := "0xcA11bde05977b3631167028862bE2a173976CA11";
     cfg_nativeCurrency := {| cur_name := "G"; cur_symbol := "G"; cur_decimals := 18 |} |};
  {| cfg_chainId := 1868; cfg_name := "Soneium";
     cfg_rpcUrls :=
       [ "https://soneium-mainnet.blastapi.io/0e189c72-1523-48e1-8727-7dd520f19c1f" ];
     cfg_multicallAddress := "0xcA11bde05977b3631167028862bE2a173976CA11";
     cfg_nativeCurrency := {| cur_name := "ETH"; cur_symbol := "ETH"; cur_decimals := 18 |} |};
  {| cfg_chainId := 1923; cfg_name := "Swellchain";
     cfg_rpcUrls :=
       [ "https://swell-mainnet.alt.technology" ];
     cfg_multicallAddress := "0xcA11bde05977b3631167028862bE2a173976CA11";
     cfg_nativeCurrency := {| cur_name := "ETH"; cur_symbol := "ETH"; cur_decimals := 18 |} |};
  {| cfg_chainId := 2741; cfg_name := "Abstract";
     cfg_rpcUrls :=
       [ "https://api.mainnet.abs.xyz" ];
     cfg_multicallAddress := "0xAa4De41dba0Ca5dCBb288b7cC6b708F3aaC759E7";
     cfg_nativeCurrency := {| cur_name := "ETH"; cur_symbol := "ETH"; cur_decimals := 18 |} |};
  {| cfg_chainId := 5000; cfg_name := "Mantle";
     cfg_rpcUrls :=
       [ "https://rpc.mantle.xyz";
         "https://mantle-rpc.publicnode.com";
         "https://mantle.drpc.org";
         "https://mantle.public-rpc.com" ];
     cfg_multicallAddress := "0xcA11bde05977b3631167028862bE2a173976CA11";
     cfg_nativeCurrency := {| cur_name := "MNT"; cur_symbol := "MNT"; cur_decimals := 18 |} |};
  {| cfg_chainId := 8217; cfg_name := "Kaia";
     cfg_rpcUrls :=
       [ "https://public-en.node.kaia.io";
         "https://klaytn.drpc.org" ];
     cfg_multicallAddress := "0xcA11bde05977b3631167028862bE2a173976CA11";
     cfg_nativeCurrency := {| cur_name := "KAIA"; cur_symbol := "KAIA"; cur_decimals := 18 |} |};
  {| cfg_chainId := 8453; cfg_name := "Base";
     cfg_rpcUrls :=
       [ "https://mainnet.base.org";
         "https://base-rpc.publicnode.com";
         "https://base.drpc.org" ];
     cfg_multicallAddress := "0xcA11bde05977b3631167028862bE2a173976CA11";
     cfg_nativeCurrency := {| cur_name := "ETH"; cur_symbol := "ETH"; cur_decimals := 18 |} |};
  {| cfg_chainId := 13371; cfg_name := "Immutable zkEVM";
     cfg_rpcUrls :=
       [ "https://rpc.immutable.com/";
         "https://immutable-zkevm.drpc.org" ];
     cfg_multicallAddress := "0xcA11bde05977b3631167028862bE2a173976CA11";
     cfg_nativeCurrency := {| cur_name := "IMX"; cur_symbol := "IMX"; cur_decimals := 18 |} |};
  {| cfg_chainId := 33139; cfg_name := "Apechain";
     cfg_rpcUrls :=
       [ "https://rpc.apechain.com" ];
     cfg_multicallAddress := "0xcA11bde05977b3631167028862bE2a173976CA11";
     cfg_nativeCurrency := {| cur_name := "APE"; cur_symbol := "APE"; cur_decimals := 18 |} |};
  {| cfg_chainId := 34443; cfg_name := "Mode";
     cfg_rpcUrls :=
       [ "https://mode.drpc.org" ];
     cfg_multicallAddress := "0xcA11bde05977b3631167028862bE2a173976CA11";
     cfg_nativeCurrency := {| cur_name := "ETH"; cur_symbol := "ETH"; cur_decimals := 18 |} |};
  {| cfg_chainId := 42161; cfg_name := "Arbitrum";
     cfg_rpcUrls :=
       [ "https://arb1.arbitrum.io/rpc";
         "https://arbitrum-one-rpc.publicnode.com";
         "https://arbitrum.drpc.org";
         "https://rpc.ankr.com/arbitrum";
         "https://arbitrum.llamarpc.com";
         "https://arbitrum-one.publicnode.com";
         "https://arbitrum-mainnet.infura.io/v3/9aa3d95b3bc440fa88ea12eaa4456161" ];
     cfg_multicallAddress := "0xcA11bde05977b3631167028862bE2a173976CA11";
     cfg_nativeCurrency := {| cur_name := "ETH"; cur_symbol := "ETH"; cur_decimals := 18 |} |};
  {| cfg_chainId := 42220; cfg_name := "Celo";
     cfg_rpcUrls :=
       [ "https://celo.drpc.org" ];
     cfg_multicallAddress := "0xcA11bde05977b3631167028862bE2a173976CA11";
     cfg_nativeCurrency := {| cur_name := "Celo native asset"; cur_symbol := "CELO"; cur_decimals := 18 |} |};
  {| cfg_chainId := 42793; cfg_name := "Etherlink";
     cfg_rpcUrls :=
       [ "https://node.mainnet.etherlink.com" ];
     cfg_multicallAddress := "0xcA11bde05977b3631167028862bE2a173976CA11";
     cfg_nativeCurrency := {| cur_name := "Tezos"; cur_symbol := "XTZ"; cur_decimals := 18 |} |};
  {| cfg_chainId := 43114; cfg_name := "Avalanche";
     cfg_rpcUrls :=
       [ "https://api.avax.network/ext/bc/C/rpc";
         "https://avalanche-c-chain-rpc.publicnode.com";
         "https://avalanche.drpc.org" ];
     cfg_multicallAddress := "0xcA11bde05977b3631167028862bE2a173976CA11";
     cfg_nativeCurrency := {| cur_name := "AVAX"; cur_symbol := "AVAX"; cur_decimals := 18 |} |};
  {| cfg_chainId := 57073; cfg_name := "Ink";
     cfg_rpcUrls :=
       [ "https://rpc-gel.inkonchain.com" ];
     cfg_multicallAddress := "0xcA11bde05977b3631167028862bE2a173976CA11";
     cfg_nativeCurrency := {| cur_name := "ETH"; cur_symbol := "ETH"; cur_decimals := 18 |} |};
  {| cfg_chainId := 59144; cfg_name := "Linea";
     cfg_rpcUrls :=
       [ "https://rpc.linea.build" ];
     cfg_multicallAddress := "0xcA11bde05977b3631167028862bE2a173976CA11";
     cfg_nativeCurrency := {| cur_name := "ETH"; cur_symbol := "ETH"; cur_decimals := 18 |} |};
  {| cfg_chainId := 80094; cfg_name := "Berachain";
     cfg_rpcUrls :=
       [ "https://rpc.berachain.com" ];
     cfg_multicallAddress := "0xcA11bde05977b3631167028862bE2a173976CA11";
     cfg_nativeCurrency := {| cur_name := "BERA"; cur_symbol := "BERA"; cur_decimals := 18 |} |};
  {| cfg_chainId := 81457; cfg_name := "Blast";
     cfg_rpcUrls :=
       [ "https://rpc.blast.io";
         "https://blast-rpc.publicnode.com";
         "https://blast.drpc.org" ];
     cfg_multicallAddress := "0xcA11bde05977b3631167028862bE2a173976CA11";
     cfg_nativeCurrency := {| cur_name := "ETH"; cur_symbol := "ETH"; cur_decimals := 18 |} |};
  {| cfg_chainId := 167000; cfg_name := "Taiko";
     cfg_rpcUrls :=
       [ "https://rpc.mainnet.taiko.xyz";
         "https://rpc.taiko.xyz" ];
     cfg_multicallAddress := "0xcA11bde05977b3631167028862bE2a173976CA11";
     cfg_nativeCurrency := {| cur_name := "ETH"; cur_symbol := "ETH"; cur_decimals := 18 |} |};
  {| cfg_chainId := 534352; cfg_name := "Scroll";
     cfg_rpcUrls :=
       [ "https://rpc.scroll.io";
         "https://scroll.drpc.org";
         "https://scroll-mainnet.public.blastapi.io";
         "https://1rpc.io/scroll" ];
     cfg_multicallAddress := "0xcA11bde05977b3631167028862bE2a173976CA11";
     cfg_nativeCurrency := {| cur_name := "ETH"; cur_symbol := "ETH"; cur_decimals := 18 |} |};
  {| cfg_chainId := 747474; cfg_name := "Katana";
     cfg_rpcUrls :=
       [ "https://rpc.katana.network" ];
     cfg_multicallAddress := "0xcA11bde05977b3631167028862bE2a173976CA11";
     cfg_nativeCurrency := {| cur_name := "ETH"; cur_symbol := "ETH"; cur_decimals := 18 |} |};
  {| cfg_chainId := 21000000; cfg_name := "Corn";
     cfg_rpcUrls :=
       [ "https://mainnet.corn-rpc.com" ];
     cfg_multicallAddress := "0xcA11bde05977b3631167028862bE2a173976CA11";
     cfg_nativeCurrency := {| cur_name := "Bitcorn"; cur_symbol := "BTCN"; cur_decimals := 18 |} |};
  {| cfg_chainId := 1313161554; cfg_name := "Aurora";
     cfg_rpcUrls :=
       [ "https://mainnet.aurora.dev" ];
     cfg_multicallAddress := "0xcA11bde05977b3631167028862bE2a173976CA11";
     cfg_nativeCurrency := {| cur_name := "AETH"; cur_symbol := "AETH"; cur_decimals := 18 |} |}
].

(** [getNetworkConfig]: [networkConfigs.find(c => c.chainId === chainId) || null]. *)
Definition getNetworkConfig (chainId : Z) : option NetworkConfig :=
  find (fun config => Z.eqb (cfg_chainId config) chainId) networkConfigs.

(** [getSupportedChainIds]. *)
Definition getSupportedChainIds : list Z :=
  map cfg_chainId networkConfigs.

(** [supportsMulticall3]: [config ? !!config.multicallAddress : false]. *)
Definition supportsMulticall3 (chainId : Z) : bool :=
  match getNetworkConfig chainId with
  | Some config => negb (String.eqb (cfg_multicallAddress config) EmptyString)
  | None => false
  end.

(** ** Batching (multicall3-service.ts) *)

(** The batch size chosen at the head of [checkTokenBalancesBatched]. *)
Definition chooseBatchSize (tokensLength : nat) : nat :=
  if 1000 <? tokensLength then 200
  else if tokensLength <? 300 then 100
  else 150.

(** The loop of [createBatches]:
    [for (let i = 0; i < tokens.length; i += batchSize)
       batches.push(tokens.slice(i, i + batchSize))].
    One unit of fuel is spent per iteration; [None] means the fuel ran out
    with the loop still running (with [batchSize = 0] the source never
    leaves the loop). *)
Fixpoint createBatches_loop {A : Type} (fuel : nat) (tokens : list A)
    (batchSize i : nat) (batches : list (list A)) : option (list (list A)) :=
  if i <? length tokens then
    match fuel with
    | O => None
    | S fuel' =>
        createBatches_loop fuel' tokens batchSize (i + batchSize)
          (batches ++ [slice tokens i (i + batchSize)])
    end
  else Some batches.

Definition createBatches {A : Type} (tokens : list A) (batchSize : nat)
    : option (list (list A)) :=
  createBatches_loop (length tokens) tokens batchSize 0 [].

(** Number of simultaneously running batches in [checkTokenBalancesBatched]. *)
Definition MAX_CONCURRENT_BATCHES : nat := 6.

(** [HEALTH_CHECK_TTL = 5 * 60 * 1000]. *)
Definition HEALTH_CHECK_TTL : Z := (5 * 60 * 1000)%Z.

(** [CACHE_DURATION = 30 * 60 * 1000] of the token list manager. *)
Definition CACHE_DURATION : Z := (30 * 60 * 1000)%Z.

(** ** Balance records and formatting (multicall3-service.ts) *)

Section Balances.
Context `{FL : Float64}.

Record BalanceResult := {
  bal_address : string;
  bal_symbol : string;
  bal_name : string;
  bal_balance : Z;
  bal_balanceFormatted : string;
  bal_decimals : Z;
  bal_usdValue : F64;
  bal_priceUSD : string
}.

Record NativeBalanceResult := {
  nat_balance : Z;
  nat_balanceFormatted : string;
  nat_symbol : string;
  nat_usdValue : F64
}.

(** balance-checker.ts *)
Record NetworkBalanceResult := {
  net_chainId : Z;
  net_networkName : string;
  net_walletAddress : string;
  net_nativeBalance : NativeBalanceResult;
  net_tokenBalances : list BalanceResult;
  net_totalUsdValue : F64;
  net_timestamp : Z
}.

Record AllNetworksBalanceResult := {
  all_walletAddress : string;
  all_networks : list NetworkBalanceResult;
  all_totalUsdValue : F64;
  all_timestamp : Z
}.

Record BalanceCheckConfig := {
  config_chainIds : option (list Z);
  config_batchSize : option Z
}.

(** [BigInt(10 ** decimals)].  The double [10 ** d] is the exact power of
    ten for [0 <= d <= 22].  A negative [d] gives a fraction (or zero, on
    which the division that follows throws) and [d > 308] gives
    [Infinity]: [None] stands for the [RangeError]. *)
Definition BigInt_pow10 (decimals : Z) : option Z :=
  if (decimals <? 0)%Z then None
  else if (decimals <=? 22)%Z then Some (10 ^ decimals)%Z
  else if (decimals <=? 308)%Z then Some (f64_pow10_BigInt decimals)
  else None.

(** [formatTokenBalance]; [/] and [%] on [bigint] truncate towards zero,
    and dividing by [0n] throws. *)
Definition formatTokenBalance (balance : Z) (decimals : Z) : option string :=
  divisor ← BigInt_pow10 decimals;
  if (divisor =? 0)%Z then None
  else
    let wholePart := Z.quot balance divisor in
    let fractionalPart := Z.rem balance divisor in
    if (fractionalPart =? 0)%Z then Some (BigInt_toString wholePart)
    else
      let fractionalStr := padStart (BigInt_toString fractionalPart) decimals "0" in
      let trimmedFractional := stripTrailingZeros fractionalStr in
      if String.eqb trimmedFractional "" then Some (BigInt_toString wholePart)
      else Some (BigInt_toString wholePart +:+ "." +:+ trimmedFractional).

Definition formatNativeBalance (balance : Z) (decimals : Z) : option string :=
  formatTokenBalance balance decimals.

(** [calculateUSDValue]. *)
Definition calculateUSDValue (balance : Z) (decimals : Z) (priceUSD : string)
    : option F64 :=
  let price := parseFloat priceUSD in
  if f64_isNaN price || f64_le_zero price then Some f64_zero
  else
    balanceFormatted ← formatTokenBalance balance decimals;
    Some (f64_mul (parseFloat balanceFormatted) price).

(** The body of the [for] loop of [executeMulticallWithRPC] at index [i]:
    the records pushed onto [balanceResults] (none or one).  [decode] is
    viem's [decodeFunctionResult] for [balanceOf]; whatever throws inside
    the [try] is swallowed by the [catch]. *)
Definition balanceResultAt (decode : string -> option Z)
    (tokens : list TokenInfo) (results : list MulticallResult) (i : nat)
    : list BalanceResult :=
  match tokens !! i, results !! i with
  | Some token, Some result =>
      if res_success result then
        match
          balance ← decode (res_returnData result);
          balanceFormatted ← formatTokenBalance balance (tok_decimals token);
          usdValue ← calculateUSDValue balance (tok_decimals token) (tok_priceUSD token);
          Some {| bal_address := tok_address token;
                  bal_symbol := tok_symbol token;
                  bal_name := tok_name token;
                  bal_balance := balance;
                  bal_balanceFormatted := balanceFormatted;
                  bal_decimals := tok_decimals token;
                  bal_usdValue := usdValue;
                  bal_priceUSD := tok_priceUSD token |}
        with
        | Some record => [record]
        | None => []
        end
      else []
  | _, _ => []
  end.

(** What [executeMulticallWithRPC] returns for the decoded aggregate
    response [results]: the loop over [0 <= i < tokens.length], then
    [balanceResults.filter(result => result.balance > 0n)]. *)
Definition collectBalanceResults (decode : string -> option Z)
    (tokens : list TokenInfo) (results : list MulticallResult)
    : list BalanceResult :=
  filter (fun result => (0 < bal_balance result)%Z)
    (flat_map (balanceResultAt decode tokens results) (seq 0 (length tokens))).

End Balances.

(** ** The outside world *)

(** What the remote services and the viem codec answer.  The first argument
    of a remote call is the number of external calls made before it, so an
    endpoint may answer differently each time it is asked. *)
Class Env := {
  (** [encodeFunctionData] for [balanceOf(owner)]; [None] when it throws. *)
  encodeBalanceOf : string -> option string;
  (** [decodeFunctionResult] for [balanceOf]; [None] when it throws. *)
  decodeBalanceOf : string -> option Z;
  (** Does [client.getBlockNumber()] through this endpoint succeed? *)
  rpc_getBlockNumber : nat -> string -> bool;
  (** [client.getBalance({ address })] through this endpoint. *)
  rpc_getBalance : nat -> string -> string -> option Z;
  (** The [eth_call] of [aggregate3] to the batching contract through this
      endpoint, raced against the timeout and decoded; [None] when any of
      this throws. *)
  rpc_aggregate3 :
    nat -> string -> string -> list Call3 -> option (list MulticallResult);
  (** The [tokens] table of [fetch('https://li.quest/v1/tokens')], keyed by
      [chainId.toString()]; [None] when the fetch throws, answers with an
      error status or carries no table. *)
  api_fetchTokens : nat -> option (gmap string (list TokenInfo));
  (** Milliseconds that pass during an external call. *)
  elapsed : nat -> Z
}.

(** Options of viem's [http] transport, when the code gives them. *)
Record TransportOptions := {
  opt_timeout : Z;
  opt_retryCount : nat;
  opt_retryDelay : Z
}.

(** A viem [PublicClient]: the chain it was made for and its transport. *)
Record PublicClient := {
  client_chainId : Z;
  client_rpcUrl : string;
  client_options : option TransportOptions
}.

(** Observable actions.  [EvAttempt] is a ghost mark set by the rotation
    loop when it hands a batch to an endpoint. *)
Inductive Event :=
| EvGetBlockNumber (rpcUrl : string)
| EvGetBalance (rpcUrl : string) (address : string)
| EvAggregate3 (rpcUrl : string) (calls : list Call3)
| EvFetchTokens
| EvDelay (ms : Z)
| EvAttempt (attempt : nat) (rpcUrl : string).

(** The mutable state of one [BalanceChecker]: the two caches of its
    [RPCManager], the memory cache of its [TokenListManager] and the files
    under [cache/], with the clock and the history of external actions. *)
Record World := {
  clientCache : gmap Z PublicClient;
  healthCache : gmap string HealthCheckResult;
  memoryCache : gmap string CachedData;
  files : gmap string CachedData;
  now : Z;
  externalCalls : nat;
  trace : list Event
}.

Definition initialWorld (startTime : Z) : World :=
  {| clientCache := ∅; healthCache := ∅; memoryCache := ∅; files := ∅;
     now := startTime; externalCalls := 0; trace := [] |}.

(** The [Error]s thrown, named after their role; the message of each is
    given with the [throw] that raises it. *)
Inductive Error :=
| UnsupportedNetwork (chainId : Z)
| NoHealthyEndpoint (networkName : string)
| ClientCreationFailed (networkName : string)
| MulticallFailed (chainId : Z)
| NativeBalanceFailed
| CatalogUnavailable
| BatchExhausted (maxAttempts : nat)
| TransportError
| EncodeError
| RangeError.

(** ** The monad of asynchronous methods *)

Inductive Outcome (A : Type) :=
| Ok (a : A)
| Throw (e : Error)
| Diverge.
Arguments Ok {A} a.
Arguments Throw {A} e.
Arguments Diverge {A}.

Definition M (A : Type) : Type := World -> Outcome A * World.

Definition ret {A : Type} (a : A) : M A := fun w => (Ok a, w).

Definition bind {A B : Type} (m : M A) (f : A -> M B) : M B :=
  fun w =>
    match m w with
    | (Ok a, w') => f a w'
    | (Throw e, w') => (Throw e, w')
    | (Diverge, w') => (Diverge, w')
    end.

Definition throw {A : Type} (e : Error) : M A := fun w => (Throw e, w).

(** [try { m } catch (e) { handler(e) }]. *)
Definition try_catch {A : Type} (m : M A) (handler : Error -> M A) : M A :=
  fun w =>
    match m w with
    | (Throw e, w') => handler e w'
    | r => r
    end.

(** The result of a loop run on fuel. *)
Definition loopResult {A : Type} (r : option A) : M A :=
  fun w => match r with Some a => (Ok a, w) | None => (Diverge, w) end.

Definition fromOption {A : Type} (e : Error) (r : option A) : M A :=
  match r with Some a => ret a | None => throw e end.

Declare Scope M_scope.
Delimit Scope M_scope with M.
Notation "x <- m ;; k" := (bind m (fun x => k))
  (at level 100, m at next level, right associativity) : M_scope.
Notation "m ;;; k" := (bind m (fun _ => k))
  (at level 100, right associativity) : M_scope.
Local Open Scope M_scope.

(** [Promise.all(xs.map(f))], the promises run one after the other. *)
Fixpoint Promise_all {A B : Type} (f : A -> M B) (xs : list A) : M (list B) :=
  match xs with
  | [] => ret []
  | x :: rest =>
      y <- f x ;;
      ys <- Promise_all f rest ;;
      ret (y :: ys)
  end.

Definition gets {A : Type} (f : World -> A) : M A := fun w => (Ok (f w), w).

Definition modify (f : World -> World) : M unit := fun w => (Ok tt, f w).

(** [Date.now()]. *)
Definition Date_now : M Z := gets now.

Definition set_clientCache (f : gmap Z PublicClient -> gmap Z PublicClient)
    (w : World) : World :=
  {| clientCache := f (clientCache w); healthCache := healthCache w;
     memoryCache := memoryCache w; files := files w; now := now w;
     externalCalls := externalCalls w; trace := trace w |}.

Definition set_healthCache
    (f : gmap string HealthCheckResult -> gmap string HealthCheckResult)
    (w : World) : World :=
  {| clientCache := clientCache w; healthCache := f (healthCache w);
     memoryCache := memoryCache w; files := files w; now := now w;
     externalCalls := externalCalls w; trace := trace w |}.

Definition set_memoryCache
    (f : gmap string CachedData -> gmap string CachedData)
    (w : World) : World :=
  {| clientCache := clientCache w; healthCache := healthCache w;
     memoryCache := f (memoryCache w); files := files w; now := now w;
     externalCalls := externalCalls w; trace := trace w |}.

Definition set_files (f : gmap string CachedData -> gmap string CachedData)
    (w : World) : World :=
  {| clientCache := clientCache w; healthCache := healthCache w;
     memoryCache := memoryCache w; files := f (files w); now := now w;
     externalCalls := externalCalls w; trace := trace w |}.

(** Record an action and let [ms] milliseconds pass. *)
Definition act (ev : Event) (ms : Z) (w : World) : World :=
  {| clientCache := clientCache w; healthCache := healthCache w;
     memoryCache := memoryCache w; files := files w; now := (now w + ms)%Z;
     externalCalls := externalCalls w; trace := trace w ++ [ev] |}.

Definition tick (w : World) : World :=
  {| clientCache := clientCache w; healthCache := healthCache w;
     memoryCache := memoryCache w; files := files w; now := now w;
     externalCalls := S (externalCalls w); trace := trace w |}.

(** [delay(ms)]. *)
Definition delay (ms : Z) : M unit := modify (act (EvDelay ms) ms).

(** ** RPCManager (rpc-manager.ts) *)

Section Program.
Context `{FL : Float64} `{EN : Env}.

(** One awaited request to a remote service. *)
Definition extern {A : Type} (ev : Event) (answer : nat -> A) : M A :=
  fun w =>
    (Ok (answer (externalCalls w)),
     tick (act ev (elapsed (externalCalls w)) w)).

(** [cached && Date.now() - cached.lastCheck < HEALTH_CHECK_TTL], and the
    verdict returned when that holds. *)
Definition freshVerdict (cached : option HealthCheckResult) (t : Z)
    : option bool :=
  match cached with
  | Some c =>
      if (t - lastCheck c <? HEALTH_CHECK_TTL)%Z then Some (isHealthy c)
      else None
  | None => None
  end.

Definition healthProbeOptions : TransportOptions :=
  {| opt_timeout := 3000; opt_retryCount := 1; opt_retryDelay := 300 |}.

(** [checkRPCHealth]. *)
Definition checkRPCHealth (rpcUrl : string) : M bool :=
  let cacheKey := "health_" +:+ rpcUrl in
  cached <- gets (fun w => healthCache w !! cacheKey) ;;
  t <- Date_now ;;
  match freshVerdict cached t with
  | Some verdict => ret verdict
  | None =>
      try_catch
        (ok <- extern (EvGetBlockNumber rpcUrl)
                 (fun n => rpc_getBlockNumber n rpcUrl) ;;
         (if ok : bool then ret tt else throw TransportError) ;;;
         t1 <- Date_now ;;
         modify (set_healthCache
                   (insert cacheKey {| isHealthy := true; lastCheck := t1 |})) ;;;
         ret true)
        (fun _ =>
           t2 <- Date_now ;;
           modify (set_healthCache
                     (insert cacheKey {| isHealthy := false; lastCheck := t2 |})) ;;;
           ret false)
  end.

(** The [for (const rpcUrl of config.rpcUrls)] loop of [findWorkingRPC]. *)
Fixpoint firstHealthy (rpcUrls : list string) : M (option string) :=
  match rpcUrls with
  | [] => ret None
  | rpcUrl :: rest =>
      healthy <- checkRPCHealth rpcUrl ;;
      if healthy : bool then ret (Some rpcUrl) else firstHealthy rest
  end.

(** [findWorkingRPC]; throws "Сеть с chainId ... не поддерживается". *)
Definition findWorkingRPC (chainId : Z) : M (option string) :=
  match getNetworkConfig chainId with
  | None => throw (UnsupportedNetwork chainId)
  | Some config => firstHealthy (cfg_rpcUrls config)
  end.

Definition operationalOptions : TransportOptions :=
  {| opt_timeout := 8000; opt_retryCount := 1; opt_retryDelay := 500 |}.

(** [createClient].  The three [throw]s carry the messages
    "Сеть с chainId ... не поддерживается",
    "Все RPC endpoints для сети ... недоступны" and
    "Не удалось создать клиент для сети ...". *)
Definition createClient (chainId : Z) : M PublicClient :=
  cachedClient <- gets (fun w => clientCache w !! chainId) ;;
  match cachedClient with
  | Some client => ret client
  | None =>
      match getNetworkConfig chainId with
      | None => throw (UnsupportedNetwork chainId)
      | Some config =>
          workingRPC <- findWorkingRPC chainId ;;
          match workingRPC with
          | None => throw (NoHealthyEndpoint (cfg_name config))
          | Some url =>
              if String.eqb url "" then throw (NoHealthyEndpoint (cfg_name config))
              else
                try_catch
                  (let client :=
                     {| client_chainId := cfg_chainId config;
                        client_rpcUrl := url;
                        client_options := Some operationalOptions |} in
                   ok <- extern (EvGetBlockNumber url)
                           (fun n => rpc_getBlockNumber n url) ;;
                   (if ok : bool then ret tt else throw TransportError) ;;;
                   modify (set_clientCache (insert chainId client)) ;;;
                   ret client)
                  (fun _ => throw (ClientCreationFailed (cfg_name config)))
          end
      end
  end.

(** [getClient]. *)
Definition getClient (chainId : Z) : M PublicClient :=
  createClient chainId.

(** [clearCache]. *)
Definition clearCache : M unit :=
  modify (set_clientCache (fun _ => ∅)) ;;;
  modify (set_healthCache (fun _ => ∅)).

(** [closeAllConnections]. *)
Definition closeAllConnections : M unit :=
  modify (set_clientCache (fun _ => ∅)) ;;;
  modify (set_healthCache (fun _ => ∅)).

(** [getClientWithRPC]: no health check, no cache. *)
Definition getClientWithRPC (chainId : Z) (rpcUrl : string) : M PublicClient :=
  match getNetworkConfig chainId with
  | None => throw (UnsupportedNetwork chainId)
  | Some networkConfig =>
      ret {| client_chainId := cfg_chainId networkConfig;
             client_rpcUrl := rpcUrl;
             client_options := None |}
  end.

(** ** TokenListManager (token-list-manager.ts) *)

(** [isCacheValid]. *)
Definition isCacheValid (cached : CachedData) : M bool :=
  t <- Date_now ;;
  ret (t - cached_timestamp cached <? cached_ttl cached)%Z.

(** [getCacheFilePath]: [path.join('cache', `tokens_${chainId}.json`)]. *)
Definition getCacheFilePath (chainId : Z) : string :=
  "cache/" +:+ "tokens_" +:+ BigInt_toString chainId +:+ ".json".

(** [loadFromFileCache]; a file holds the [CachedData] written to it. *)
Definition loadFromFileCache (chainId : Z) : M (option (list TokenInfo)) :=
  let cachePath := getCacheFilePath chainId in
  file <- gets (fun w => files w !! cachePath) ;;
  match file with
  | None => ret None
  | Some cached =>
      valid <- isCacheValid cached ;;
      if valid : bool then ret (Some (cached_data cached))
      else
        modify (set_files (delete cachePath)) ;;;
        ret None
  end.

(** [saveToFileCache]. *)
Definition saveToFileCache (chainId : Z) (data : list TokenInfo) : M unit :=
  let cachePath := getCacheFilePath chainId in
  t <- Date_now ;;
  modify (set_files
            (insert cachePath
               {| cached_data := data; cached_timestamp := t;
                  cached_ttl := CACHE_DURATION |})).

(** [fetchFromAPI]; throws "Ошибка при загрузке токенов с Li.quest API: ...". *)
Definition fetchFromAPI : M (gmap string (list TokenInfo)) :=
  answer <- extern EvFetchTokens api_fetchTokens ;;
  fromOption CatalogUnavailable answer.

(** [getTokensForChain]. *)
Definition getTokensForChain (chainId : Z) : M (list TokenInfo) :=
  let cacheKey := "tokens_" +:+ BigInt_toString chainId in
  memoryCached <- gets (fun w => memoryCache w !! cacheKey) ;;
  memoryValid <-
    match memoryCached with
    | Some cached => isCacheValid cached
    | None => ret false
    end ;;
  match memoryCached, memoryValid with
  | Some cached, true => ret (cached_data cached)
  | _, _ =>
      fileCached <- loadFromFileCache chainId ;;
      match fileCached with
      | Some data =>
          t <- Date_now ;;
          modify (set_memoryCache
                    (insert cacheKey
                       {| cached_data := data; cached_timestamp := t;
                          cached_ttl := CACHE_DURATION |})) ;;;
          ret data
      | None =>
          apiData <- fetchFromAPI ;;
          let tokens := default [] (apiData !! BigInt_toString chainId) in
          match tokens with
          | [] => ret []
          | _ :: _ =>
              t <- Date_now ;;
              modify (set_memoryCache
                        (insert cacheKey
                           {| cached_data := tokens; cached_timestamp := t;
                              cached_ttl := CACHE_DURATION |})) ;;;
              saveToFileCache chainId tokens ;;;
              ret tokens
          end
      end
  end.

(** ** Multicall3Service (multicall3-service.ts) *)

(** [createBalanceOfCall]. *)
Definition createBalanceOfCall (tokenAddress walletAddress : string)
    : option Call3 :=
  callData ← encodeBalanceOf walletAddress;
  Some {| call_target := tokenAddress; call_allowFailure := true;
          call_callData := callData |}.

(** [executeMulticall]; a missing or empty [rpcUrl] selects the cached
    client.  The last [throw] carries
    "Ошибка при выполнении Multicall3 для сети ...". *)
Definition executeMulticall (chainId : Z) (calls : list Call3)
    (rpcUrl : option string) : M (list MulticallResult) :=
  client <-
    match rpcUrl with
    | Some url =>
        if String.eqb url "" then getClient chainId
        else getClientWithRPC chainId url
    | None => getClient chainId
    end ;;
  match getNetworkConfig chainId with
  | None => throw (UnsupportedNetwork chainId)
  | Some networkConfig =>
      try_catch
        (answer <- extern (EvAggregate3 (client_rpcUrl client) calls)
                     (fun n => rpc_aggregate3 n (client_rpcUrl client)
                                 (cfg_multicallAddress networkConfig) calls) ;;
         fromOption TransportError answer)
        (fun _ => throw (MulticallFailed chainId))
  end.

(** [executeMulticallWithRPC]. *)
Definition executeMulticallWithRPC (chainId : Z) (walletAddress : string)
    (tokens : list TokenInfo) (rpcUrl : string) : M (list BalanceResult) :=
  calls <- fromOption EncodeError
             (mapM
                (fun token => createBalanceOfCall (tok_address token) walletAddress)
                tokens) ;;
  results <- executeMulticall chainId calls (Some rpcUrl) ;;
  ret (collectBalanceResults decodeBalanceOf tokens results).

(** The [for (let attempt = 1; attempt <= maxAttempts; attempt++)] loop of
    [checkSingleBatchWithRPCRotation], with [remaining] iterations to go.
    The [throw] carries "Батч упал после ... попыток со всеми RPC". *)
Fixpoint rotationLoop (remaining attempt maxAttempts : nat) (chainId : Z)
    (walletAddress : string) (tokens : list TokenInfo) (rpcUrls : list string)
    : M (list BalanceResult) :=
  match remaining with
  | O => throw (BatchExhausted maxAttempts)
  | S remaining' =>
      let next :=
        rotationLoop remaining' (S attempt) maxAttempts chainId walletAddress
          tokens rpcUrls in
      match indexMod rpcUrls (attempt - 1) with
      | None => next
      | Some currentRpc =>
          if String.eqb currentRpc "" then next
          else
            returned <-
              try_catch
                (modify (act (EvAttempt attempt currentRpc) 0) ;;;
                 batchResult <- executeMulticallWithRPC chainId walletAddress
                                  tokens currentRpc ;;
                 ret (Some batchResult))
                (fun _ =>
                   (if attempt <? maxAttempts then delay 500 else ret tt) ;;;
                   ret None) ;;
            match returned with
            | Some batchResult => ret batchResult
            | None => next
            end
      end
  end.

(** [checkSingleBatchWithRPCRotation]. *)
Definition checkSingleBatchWithRPCRotation (chainId : Z)
    (walletAddress : string) (tokens : list TokenInfo) (rpcUrls : list string)
    (maxAttempts : nat) : M (list BalanceResult) :=
  rotationLoop maxAttempts 1 maxAttempts chainId walletAddress tokens rpcUrls.

(** [checkTokenBalancesBatched].  The loop over groups,
    [for (let i = 0; i < batches.length; i += MAX_CONCURRENT_BATCHES)] with
    [batches.slice(i, i + MAX_CONCURRENT_BATCHES)], walks [batches] the way
    [createBatches] walks [tokens]; the batches of a group, started
    together in the source, run here one after the other. *)
Definition checkTokenBalancesBatched (chainId : Z) (walletAddress : string)
    (tokens : list TokenInfo) : M (list BalanceResult) :=
  match tokens with
  | [] => ret []
  | _ :: _ =>
      let batchSize := chooseBatchSize (length tokens) in
      batches <- loopResult (createBatches tokens batchSize) ;;
      let rpcUrls :=
        match getNetworkConfig chainId with
        | Some config => cfg_rpcUrls config
        | None => []
        end in
      batchGroups <- loopResult (createBatches batches MAX_CONCURRENT_BATCHES) ;;
      groupResults <-
        Promise_all (fun batchGroup =>
                Promise_all (fun batch =>
                        try_catch
                          (checkSingleBatchWithRPCRotation chainId walletAddress
                             batch rpcUrls 3)
                          (fun _ => ret []))
                  batchGroup)
          batchGroups ;;
      ret (concat (concat groupResults))
  end.

(** [checkTokenBalances]. *)
Definition checkTokenBalances (chainId : Z) (walletAddress : string)
    (tokens : list TokenInfo) : M (list BalanceResult) :=
  match tokens with
  | [] => ret []
  | _ :: _ => checkTokenBalancesBatched chainId walletAddress tokens
  end.

(** [getNativeTokenPrice]. *)
Definition getNativeTokenPrice (chainId : Z) : M F64 :=
  try_catch
    (tokens <- getTokensForChain chainId ;;
     match tokens with
     | [] => ret f64_zero
     | nativeToken :: _ => ret (parseFloat (tok_priceUSD nativeToken))
     end)
    (fun _ => ret f64_zero).

(** [calculateNativeUSDValue]; [None] inside stands for a throwing
    [formatNativeBalance]. *)
Definition calculateNativeUSDValue (balance : Z) (decimals : Z) (chainId : Z)
    : M F64 :=
  nativePrice <- getNativeTokenPrice chainId ;;
  if f64_le_zero nativePrice then ret f64_zero
  else
    balanceFormatted <- fromOption RangeError (formatNativeBalance balance decimals) ;;
    ret (f64_mul (parseFloat balanceFormatted) nativePrice).

(** [checkNativeBalance]; throws "Сеть с chainId ... не поддерживается"
    and "Ошибка при получении нативного баланса: ...". *)
Definition checkNativeBalance (chainId : Z) (walletAddress : string)
    : M NativeBalanceResult :=
  match getNetworkConfig chainId with
  | None => throw (UnsupportedNetwork chainId)
  | Some networkConfig =>
      client <- getClient chainId ;;
      try_catch
        (answer <- extern (EvGetBalance (client_rpcUrl client) walletAddress)
                     (fun n => rpc_getBalance n (client_rpcUrl client) walletAddress) ;;
         balance <- fromOption TransportError answer ;;
         let decimals := cur_decimals (cfg_nativeCurrency networkConfig) in
         balanceFormatted <- fromOption RangeError
                               (formatNativeBalance balance decimals) ;;
         usdValue <- calculateNativeUSDValue balance decimals chainId ;;
         ret {| nat_balance := balance;
                nat_balanceFormatted := balanceFormatted;
                nat_symbol := cur_symbol (cfg_nativeCurrency networkConfig);
                nat_usdValue := usdValue |})
        (fun _ => throw NativeBalanceFailed)
  end.

(** ** BalanceChecker (balance-checker.ts) *)

(** [xs.reduce((sum, x) => sum + usd(x), 0)]. *)
Definition sumUsd {A : Type} (usd : A -> F64) (xs : list A) : F64 :=
  fold_left (fun sum x => f64_add sum (usd x)) xs f64_zero.

(** [checkSingleNetwork]. *)
Definition checkSingleNetwork (walletAddress : string) (chainId : Z)
    : M NetworkBalanceResult :=
  match getNetworkConfig chainId with
  | None => throw (UnsupportedNetwork chainId)
  | Some networkConfig =>
      tokens <- getTokensForChain chainId ;;
      nativeBalance <- checkNativeBalance chainId walletAddress ;;
      tokenBalances <- checkTokenBalances chainId walletAddress tokens ;;
      let finalTokenBalances :=
        filter (fun token => (0 < bal_balance token)%Z) tokenBalances in
      let tokenUsdValue := sumUsd bal_usdValue finalTokenBalances in
      let totalUsdValue := f64_add (nat_usdValue nativeBalance) tokenUsdValue in
      t <- Date_now ;;
      ret {| net_chainId := chainId;
             net_networkName := cfg_name networkConfig;
             net_walletAddress := walletAddress;
             net_nativeBalance := nativeBalance;
             net_tokenBalances := finalTokenBalances;
             net_totalUsdValue := totalUsdValue;
             net_timestamp := t |}
  end.

(** [a || b] on strings. *)
Definition orElse (a : option string) (b : string) : string :=
  match a with
  | Some s => if String.eqb s "" then b else s
  | None => b
  end.

(** The result built in the [catch] of [checkAllNetworks] for a network
    whose query threw; [`Chain ${chainId}`] prints an integral id in
    decimal. *)
Definition emptyNetworkResult (walletAddress : string) (chainId : Z)
    : M NetworkBalanceResult :=
  let networkConfig := getNetworkConfig chainId in
  t <- Date_now ;;
  ret {| net_chainId := chainId;
         net_networkName :=
           orElse (cfg_name <$> networkConfig)
             ("Chain " +:+ BigInt_toString chainId);
         net_walletAddress := walletAddress;
         net_nativeBalance :=
           {| nat_balance := 0;
              nat_balanceFormatted := "0";
              nat_symbol :=
                orElse ((fun c => cur_symbol (cfg_nativeCurrency c)) <$> networkConfig)
                  "ETH";
              nat_usdValue := f64_zero |};
         net_tokenBalances := [];
         net_totalUsdValue := f64_zero;
         net_timestamp := t |}.

(** The [async (chainId) => { try ... catch ... }] mapped over [chainIds]
    in [checkAllNetworks]. *)
Definition networkPromise (walletAddress : string) (chainId : Z)
    : M NetworkBalanceResult :=
  try_catch (checkSingleNetwork walletAddress chainId)
    (fun _ => emptyNetworkResult walletAddress chainId).

(** [checkAllNetworks]; the networks, queried together in the source, are
    queried here one after the other. *)
Definition checkAllNetworks (walletAddress : string) (config : BalanceCheckConfig)
    : M AllNetworksBalanceResult :=
  let supportedChainIds := getSupportedChainIds in
  let chainIds := default supportedChainIds (config_chainIds config) in
  networkResults <- Promise_all (networkPromise walletAddress) chainIds ;;
  let totalUsdValue := sumUsd net_totalUsdValue networkResults in
  t <- Date_now ;;
  ret {| all_walletAddress := walletAddress;
         all_networks := networkResults;
         all_totalUsdValue := totalUsdValue;
         all_timestamp := t |}.

End Program.

(** ** Concrete worlds to run the program in *)

(** USD amounts kept as the terms that compute them. *)
Inductive UsdTerm :=
| UsdZero
| UsdParsed (s : string)
| UsdAdd (a b : UsdTerm)
| UsdMul (a b : UsdTerm).

Definition usdTerm_le_zero (x : UsdTerm) : bool :=
  match x with
  | UsdZero => true
  | UsdParsed s => String.eqb s "0" || String.prefix "-" s
  | _ => false
  end.

Definition termFloat : Float64 :=
  {| F64 := UsdTerm;
     f64_zero := UsdZero;
     f64_add := UsdAdd;
     f64_mul := UsdMul;
     f64_isNaN := fun x => match x with UsdParsed "" => true | _ => false end;
     f64_le_zero := usdTerm_le_zero;
     parseFloat := UsdParsed;
     f64_pow10_BigInt := fun d => (10 ^ d)%Z |}.

Definition usdc : TokenInfo :=
  {| tok_chainId := 1;
     tok_address := "0xA0b86991c6218b36c1d19D4a2e9Eb0cE3606eB48";
     tok_symbol := "USDC"; tok_name := "USD Coin"; tok_decimals := 6;
     tok_priceUSD := "1.0"; tok_coinKey := "USDC"; tok_logoURI := None |}.

(** Every endpoint answers; the wallet holds 2 ETH and 1.5 of each token. *)
Definition steadyEnv : Env :=
  {| encodeBalanceOf := fun owner => Some ("0x70a08231" +:+ owner);
     decodeBalanceOf :=
       fun data => if String.eqb data "0x" then None else Some 1500000%Z;
     rpc_getBlockNumber := fun _ _ => true;
     rpc_getBalance := fun _ _ _ => Some 2000000000000000000%Z;
     rpc_aggregate3 :=
       fun _ _ _ calls =>
         Some (map (fun _ => {| res_success := true;
                                res_returnData := "0x16e360" |}) calls);
     api_fetchTokens := fun _ => Some {[ "1" := [usdc] ]};
     elapsed := fun _ => 40%Z |}.

(** As [steadyEnv], with the token catalog out of reach. *)
Definition deadCatalogEnv : Env :=
  {| encodeBalanceOf := fun owner => Some ("0x70a08231" +:+ owner);
     decodeBalanceOf :=
       fun data => if String.eqb data "0x" then None else Some 1500000%Z;
     rpc_getBlockNumber := fun _ _ => true;
     rpc_getBalance := fun _ _ _ => Some 2000000000000000000%Z;
     rpc_aggregate3 :=
       fun _ _ _ calls =>
         Some (map (fun _ => {| res_success := true;
                                res_returnData := "0x16e360" |}) calls);
     api_fetchTokens := fun _ => None;
     elapsed := fun _ => 40%Z |}.

(** As [steadyEnv], with every aggregate call failing. *)
Definition deadAggregateEnv : Env :=
  {| encodeBalanceOf := fun owner => Some ("0x70a08231" +:+ owner);
     decodeBalanceOf :=
       fun data => if String.eqb data "0x" then None else Some 1500000%Z;
     rpc_getBlockNumber := fun _ _ => true;
     rpc_getBalance := fun _ _ _ => Some 2000000000000000000%Z;
     rpc_aggregate3 := fun _ _ _ _ => None;
     api_fetchTokens := fun _ => Some {[ "1" := [usdc] ]};
     elapsed := fun _ => 40%Z |}.

(** ** Vocabulary of the statements *)

(** Does [c] occur in [s]? *)
Fixpoint hasChar (c : ascii) (s : string) : bool :=
  match s with
  | EmptyString => false
  | String c' rest => Ascii.eqb c c' || hasChar c rest
  end.

(** Number of per-call results of an aggregate response that report
    success. *)
Definition successCount (results : list MulticallResult) : nat :=
  length (filter (fun r => res_success r = true) results).

(** The [(attempt, endpoint)] pairs of a trace, in order. *)
Fixpoint attemptsOf (evs : list Event) : list (nat * string) :=
  match evs with
  | [] => []
  | EvAttempt k url :: rest => (k, url) :: attemptsOf rest
  | _ :: rest => attemptsOf rest
  end.

(** [delaysSpaced since evs]: between two consecutive attempts of [evs]
    the delays are exactly one delay of 500 ms; [since] holds the delays
    seen after the latest attempt, [None] before the first. *)
Fixpoint delaysSpaced (since : option (list Z)) (evs : list Event) : bool :=
  match evs with
  | [] => true
  | EvAttempt _ _ :: rest =>
      match since with
      | None => true
      | Some ds => bool_decide (ds = [500%Z])
      end && delaysSpaced (Some []) rest
  | EvDelay ms :: rest => delaysSpaced ((fun ds => ds ++ [ms]) <$> since) rest
  | _ :: rest => delaysSpaced since rest
  end.

(** The events one run of the rotation loop of
    [checkSingleBatchWithRPCRotation] can add to the trace, from attempt
    number [attempt] on: an attempt is skipped (no endpoint at its index),
    or it is the last one made, or it fails and is followed by the delay
    and the later attempts.  [inner] is what the attempt itself does. *)
Inductive rotationTrace (rpcUrls : list string) (maxAttempts : nat)
    : nat -> list Event -> Prop :=
| rotation_over (attempt : nat) :
    rotationTrace rpcUrls maxAttempts attempt []
| rotation_skip (attempt : nat) (evs : list Event) :
    rotationTrace rpcUrls maxAttempts (S attempt) evs ->
    rotationTrace rpcUrls maxAttempts attempt evs
| rotation_last (attempt : nat) (url : string) (inner : list Event) :
    attempt <= maxAttempts ->
    indexMod rpcUrls (attempt - 1) = Some url ->
    (inner = [] \/ exists calls, inner = [EvAggregate3 url calls]) ->
    rotationTrace rpcUrls maxAttempts attempt (EvAttempt attempt url :: inner)
| rotation_retry (attempt : nat) (url : string) (inner rest : list Event) :
    attempt < maxAttempts ->
    indexMod rpcUrls (attempt - 1) = Some url ->
    (inner = [] \/ exists calls, inner = [EvAggregate3 url calls]) ->
    rotationTrace rpcUrls maxAttempts (S attempt) rest ->
    rotationTrace rpcUrls maxAttempts attempt
      (EvAttempt attempt url :: inner ++ EvDelay 500 :: rest).

(** [Safe I m]: run in a world that satisfies [I], the method [m] returns
    or throws (it does not run forever) and leaves a world that satisfies
    [I]. *)
Definition Safe (I : World -> Prop) {A : Type} (m : M A) : Prop :=
  forall w, I w -> fst (m w) <> Diverge /\ I (snd (m w)).

(** The cache invariant of [RPCManager]: a client is only ever cached for a
    chain id of the registry. *)
Definition clientCacheSupported (w : World) : Prop :=
  forall chainId client,
    clientCache w !! chainId = Some client -> is_Some (getNetworkConfig chainId).

(** The result that [checkAllNetworks] reports for a failed network. *)
Definition isPlaceholder `{FL : Float64} (chainId : Z)
    (net : NetworkBalanceResult) : Prop :=
  net_chainId net = chainId /\
  nat_balance (net_nativeBalance net) = 0%Z /\
  nat_balanceFormatted (net_nativeBalance net) = "0" /\
  nat_usdValue (net_nativeBalance net) = f64_zero /\
  net_tokenBalances net = [] /\
  net_totalUsdValue net = f64_zero.

(** ** Sessions *)

Section Sessions.
Context `{FL : Float64} `{EN : Env}.

(** What can be asked of a [BalanceChecker] and of the services it owns. *)
Inductive Request :=
| AskGetClient (chainId : Z)
| AskGetClientWithRPC (chainId : Z) (rpcUrl : string)
| AskFindWorkingRPC (chainId : Z)
| AskClearCache
| AskCloseAllConnections
| AskGetTokensForChain (chainId : Z)
| AskCheckNativeBalance (chainId : Z) (walletAddress : string)
| AskCheckTokenBalances (chainId : Z) (walletAddress : string)
    (tokens : list TokenInfo)
| AskCheckSingleNetwork (walletAddress : string) (chainId : Z)
| AskCheckAllNetworks (walletAddress : string) (config : BalanceCheckConfig).

(** The world after a request has been served. *)
Definition serve (r : Request) (w : World) : World :=
  match r with
  | AskGetClient chainId => snd (getClient chainId w)
  | AskGetClientWithRPC chainId rpcUrl => snd (getClientWithRPC chainId rpcUrl w)
  | AskFindWorkingRPC chainId => snd (findWorkingRPC chainId w)
  | AskClearCache => snd (clearCache w)
  | AskCloseAllConnections => snd (closeAllConnections w)
  | AskGetTokensForChain chainId => snd (getTokensForChain chainId w)
  | AskCheckNativeBalance chainId walletAddress =>
      snd (checkNativeBalance chainId walletAddress w)
  | AskCheckTokenBalances chainId walletAddress tokens =>
      snd (checkTokenBalances chainId walletAddress tokens w)
  | AskCheckSingleNetwork walletAddress chainId =>
      snd (checkSingleNetwork walletAddress chainId w)
  | AskCheckAllNetworks walletAddress config =>
      snd (checkAllNetworks walletAddress config w)
  end.

(** The worlds a process can be in: it starts with empty caches, whatever
    files an earlier run left under [cache/], and serves requests. *)
Inductive reachable : World -> Prop :=
| reachable_start (startTime : Z) (onDisk : gmap string CachedData) :
    reachable (set_files (fun _ => onDisk) (initialWorld startTime))
| reachable_serve (r : Request) (w : World) :
    reachable w -> reachable (serve r w).

End Sessions.


(** ** Further methods of the same modules *)

(** JavaScript and viem built-ins taken as given. *)
Class Builtins := {
  (** [s.trim()] *)
  String_trim : string -> string;
  (** [s.toLowerCase()] *)
  String_toLowerCase : string -> string;
  (** viem's [isAddress]; [None] when it throws. *)
  isAddress : string -> option bool
}.

(** [s.split(sep)] for a one-character separator. *)
Fixpoint splitOn (sep : ascii) (s : string) : list string :=
  match s with
  | EmptyString => [EmptyString]
  | String c rest =>
      if Ascii.eqb c sep then EmptyString :: splitOn sep rest
      else
        match splitOn sep rest with
        | [] => [String c EmptyString]
        | piece :: pieces => String c piece :: pieces
        end
  end.

(** The line feed of ['\n']. *)
Definition LF : ascii := ascii_of_nat 10.

(** *** wallet-utils.ts *)

Section WalletUtils.
Context `{BI : Builtins}.

(** [isValidWalletAddress]. *)
Definition isValidWalletAddress (address : string) : bool :=
  match isAddress address with
  | Some valid => valid
  | None => false
  end.

(** [formatAddressForDisplay]: [address.slice(0, 6)], ["..."],
    [address.slice(-4)]. *)
Definition formatAddressForDisplay (address : string) : string :=
  if String.length address <? 10 then address
  else
    substring 0 6 address +:+ "..." +:+
    substring (String.length address - 4) 4 address.

(** The two [Error]s of [getAllWalletAddresses]:
    "Файл wallets.txt не найден" and
    "Не найдено валидных адресов кошельков в файле wallets.txt". *)
Inductive WalletFileError :=
| WalletsFileNotFound
| NoValidWalletAddresses.

(** The body of the [for (const line of lines)] loop of
    [getAllWalletAddresses]: the address pushed for [line], if any (the
    warnings it prints are left out). *)
Definition addressOfLine (line : string) : option string :=
  let trimmedLine := String_trim line in
  if negb (String.eqb trimmedLine "") && negb (String.prefix "#" trimmedLine) then
    if isValidWalletAddress trimmedLine then Some trimmedLine else None
  else None.

(** [getAllWalletAddresses]; [walletsTxt] is the content of [wallets.txt],
    [None] when the file does not exist. *)
Definition getAllWalletAddresses (walletsTxt : option string)
    : WalletFileError + list string :=
  match walletsTxt with
  | None => inl WalletsFileNotFound
  | Some content =>
      let lines := splitOn LF content in
      let addresses := omap addressOfLine lines in
      match addresses with
      | [] => inl NoValidWalletAddresses
      | _ :: _ => inr addresses
      end
  end.


End WalletUtils.

(** *** rpc-manager.ts *)

(** [getMulticall3Address]: [config?.multicallAddress || null]. *)
Definition getMulticall3Address (chainId : Z) : option string :=
  match getNetworkConfig chainId with
  | Some config =>
      if String.eqb (cfg_multicallAddress config) "" then None
      else Some (cfg_multicallAddress config)
  | None => None
  end.

Inductive ProxyProtocol := ProxyHttp | ProxyHttps | ProxySocks5.

Record ProxyConfig := {
  proxy_host : string;
  proxy_port : Z;
  proxy_username : option string;
  proxy_password : option string;
  proxy_protocol : ProxyProtocol
}.

(** The two proxy fields of [RPCManager]; no other method reads them. *)
Record ProxyState := {
  proxies : list ProxyConfig;
  proxyIndex : nat
}.

(** [getNextProxy]. *)
Definition getNextProxy (s : ProxyState) : option ProxyConfig * ProxyState :=
  match proxies s with
  | [] => (None, s)
  | _ :: _ =>
      (proxies s !! (proxyIndex s mod length (proxies s)),
       {| proxies := proxies s; proxyIndex := S (proxyIndex s) |})
  end.

(** The [Error]s of [getClientWithProxy]:
    "Сеть с chainId ... не поддерживается" and
    "Нет доступных RPC для сети ...". *)
Inductive ProxyClientError :=
| ProxyUnsupportedNetwork (chainId : Z)
| NoRpcForNetwork (networkName : string).

(** [getClientWithProxy]; it awaits nothing and touches no cache. *)
Definition getClientWithProxy (chainId : Z) (proxy : option ProxyConfig)
    : ProxyClientError + PublicClient :=
  match getNetworkConfig chainId with
  | None => inl (ProxyUnsupportedNetwork chainId)
  | Some networkConfig =>
      match cfg_rpcUrls networkConfig !! 0 with
      | None => inl (NoRpcForNetwork (cfg_name networkConfig))
      | Some rpcUrl =>
          if String.eqb rpcUrl "" then inl (NoRpcForNetwork (cfg_name networkConfig))
          else
            match proxy with
            | Some _ =>
                inr {| client_chainId := cfg_chainId networkConfig;
                       client_rpcUrl := rpcUrl; client_options := None |}
            | None =>
                inr {| client_chainId := cfg_chainId networkConfig;
                       client_rpcUrl := rpcUrl; client_options := None |}
            end
      end
  end.

(** One row of the answer of [RPCManager.checkAllNetworks]; [workingRPC]
    is present only when it is a non-empty string. *)
Record NetworkAvailability := {
  avail_chainId : Z;
  avail_name : string;
  avail_isAvailable : bool;
  avail_workingRPC : option string
}.

Section ProgramMore.
Context `{FL : Float64} `{EN : Env} `{BI : Builtins}.

Local Open Scope M_scope.

(** The body of the loop of [RPCManager.checkAllNetworks] for one row. *)
Definition availabilityOf (config : NetworkConfig) : M NetworkAvailability :=
  try_catch
    (workingRPC <- findWorkingRPC (cfg_chainId config) ;;
     let truthy :=
       match workingRPC with
       | Some url => negb (String.eqb url "")
       | None => false
       end in
     ret {| avail_chainId := cfg_chainId config;
            avail_name := cfg_name config;
            avail_isAvailable := truthy;
            avail_workingRPC := if truthy then workingRPC else None |})
    (fun _ =>
       ret {| avail_chainId := cfg_chainId config;
              avail_name := cfg_name config;
              avail_isAvailable := false;
              avail_workingRPC := None |}).

(** [RPCManager.checkAllNetworks]: the rows are worked through in table
    order, each awaited before the next. *)
Definition checkNetworkAvailability : M (list NetworkAvailability) :=
  Promise_all availabilityOf networkConfigs.

(** *** token-list-manager.ts *)



(** [findTokenByAddress]. *)
Definition findTokenByAddress (chainId : Z) (address : string)
    : M (option TokenInfo) :=
  tokens <- getTokensForChain chainId ;;
  ret (find (fun token =>
               String.eqb (String_toLowerCase (tok_address token))
                 (String_toLowerCase address))
         tokens).

(** *** multicall3-service.ts *)

(** [checkBatchTokenBalances] (the error it prints is left out). *)
Fixpoint checkBatchTokenBalances_from (chainId : Z) (walletAddress : string)
    (tokenBatches : list (list TokenInfo)) (allResults : list BalanceResult)
    : M (list BalanceResult) :=
  match tokenBatches with
  | [] => ret allResults
  | batch :: rest =>
      pushed <-
        try_catch
          (batchResults <- checkTokenBalances chainId walletAddress batch ;;
           ret (allResults ++ batchResults))
          (fun _ => ret allResults) ;;
      checkBatchTokenBalances_from chainId walletAddress rest pushed
  end.

Definition checkBatchTokenBalances (chainId : Z) (walletAddress : string)
    (tokenBatches : list (list TokenInfo)) : M (list BalanceResult) :=
  checkBatchTokenBalances_from chainId walletAddress tokenBatches [].

(** *** balance-checker.ts *)

Record WalletBalanceResult := {
  wallet_address : string;
  wallet_results : AllNetworksBalanceResult
}.

Record MultiWalletBalanceResult := {
  multi_wallets : list WalletBalanceResult;
  multi_totalUsdValue : F64;
  multi_timestamp : Z
}.

(** The [async (walletAddress) => ...] mapped over a batch of wallets in
    [checkMultipleWallets]; [None] is the [null] returned for an empty
    address. *)
Definition walletPromise (config : BalanceCheckConfig) (walletAddress : string)
    : M (option WalletBalanceResult) :=
  if String.eqb walletAddress "" then ret None
  else
    try_catch
      (results <- checkAllNetworks walletAddress config ;;
       ret (Some {| wallet_address := walletAddress; wallet_results := results |}))
      (fun _ =>
         t <- Date_now ;;
         ret (Some {| wallet_address := walletAddress;
                      wallet_results :=
                        {| all_walletAddress := walletAddress;
                           all_networks := [];
                           all_totalUsdValue := f64_zero;
                           all_timestamp := t |} |})).

(** Wallets handled together by [checkMultipleWallets]. *)
Definition WALLET_BATCH_SIZE : nat := 8.

(** [checkMultipleWallets] (the progress bar is left out).  The loop over
    [walletAddresses.slice(i, i + BATCH_SIZE)] walks the addresses the way
    [createBatches] does; [totalUsdValue += ...] over the kept results, in
    order, is [sumUsd]. *)
Definition checkMultipleWallets (walletAddresses : list string)
    (config : BalanceCheckConfig) : M MultiWalletBalanceResult :=
  batches <- loopResult (createBatches walletAddresses WALLET_BATCH_SIZE) ;;
  batchResults <-
    Promise_all (fun batch => Promise_all (walletPromise config) batch) batches ;;
  let walletResults := omap id (concat batchResults) in
  let totalUsdValue :=
    sumUsd (fun result => all_totalUsdValue (wallet_results result)) walletResults in
  t <- Date_now ;;
  ret {| multi_wallets := walletResults;
         multi_totalUsdValue := totalUsdValue;
         multi_timestamp := t |}.

End ProgramMore.

(** *** More vocabulary *)

(** The verdict on [rpcUrl] held in the health cache, if any. *)
Definition cachedVerdict (w : World) (rpcUrl : string) : option bool :=
  isHealthy <$> healthCache w !! ("health_" +:+ rpcUrl).

(** The verdict on [rpcUrl] is in the cache and still within its time to
    live. *)
Definition verdictFresh (w : World) (rpcUrl : string) : Prop :=
  exists cached,
    healthCache w !! ("health_" +:+ rpcUrl) = Some cached /\
    (now w - lastCheck cached < HEALTH_CHECK_TTL)%Z.

(** The actions of the batch path: attempts, aggregate calls, delays. *)
Definition batchEvent (ev : Event) : Prop :=
  match ev with
  | EvAttempt _ _ | EvAggregate3 _ _ | EvDelay _ => True
  | _ => False
  end.

(** Number of aggregate calls in a trace. *)
Fixpoint aggregateCalls (evs : list Event) : nat :=
  match evs with
  | [] => 0
  | EvAggregate3 _ _ :: rest => S (aggregateCalls rest)
  | _ :: rest => aggregateCalls rest
  end.

(** What a run of the batch path may do to the world: it appends attempts,
    at most [k] aggregate calls and delays to the history, and it leaves
    the four caches as they were. *)
Definition batchEffect (k : nat) (w w' : World) : Prop :=
  clientCache w' = clientCache w /\
  healthCache w' = healthCache w /\
  memoryCache w' = memoryCache w /\
  files w' = files w /\
  exists evs,
    trace w' = trace w ++ evs /\
    Forall batchEvent evs /\
    aggregateCalls evs <= k.

(** The method returns a value that satisfies [P], or it throws. *)
Definition halts {A : Type} (P : A -> Prop) (o : Outcome A) : Prop :=
  match o with
  | Ok a => P a
  | Throw _ => True
  | Diverge => False
  end.

(** The method returns a value that satisfies [P]. *)
Definition returns {A : Type} (P : A -> Prop) (o : Outcome A) : Prop :=
  match o with
  | Ok a => P a
  | _ => False
  end.

(** [Within k Q m]: from any world, the outcome of [m] satisfies [Q] and
    its effect is a [batchEffect] of at most [k] aggregate calls. *)
Definition Within (k : nat) {A : Type} (Q : Outcome A -> Prop) (m : M A)
    : Prop :=
  forall w, Q (fst (m w)) /\ batchEffect k w (snd (m w)).

(** [n] calls of [getNextProxy] in a row: what they return, and the state
    they leave. *)
Fixpoint nextProxies (n : nat) (s : ProxyState)
    : list (option ProxyConfig) * ProxyState :=
  match n with
  | O => ([], s)
  | S n' =>
      let (proxy, s1) := getNextProxy s in
      let (rest, s2) := nextProxies n' s1 in
      (proxy :: rest, s2)
  end.

(** As [steadyEnv], with the first endpoint of Optimism out of reach. *)
Definition firstEndpointDownEnv : Env :=
  {| encodeBalanceOf := fun owner => Some ("0x70a08231" +:+ owner);
     decodeBalanceOf :=
       fun data => if String.eqb data "0x" then None else Some 1500000%Z;
     rpc_getBlockNumber :=
       fun _ rpcUrl => negb (String.eqb rpcUrl "https://optimism-rpc.publicnode.com");
     rpc_getBalance := fun _ _ _ => Some 2000000000000000000%Z;
     rpc_aggregate3 :=
       fun _ _ _ calls =>
         Some (map (fun _ => {| res_success := true;
                                res_returnData := "0x16e360" |}) calls);
     api_fetchTokens := fun _ => Some {[ "1" := [usdc] ]};
     elapsed := fun _ => 40%Z |}.


(** As [steadyEnv], with every native balance request failing. *)
Definition deadBalanceEnv : Env :=
  {| encodeBalanceOf := fun owner => Some ("0x70a08231" +:+ owner);
     decodeBalanceOf :=
       fun data => if String.eqb data "0x" then None else Some 1500000%Z;
     rpc_getBlockNumber := fun _ _ => true;
     rpc_getBalance := fun _ _ _ => None;
     rpc_aggregate3 :=
       fun _ _ _ calls =>
         Some (map (fun _ => {| res_success := true;
                                res_returnData := "0x16e360" |}) calls);
     api_fetchTokens := fun _ => Some {[ "1" := [usdc] ]};
     elapsed := fun _ => 40%Z |}.
(** The last character of a string. *)
Fixpoint lastChar (s : string) : option ascii :=
  match s with
  | EmptyString => None
  | String c EmptyString => Some c
  | String _ rest => lastChar rest
  end.

(** Every record has a raw balance above zero. *)
Definition positiveRecords `{FL : Float64} (records : list BalanceResult)
    : Prop :=
  Forall (fun record => (0 < bal_balance record)%Z) records.

(** [Raises E m]: every error that [m] throws satisfies [E]. *)
Definition Raises (E : Error -> Prop) {A : Type} (m : M A) : Prop :=
  forall w e w', m w = (Throw e, w') -> E e.

(** The errors of a query of one network of the registry. *)
Definition networkError (config : NetworkConfig) (e : Error) : Prop :=
  e = CatalogUnavailable \/
  e = NoHealthyEndpoint (cfg_name config) \/
  e = ClientCreationFailed (cfg_name config) \/
  e = NativeBalanceFailed.

(** * Proofs *)

(** ** Partitioning into batches *)

Lemma createBatches_loop_covers {A : Type} (fuel : nat) (tokens : list A)
    (batchSize i : nat) (batches : list (list A)) :
  0 < batchSize ->
  length tokens - i <= fuel ->
  exists rest,
    createBatches_loop fuel tokens batchSize i batches = Some (batches ++ rest) /\
    concat rest = drop i tokens /\
    Forall (fun batch => 0 < length batch <= batchSize) rest.
Proof.
  intros Hpos. revert i batches.
  induction fuel as [|fuel IH]; intros i batches Hfuel; simpl.
  - destruct (Nat.ltb_spec i (length tokens)) as [Hlt|Hge]; [lia|].
    exists []. rewrite app_nil_r, drop_ge by lia. auto.
  - destruct (Nat.ltb_spec i (length tokens)) as [Hlt|Hge].
    + destruct (IH (i + batchSize) (batches ++ [slice tokens i (i + batchSize)]))
        as (rest & Hrun & Hcat & Hall); [lia|].
      exists (slice tokens i (i + batchSize) :: rest).
      rewrite Hrun, <- app_assoc. simpl. split; [reflexivity|]. split.
      * rewrite Hcat. unfold slice.
        replace (i + batchSize - i) with batchSize by lia.
        rewrite <- drop_drop. apply take_drop.
      * constructor; [|exact Hall]. unfold slice.
        rewrite length_take, length_drop. lia.
    + exists []. rewrite app_nil_r, drop_ge by lia. auto.
Qed.

Lemma createBatches_covers {A : Type} (tokens : list A) (batchSize : nat) :
  0 < batchSize ->
  exists batches,
    createBatches tokens batchSize = Some batches /\
    concat batches = tokens /\
    Forall (fun batch => 0 < length batch <= batchSize) batches.
Proof.
  intros Hpos. unfold createBatches.
  destruct (createBatches_loop_covers (length tokens) tokens batchSize 0 [] Hpos)
    as (rest & Hrun & Hcat & Hall); [lia|].
  exists rest. simpl in Hrun. rewrite drop_0 in Hcat. auto.
Qed.

Lemma createBatches_loop_zero_size {A : Type} (fuel : nat) (tokens : list A)
    (i : nat) (batches : list (list A)) :
  i < length tokens -> createBatches_loop fuel tokens 0 i batches = None.
Proof.
  intros Hlt. revert batches. induction fuel as [|fuel IH]; intros batches; simpl.
  - apply Nat.ltb_lt in Hlt. rewrite Hlt. reflexivity.
  - destruct (Nat.ltb_spec i (length tokens)); [|lia].
    rewrite Nat.add_0_r. apply IH.
Qed.

Example createBatches_seven_by_three :
  createBatches [1; 2; 3; 4; 5; 6; 7] 3 = Some [[1; 2; 3]; [4; 5; 6]; [7]].
Proof. reflexivity. Qed.

Lemma chooseBatchSize_pos (n : nat) : 0 < chooseBatchSize n.
Proof. unfold chooseBatchSize. repeat case_match; lia. Qed.

(** Claim C1.  For a token list of length [n] the aggregator picks the
    batch size 200 when [n > 1000], 100 when [n < 300] and 150 otherwise;
    [createBatches] then returns, and the batches it returns, put end to
    end, are the token list itself: no token is left out or repeated.
    Every batch is non-empty and no longer than the batch size. *)
Theorem batch_size_and_partition (tokens : list TokenInfo) :
  let n := length tokens in
  (1000 < n -> chooseBatchSize n = 200) /\
  (n < 300 -> chooseBatchSize n = 100) /\
  (300 <= n <= 1000 -> chooseBatchSize n = 150) /\
  exists batches,
    createBatches tokens (chooseBatchSize n) = Some batches /\
    concat batches = tokens /\
    Forall (fun batch => 0 < length batch <= chooseBatchSize n) batches.
Proof.
  intros n. unfold chooseBatchSize at 1 2 3.
  repeat split.
  - intros H. apply Nat.ltb_lt in H. rewrite H. reflexivity.
  - intros H. destruct (Nat.ltb_spec 1000 n); [lia|].
    apply Nat.ltb_lt in H. rewrite H. reflexivity.
  - intros [H1 H2]. destruct (Nat.ltb_spec 1000 n); [lia|].
    destruct (Nat.ltb_spec n 300); [lia|]. reflexivity.
  - apply createBatches_covers, chooseBatchSize_pos.
Qed.

Lemma batch_size_and_partition_witness :
  chooseBatchSize (length (replicate 1200 usdc)) = 200 /\
  chooseBatchSize (length (replicate 7 usdc)) = 100 /\
  chooseBatchSize (length (replicate 300 usdc)) = 150 /\
  createBatches (replicate 7 usdc) 100 = Some [replicate 7 usdc].
Proof.
  split; [|split; [|split]].
  - apply (batch_size_and_partition (replicate 1200 usdc)).
    rewrite length_replicate. lia.
  - apply (batch_size_and_partition (replicate 7 usdc)). simpl. lia.
  - apply (batch_size_and_partition (replicate 300 usdc)).
    rewrite length_replicate. lia.
  - reflexivity.
Defined.


(** ** Registry lookup *)

Lemma find_first_match {A : Type} (p : A -> bool) (xs : list A) (x : A) :
  find p xs = Some x ->
  exists i,
    xs !! i = Some x /\ p x = true /\
    forall j y, j < i -> xs !! j = Some y -> p y = false.
Proof.
  induction xs as [|a xs IH]; simpl; [discriminate|].
  destruct (p a) eqn:Hpa.
  - intros [= ->]. exists 0. repeat split; auto. intros; lia.
  - intros Hfind. destruct (IH Hfind) as (i & Hi & Hp & Hbefore).
    exists (S i). repeat split; auto.
    intros [|j] y Hj; simpl.
    + intros [= <-]. exact Hpa.
    + apply Hbefore. lia.
Qed.

Lemma find_some_match {A : Type} (p : A -> bool) (xs : list A) (i : nat) (x : A) :
  xs !! i = Some x -> p x = true -> is_Some (find p xs).
Proof.
  revert i. induction xs as [|a xs IH]; intros [|i]; simpl; try discriminate.
  - intros [= ->] ->. eauto.
  - intros Hi Hp. destruct (p a); eauto.
Qed.

(** Claim C4.  [getNetworkConfig] returns the first entry of the registry
    table, in registration order, that carries the chain id asked for: no
    entry before it has that id, and an id present in the table is always
    found.  The id 999 is carried by two entries, HyperEVM (index 19) and
    Hyperliquid (index 26); the lookup of 999 returns HyperEVM, never
    Hyperliquid, and the table is not deduplicated: 999 is listed twice
    among the supported chain ids. *)
Theorem getNetworkConfig_first_match :
  (forall chainId config,
     getNetworkConfig chainId = Some config ->
     exists i,
       networkConfigs !! i = Some config /\
       cfg_chainId config = chainId /\
       forall j earlier,
         j < i -> networkConfigs !! j = Some earlier ->
         cfg_chainId earlier <> chainId) /\
  (forall chainId i config,
     networkConfigs !! i = Some config -> cfg_chainId config = chainId ->
     is_Some (getNetworkConfig chainId)) /\
  (exists hyperEVM hyperliquid,
     networkConfigs !! 19 = Some hyperEVM /\
     networkConfigs !! 26 = Some hyperliquid /\
     cfg_chainId hyperEVM = 999%Z /\ cfg_name hyperEVM = "HyperEVM" /\
     cfg_chainId hyperliquid = 999%Z /\ cfg_name hyperliquid = "Hyperliquid" /\
     getNetworkConfig 999 = Some hyperEVM /\
     getNetworkConfig 999 <> Some hyperliquid) /\
  length (filter (fun id => id = 999%Z) getSupportedChainIds) = 2.
Proof.
  split; [|split; [|split]].
  - intros chainId config Hfind.
    destruct (find_first_match _ _ _ Hfind) as (i & Hi & Hp & Hbefore).
    exists i. split; [exact Hi|]. split; [apply Z.eqb_eq, Hp|].
    intros j earlier Hj Hlook. apply Z.eqb_neq. eapply Hbefore; eauto.
  - intros chainId i config Hi Hid.
    eapply find_some_match; [exact Hi|]. apply Z.eqb_eq, Hid.
  - eexists _, _. repeat split; try reflexivity. vm_compute. discriminate.
  - vm_compute. reflexivity.
Qed.

Lemma getNetworkConfig_first_match_witness :
  exists i,
    networkConfigs !! i = getNetworkConfig 999 /\
    forall j earlier,
      j < i -> networkConfigs !! j = Some earlier -> cfg_chainId earlier <> 999%Z.
Proof.
  destruct getNetworkConfig_first_match as (Hfirst & _).
  destruct (getNetworkConfig 999) as [config|] eqn:Hfind; [|discriminate].
  destruct (Hfirst 999%Z config Hfind) as (i & Hi & _ & Hbefore).
  exists i. split; [exact Hi|exact Hbefore].
Defined.

(** ** Formatting balances *)

Lemma hasChar_app (c : ascii) (s t : string) :
  hasChar c (s +:+ t) = hasChar c s || hasChar c t.
Proof.
  induction s as [|a s IH]; simpl; [reflexivity|].
  rewrite IH. apply orb_assoc.
Qed.

Lemma uint_digits_no_dot (u : uint) :
  hasChar "." (NilEmpty.string_of_uint u) = false.
Proof. induction u; simpl; auto. Qed.

Lemma BigInt_toString_no_dot (z : Z) : hasChar "." (BigInt_toString z) = false.
Proof.
  unfold BigInt_toString.
  destruct (Z.to_int z) as [u|u]; simpl.
  - destruct u; try apply (uint_digits_no_dot (_ _)); reflexivity.
  - destruct u; try apply (uint_digits_no_dot (_ _)); reflexivity.
Qed.

Section Formatting.
Context `{FL : Float64}.

Lemma formatTokenBalance_whole (balance decimals divisor : Z) :
  BigInt_pow10 decimals = Some divisor ->
  divisor <> 0%Z ->
  Z.rem balance divisor = 0%Z ->
  formatTokenBalance balance decimals
  = Some (BigInt_toString (Z.quot balance divisor)).
Proof.
  intros Hpow Hnz Hrem. unfold formatTokenBalance. rewrite Hpow. simpl.
  destruct (Z.eqb_spec divisor 0); [contradiction|].
  rewrite Hrem. reflexivity.
Qed.

Example formatTokenBalance_fractions :
  formatTokenBalance 1500001 6 = Some "1.500001" /\
  formatTokenBalance 5 3 = Some "0.005" /\
  formatTokenBalance 120 2 = Some "1.2" /\
  formatTokenBalance 1500000000 6 = Some "1500" /\
  formatTokenBalance 7 (-1) = None.
Proof. repeat split; reflexivity. Qed.

(** Claim C7.  [formatTokenBalance] turns the raw balance 1500000 with
    precision 6 into "1.5"; with precision 0 it returns the decimal string
    of the balance unchanged; and a balance whose fractional part is zero
    (it is a multiple of the divisor) is printed as its whole part, a
    string with no decimal point in it. *)
Theorem formatTokenBalance_examples :
  formatTokenBalance 1500000 6 = Some "1.5" /\
  (forall balance, formatTokenBalance balance 0 = Some (BigInt_toString balance)) /\
  (forall balance decimals divisor,
     BigInt_pow10 decimals = Some divisor ->
     divisor <> 0%Z ->
     Z.rem balance divisor = 0%Z ->
     exists formatted,
       formatTokenBalance balance decimals = Some formatted /\
       formatted = BigInt_toString (Z.quot balance divisor) /\
       hasChar "." formatted = false).
Proof.
  split; [reflexivity|]. split.
  - intros balance.
    rewrite (formatTokenBalance_whole balance 0 1); try reflexivity; try lia.
    + rewrite Z.quot_1_r. reflexivity.
    + apply Z.rem_1_r.
  - intros balance decimals divisor Hpow Hnz Hrem.
    eexists. split; [apply formatTokenBalance_whole; eassumption|].
    split; [reflexivity|]. apply BigInt_toString_no_dot.
Qed.
End Formatting.

Lemma formatTokenBalance_examples_witness :
  exists formatted,
    formatTokenBalance (FL := termFloat) 2000000000000000000 18 = Some formatted /\
    formatted = "2" /\
    hasChar "." formatted = false.
Proof.
  destruct (formatTokenBalance_examples (FL := termFloat)) as (_ & _ & Hwhole).
  apply (Hwhole 2000000000000000000%Z 18%Z (10 ^ 18)%Z).
  - reflexivity.
  - lia.
  - reflexivity.
Defined.


(** ** Records decoded from an aggregate response *)

Section Collect.
Context `{FL : Float64}.

Lemma balanceResultAt_length (decode : string -> option Z)
    (tokens : list TokenInfo) (results : list MulticallResult) (i : nat) :
  length (balanceResultAt decode tokens results i)
  <= match results !! i with
     | Some result => if res_success result then 1 else 0
     | None => 0
     end.
Proof.
  unfold balanceResultAt.
  destruct (tokens !! i), (results !! i) as [result|]; simpl; try lia.
  destruct (res_success result); simpl; [|lia].
  case_match; simpl; lia.
Qed.

Lemma balanceResultAt_shift (decode : string -> option Z) (token : TokenInfo)
    (tokens : list TokenInfo) (result : MulticallResult)
    (results : list MulticallResult) (i : nat) :
  balanceResultAt decode (token :: tokens) (result :: results) (S i)
  = balanceResultAt decode tokens results i.
Proof. reflexivity. Qed.

Lemma balanceResultAt_no_results (decode : string -> option Z)
    (tokens : list TokenInfo) (i : nat) :
  balanceResultAt decode tokens [] i = [].
Proof. unfold balanceResultAt. destruct (tokens !! i); reflexivity. Qed.

Lemma flat_map_all_nil {A B : Type} (f : A -> list B) (xs : list A) :
  (forall x, f x = []) -> flat_map f xs = [].
Proof. intros Hf. induction xs as [|x xs IH]; simpl; [|rewrite Hf, IH]; reflexivity. Qed.

Lemma pushed_at_most_successes (decode : string -> option Z)
    (tokens : list TokenInfo) (results : list MulticallResult) :
  length (flat_map (balanceResultAt decode tokens results) (seq 0 (length tokens)))
  <= successCount results.
Proof.
  revert results. induction tokens as [|token tokens IH]; intros results.
  - simpl. lia.
  - destruct results as [|result results].
    + rewrite flat_map_all_nil by (intros; apply balanceResultAt_no_results).
      simpl. lia.
    + cbn [length seq flat_map]. rewrite length_app, <- seq_shift, flat_map_concat_map,
        map_map, <- flat_map_concat_map.
      rewrite (flat_map_ext _ (balanceResultAt decode tokens results))
        by (intros; apply balanceResultAt_shift).
      pose proof (balanceResultAt_length decode (token :: tokens) (result :: results) 0) as H0.
      specialize (IH results). simpl in H0.
      unfold successCount in *. rewrite filter_cons.
      destruct (res_success result) eqn:Hs; case_decide; try congruence; simpl; lia.
Qed.

Lemma collectBalanceResults_bounded (decode : string -> option Z)
    (tokens : list TokenInfo) (results : list MulticallResult) :
  length (collectBalanceResults decode tokens results) <= successCount results /\
  Forall (fun record => (0 < bal_balance record)%Z)
    (collectBalanceResults decode tokens results).
Proof.
  unfold collectBalanceResults. split.
  - etransitivity; [apply length_filter|]. apply pushed_at_most_successes.
  - apply Forall_forall. intros record Hin.
    apply list_elem_of_filter in Hin. tauto.
Qed.
End Collect.

(** ** Running a method: termination and invariants *)

Local Open Scope M_scope.

Section Safety.
Context `{FL : Float64} `{EN : Env}.

(** An invariant [I] that no write of the program can break. *)
Variable I : World -> Prop.
Hypothesis I_health : forall f w, I w -> I (set_healthCache f w).
Hypothesis I_memory : forall f w, I w -> I (set_memoryCache f w).
Hypothesis I_files : forall f w, I w -> I (set_files f w).
Hypothesis I_act : forall ev ms w, I w -> I (act ev ms w).
Hypothesis I_tick : forall w, I w -> I (tick w).
Hypothesis I_clear : forall w, I w -> I (set_clientCache (fun _ => ∅) w).
Hypothesis I_insert : forall chainId client w,
  is_Some (getNetworkConfig chainId) ->
  I w -> I (set_clientCache (insert chainId client) w).

Lemma Safe_ret {A : Type} (a : A) : Safe I (ret a).
Proof. intros w Hw. simpl. split; [discriminate|exact Hw]. Qed.

Lemma Safe_throw {A : Type} (e : Error) : Safe I (@throw A e).
Proof. intros w Hw. simpl. split; [discriminate|exact Hw]. Qed.

Lemma Safe_gets {A : Type} (f : World -> A) : Safe I (gets f).
Proof. intros w Hw. simpl. split; [discriminate|exact Hw]. Qed.

Lemma Safe_modify (f : World -> World) :
  (forall w, I w -> I (f w)) -> Safe I (modify f).
Proof. intros Hf w Hw. simpl. split; [discriminate|auto]. Qed.

Lemma Safe_bind {A B : Type} (m : M A) (f : A -> M B) :
  Safe I m -> (forall a, Safe I (f a)) -> Safe I (bind m f).
Proof.
  intros Hm Hf w Hw. unfold bind.
  destruct (Hm w Hw) as [Hnd Hi].
  destruct (m w) as [[a|e|] w']; simpl in *.
  - apply Hf, Hi.
  - split; [discriminate|exact Hi].
  - contradiction.
Qed.

Lemma Safe_try_catch {A : Type} (m : M A) (handler : Error -> M A) :
  Safe I m -> (forall e, Safe I (handler e)) -> Safe I (try_catch m handler).
Proof.
  intros Hm Hh w Hw. unfold try_catch.
  destruct (Hm w Hw) as [Hnd Hi].
  destruct (m w) as [[a|e|] w']; simpl in *.
  - split; [discriminate|exact Hi].
  - apply Hh, Hi.
  - contradiction.
Qed.

Lemma Safe_extern {A : Type} (ev : Event) (answer : nat -> A) :
  Safe I (extern ev answer).
Proof. intros w Hw. simpl. split; [discriminate|auto]. Qed.

Lemma Safe_fromOption {A : Type} (e : Error) (r : option A) :
  Safe I (fromOption e r).
Proof. destruct r; [apply Safe_ret|apply Safe_throw]. Qed.

Lemma Safe_loopResult {A : Type} (r : option A) :
  is_Some r -> Safe I (loopResult r).
Proof. intros [a ->] w Hw. simpl. split; [discriminate|exact Hw]. Qed.

Lemma Safe_delay (ms : Z) : Safe I (delay ms).
Proof. apply Safe_modify. auto. Qed.

Lemma Safe_Promise_all {A B : Type} (f : A -> M B) (xs : list A) :
  (forall x, Safe I (f x)) -> Safe I (Promise_all f xs).
Proof.
  intros Hf. induction xs as [|x xs IH]; simpl.
  - apply Safe_ret.
  - apply Safe_bind; [apply Hf|]. intros y.
    apply Safe_bind; [apply IH|]. intros ys. apply Safe_ret.
Qed.

Ltac safe_step :=
  lazymatch goal with
  | |- Safe _ (bind _ _) => apply Safe_bind; [|intros ?]
  | |- Safe _ (try_catch _ _) => apply Safe_try_catch; [|intros ?]
  | |- Safe _ (ret _) => apply Safe_ret
  | |- Safe _ (throw _) => apply Safe_throw
  | |- Safe _ (gets _) => apply Safe_gets
  | |- Safe _ Date_now => apply Safe_gets
  | |- Safe _ (extern _ _) => apply Safe_extern
  | |- Safe _ (fromOption _ _) => apply Safe_fromOption
  | |- Safe _ (delay _) => apply Safe_delay
  | |- Safe _ (modify (set_healthCache _)) => apply Safe_modify; auto
  | |- Safe _ (modify (set_memoryCache _)) => apply Safe_modify; auto
  | |- Safe _ (modify (set_files _)) => apply Safe_modify; auto
  | |- Safe _ (modify (act _ _)) => apply Safe_modify; auto
  | |- Safe _ (modify (set_clientCache (fun _ => ∅))) => apply Safe_modify; auto
  | |- Safe _ (Promise_all _ _) => apply Safe_Promise_all; intros ?
  | |- Safe _ (match ?x with _ => _ end) => destruct x eqn:?
  | |- Safe _ (let _ := _ in _) => cbv zeta
  end.

Ltac safe := repeat safe_step; eauto.

Lemma Safe_checkRPCHealth (rpcUrl : string) : Safe I (checkRPCHealth rpcUrl).
Proof. unfold checkRPCHealth. safe. Qed.

Lemma Safe_firstHealthy (rpcUrls : list string) : Safe I (firstHealthy rpcUrls).
Proof.
  induction rpcUrls as [|rpcUrl rest IH]; simpl; [apply Safe_ret|].
  apply Safe_bind; [apply Safe_checkRPCHealth|]. intros [|]; [apply Safe_ret|exact IH].
Qed.

Lemma Safe_findWorkingRPC (chainId : Z) : Safe I (findWorkingRPC chainId).
Proof. unfold findWorkingRPC. safe. apply Safe_firstHealthy. Qed.

Lemma Safe_createClient (chainId : Z) : Safe I (createClient chainId).
Proof.
  unfold createClient. safe; try apply Safe_findWorkingRPC.
  apply Safe_modify. intros w Hw. apply I_insert; eauto.
Qed.

Lemma Safe_getClient (chainId : Z) : Safe I (getClient chainId).
Proof. apply Safe_createClient. Qed.

Lemma Safe_clearCache : Safe I clearCache.
Proof. unfold clearCache. safe. Qed.

Lemma Safe_closeAllConnections : Safe I closeAllConnections.
Proof. unfold closeAllConnections. safe. Qed.

Lemma Safe_getClientWithRPC (chainId : Z) (rpcUrl : string) :
  Safe I (getClientWithRPC chainId rpcUrl).
Proof. unfold getClientWithRPC. safe. Qed.

Lemma Safe_isCacheValid (cached : CachedData) : Safe I (isCacheValid cached).
Proof. unfold isCacheValid. safe. Qed.

Lemma Safe_loadFromFileCache (chainId : Z) : Safe I (loadFromFileCache chainId).
Proof. unfold loadFromFileCache. safe; apply Safe_isCacheValid. Qed.

Lemma Safe_saveToFileCache (chainId : Z) (data : list TokenInfo) :
  Safe I (saveToFileCache chainId data).
Proof. unfold saveToFileCache. safe. Qed.

Lemma Safe_fetchFromAPI : Safe I fetchFromAPI.
Proof. unfold fetchFromAPI. safe. Qed.

Lemma Safe_getTokensForChain (chainId : Z) : Safe I (getTokensForChain chainId).
Proof.
  unfold getTokensForChain.
  safe; auto using Safe_isCacheValid, Safe_loadFromFileCache, Safe_fetchFromAPI,
    Safe_saveToFileCache.
Qed.

Lemma Safe_executeMulticall (chainId : Z) (calls : list Call3)
    (rpcUrl : option string) : Safe I (executeMulticall chainId calls rpcUrl).
Proof.
  unfold executeMulticall.
  safe; auto using Safe_getClient, Safe_getClientWithRPC.
Qed.

Lemma Safe_executeMulticallWithRPC (chainId : Z) (walletAddress : string)
    (tokens : list TokenInfo) (rpcUrl : string) :
  Safe I (executeMulticallWithRPC chainId walletAddress tokens rpcUrl).
Proof. unfold executeMulticallWithRPC. safe. apply Safe_executeMulticall. Qed.

Lemma Safe_rotationLoop (remaining attempt maxAttempts : nat) (chainId : Z)
    (walletAddress : string) (tokens : list TokenInfo) (rpcUrls : list string) :
  Safe I (rotationLoop remaining attempt maxAttempts chainId walletAddress tokens rpcUrls).
Proof.
  revert attempt. induction remaining as [|remaining IH]; intros attempt; simpl.
  - apply Safe_throw.
  - safe; auto using Safe_executeMulticallWithRPC.
Qed.

Lemma Safe_checkTokenBalancesBatched (chainId : Z) (walletAddress : string)
    (tokens : list TokenInfo) :
  Safe I (checkTokenBalancesBatched chainId walletAddress tokens).
Proof.
  unfold checkTokenBalancesBatched.
  destruct tokens as [|token tokens]; [apply Safe_ret|].
  apply Safe_bind.
  { apply Safe_loopResult.
    destruct (createBatches_covers (token :: tokens)
                (chooseBatchSize (length (token :: tokens)))) as (b & -> & _);
      [apply chooseBatchSize_pos|eauto]. }
  intros batches. apply Safe_bind.
  { apply Safe_loopResult.
    destruct (createBatches_covers batches MAX_CONCURRENT_BATCHES) as (g & -> & _);
      [unfold MAX_CONCURRENT_BATCHES; lia|eauto]. }
  intros groups. safe. apply Safe_rotationLoop.
Qed.

Lemma Safe_checkTokenBalances (chainId : Z) (walletAddress : string)
    (tokens : list TokenInfo) :
  Safe I (checkTokenBalances chainId walletAddress tokens).
Proof.
  unfold checkTokenBalances. destruct tokens; [apply Safe_ret|].
  apply Safe_checkTokenBalancesBatched.
Qed.

Lemma Safe_getNativeTokenPrice (chainId : Z) : Safe I (getNativeTokenPrice chainId).
Proof. unfold getNativeTokenPrice. safe. apply Safe_getTokensForChain. Qed.

Lemma Safe_calculateNativeUSDValue (balance decimals chainId : Z) :
  Safe I (calculateNativeUSDValue balance decimals chainId).
Proof. unfold calculateNativeUSDValue. safe. apply Safe_getNativeTokenPrice. Qed.

Lemma Safe_checkNativeBalance (chainId : Z) (walletAddress : string) :
  Safe I (checkNativeBalance chainId walletAddress).
Proof.
  unfold checkNativeBalance.
  safe; auto using Safe_getClient, Safe_calculateNativeUSDValue.
Qed.

Lemma Safe_checkSingleNetwork (walletAddress : string) (chainId : Z) :
  Safe I (checkSingleNetwork walletAddress chainId).
Proof.
  unfold checkSingleNetwork.
  safe; auto using Safe_getTokensForChain, Safe_checkNativeBalance,
    Safe_checkTokenBalances.
Qed.

Lemma Safe_emptyNetworkResult (walletAddress : string) (chainId : Z) :
  Safe I (emptyNetworkResult walletAddress chainId).
Proof. unfold emptyNetworkResult. safe. Qed.

Lemma Safe_networkPromise (walletAddress : string) (chainId : Z) :
  Safe I (networkPromise walletAddress chainId).
Proof.
  unfold networkPromise.
  safe; auto using Safe_checkSingleNetwork, Safe_emptyNetworkResult.
Qed.

Lemma Safe_checkAllNetworks (walletAddress : string) (config : BalanceCheckConfig) :
  Safe I (checkAllNetworks walletAddress config).
Proof. unfold checkAllNetworks. safe. apply Safe_networkPromise. Qed.

End Safety.

(** ** Connection manager *)

Section Claims.
Context `{FL : Float64} `{EN : Env}.

(** *** The client cache only holds registered networks *)

Lemma clientCacheSupported_serve (r : Request) (w : World) :
  clientCacheSupported w -> clientCacheSupported (serve r w).
Proof.
  intros Hw.
  assert (forall A (m : M A), Safe clientCacheSupported m ->
            clientCacheSupported (snd (m w))) as Hkeep.
  { intros A m Hm. apply Hm, Hw. }
  assert (forall A (m : M A),
            (forall I : World -> Prop,
               (forall f w, I w -> I (set_healthCache f w)) ->
               (forall f w, I w -> I (set_memoryCache f w)) ->
               (forall f w, I w -> I (set_files f w)) ->
               (forall ev ms w, I w -> I (act ev ms w)) ->
               (forall w, I w -> I (tick w)) ->
               (forall w, I w -> I (set_clientCache (fun _ => ∅) w)) ->
               (forall chainId client w,
                  is_Some (getNetworkConfig chainId) ->
                  I w -> I (set_clientCache (insert chainId client) w)) ->
               Safe I m) ->
            clientCacheSupported (snd (m w))) as Hall.
  { intros A m Hm. apply Hkeep, Hm; clear; unfold clientCacheSupported; simpl; auto.
    - intros w _ chainId client. rewrite lookup_empty. discriminate.
    - intros chainId client w Hsome Hw id c.
      destruct (decide (chainId = id)) as [->|Hne].
      + intros _. exact Hsome.
      + rewrite lookup_insert_ne by exact Hne. apply Hw. }
  destruct r; unfold serve; apply Hall; intros I H1 H2 H3 H4 H5 H6 H7.
  - apply Safe_getClient; auto.
  - apply Safe_getClientWithRPC; auto.
  - apply Safe_findWorkingRPC; auto.
  - apply Safe_clearCache; auto.
  - apply Safe_closeAllConnections; auto.
  - apply Safe_getTokensForChain; auto.
  - apply Safe_checkNativeBalance; auto.
  - apply Safe_checkTokenBalances; auto.
  - apply Safe_checkSingleNetwork; auto.
  - apply Safe_checkAllNetworks; auto.
Qed.

Lemma reachable_clientCacheSupported (w : World) :
  reachable w -> clientCacheSupported w.
Proof.
  induction 1 as [startTime onDisk|r w Hreach IH].
  - intros chainId client. simpl. rewrite lookup_empty. discriminate.
  - apply clientCacheSupported_serve, IH.
Qed.

(** Claim C6.  In every world the process can reach, [getClient] for a
    chain id that is not in the registry throws [UnsupportedNetwork] and
    leaves the world as it was: neither the client cache nor the health
    cache gains an entry (nothing at all is written or requested). *)
Theorem getClient_unsupported (chainId : Z) (w : World) :
  reachable w ->
  getNetworkConfig chainId = None ->
  getClient chainId w = (Throw (UnsupportedNetwork chainId), w).
Proof.
  intros Hreach Hnone. unfold getClient, createClient, bind, gets.
  destruct (clientCache w !! chainId) as [client|] eqn:Hcached.
  - apply reachable_clientCacheSupported in Hreach.
    destruct (Hreach chainId client Hcached) as [config Hsome]. congruence.
  - rewrite Hnone. reflexivity.
Qed.

(** *** Health verdicts *)

(** Claim C5.  The time to live of a health verdict is 5 minutes
    (300000 ms).  A verdict recorded for an endpoint at time [T] is
    returned as it is by a probe at time [T'] with [T' - T < TTL], and the
    world is unchanged: no network check is made.  A probe with
    [T' - T >= TTL] asks the endpoint for its block number once and
    overwrites the cached verdict with the answer and the time of the
    answer. *)
Theorem checkRPCHealth_ttl (rpcUrl : string) (w : World) (cached : HealthCheckResult) :
  healthCache w !! ("health_" +:+ rpcUrl) = Some cached ->
  HEALTH_CHECK_TTL = 300000%Z /\
  ((now w - lastCheck cached < HEALTH_CHECK_TTL)%Z ->
   checkRPCHealth rpcUrl w = (Ok (isHealthy cached), w)) /\
  ((HEALTH_CHECK_TTL <= now w - lastCheck cached)%Z ->
   let verdict := rpc_getBlockNumber (externalCalls w) rpcUrl in
   let w' := snd (checkRPCHealth rpcUrl w) in
   fst (checkRPCHealth rpcUrl w) = Ok verdict /\
   trace w' = trace w ++ [EvGetBlockNumber rpcUrl] /\
   now w' = (now w + elapsed (externalCalls w))%Z /\
   healthCache w'
   = <["health_" +:+ rpcUrl := {| isHealthy := verdict; lastCheck := now w' |}]>
       (healthCache w) /\
   clientCache w' = clientCache w).
Proof.
  intros Hcached. split; [reflexivity|]. split.
  - intros Hfresh. unfold checkRPCHealth, bind, gets, Date_now, gets, freshVerdict.
    rewrite Hcached. apply Z.ltb_lt in Hfresh. rewrite Hfresh. reflexivity.
  - intros Hstale. unfold checkRPCHealth, bind, gets, Date_now, gets, freshVerdict.
    rewrite Hcached. destruct (Z.ltb_spec (now w - lastCheck cached) HEALTH_CHECK_TTL);
      [lia|].
    unfold try_catch, bind, extern. simpl.
    destruct (rpc_getBlockNumber (externalCalls w) rpcUrl); simpl; auto.
Qed.

(** *** Empty token list *)

(** Claim C10.  For an empty token list [checkTokenBalances] and
    [checkTokenBalancesBatched] return the empty list at once and leave
    the world as it was: no batch is formed, no endpoint is consulted and
    no aggregate call is made. *)
Theorem checkTokenBalances_empty (chainId : Z) (walletAddress : string) (w : World) :
  checkTokenBalances chainId walletAddress [] w = (Ok [], w) /\
  checkTokenBalancesBatched chainId walletAddress [] w = (Ok [], w).
Proof. split; reflexivity. Qed.

End Claims.

Lemma getClient_unsupported_witness :
  let w := serve (FL := termFloat) (EN := steadyEnv) (AskGetClient 1)
             (set_files (fun _ => ∅) (initialWorld 0)) in
  is_Some (clientCache w !! 1%Z) /\
  getClient (EN := steadyEnv) 77 w = (Throw (UnsupportedNetwork 77), w).
Proof.
  split.
  - vm_compute. eauto.
  - apply (getClient_unsupported (FL := termFloat) (EN := steadyEnv)).
    + apply reachable_serve, reachable_start.
    + reflexivity.
Defined.

Lemma checkRPCHealth_ttl_witness :
  let recorded :=
    snd (checkRPCHealth (EN := steadyEnv) "https://eth.drpc.org" (initialWorld 0)) in
  checkRPCHealth (EN := steadyEnv) "https://eth.drpc.org" (act (EvDelay 299999) 299999 recorded)
  = (Ok true, act (EvDelay 299999) 299999 recorded) /\
  trace (snd (checkRPCHealth (EN := steadyEnv) "https://eth.drpc.org"
                (act (EvDelay 300000) 300000 recorded)))
  = [EvGetBlockNumber "https://eth.drpc.org"; EvDelay 300000;
     EvGetBlockNumber "https://eth.drpc.org"].
Proof.
  split.
  - refine (proj1 (proj2 (checkRPCHealth_ttl (EN := steadyEnv) "https://eth.drpc.org"
                            _ {| isHealthy := true; lastCheck := 40 |} _)) _).
    + vm_compute. reflexivity.
    + vm_compute. reflexivity.
  - refine (proj1 (proj2 (proj2 (proj2 (checkRPCHealth_ttl (EN := steadyEnv)
              "https://eth.drpc.org" _ {| isHealthy := true; lastCheck := 40 |} _)) _))).
    + vm_compute. reflexivity.
    + vm_compute. discriminate.
Defined.

(** ** Endpoint rotation *)

Lemma indexMod_Some {A : Type} (xs : list A) (a : nat) (x : A) :
  indexMod xs a = Some x -> xs <> [] /\ xs !! (a mod length xs) = Some x.
Proof.
  unfold indexMod. destruct xs as [|y ys]; [discriminate|].
  intros H. split; [discriminate|exact H].
Qed.

Lemma length_remove_dups_le `{EqDecision A} (l : list A) :
  length (remove_dups l) <= length l.
Proof.
  induction l as [|x l IH]; simpl; [lia|].
  destruct (decide_rel elem_of x l); simpl; lia.
Qed.

Section RotationTraces.
Variable rpcUrls : list string.
Variable maxAttempts : nat.

Lemma aggregate_only_attempts (url : string) (inner rest : list Event) :
  (inner = [] \/ exists calls, inner = [EvAggregate3 url calls]) ->
  attemptsOf (inner ++ rest) = attemptsOf rest.
Proof. intros [->|[calls ->]]; reflexivity. Qed.

Lemma aggregate_only_delays (url : string) (inner rest : list Event)
    (since : option (list Z)) :
  (inner = [] \/ exists calls, inner = [EvAggregate3 url calls]) ->
  delaysSpaced since (inner ++ rest) = delaysSpaced since rest.
Proof. intros [->|[calls ->]]; reflexivity. Qed.

Lemma rotationTrace_attempts (attempt : nat) (evs : list Event) :
  rotationTrace rpcUrls maxAttempts attempt evs ->
  length (attemptsOf evs) <= S maxAttempts - attempt /\
  forall k url,
    (k, url) ∈ attemptsOf evs ->
    attempt <= k <= maxAttempts /\ indexMod rpcUrls (k - 1) = Some url.
Proof.
  induction 1 as [attempt|attempt evs _ [IHlen IHin]
                 |attempt url inner Hle Hidx Hinner
                 |attempt url inner rest Hlt Hidx Hinner _ [IHlen IHin]].
  - simpl. split; [lia|]. intros k url Hin. inversion Hin.
  - split; [lia|]. intros k url Hin. destruct (IHin k url Hin). split; [lia|auto].
  - cbn [attemptsOf]. rewrite <- (app_nil_r inner), (aggregate_only_attempts url) by exact Hinner.
    simpl. split; [lia|]. intros k url' Hin.
    apply list_elem_of_singleton in Hin. injection Hin as -> ->. split; [lia|auto].
  - cbn [attemptsOf]. rewrite (aggregate_only_attempts url) by exact Hinner.
    cbn [attemptsOf length]. split; [lia|]. intros k url' Hin.
    apply elem_of_cons in Hin as [Heq|Hin].
    + injection Heq as -> ->. split; [lia|auto].
    + destruct (IHin k url' Hin). split; [lia|auto].
Qed.

Lemma rotationTrace_numbers (attempt : nat) (evs : list Event) :
  rotationTrace rpcUrls maxAttempts attempt evs ->
  Forall (fun k => attempt <= k) (attemptsOf evs).*1 /\
  StronglySorted lt (attemptsOf evs).*1.
Proof.
  induction 1 as [attempt|attempt evs _ [IHge IHsorted]
                 |attempt url inner Hle Hidx Hinner
                 |attempt url inner rest Hlt Hidx Hinner _ [IHge IHsorted]].
  - simpl. split; constructor.
  - split; [|exact IHsorted]. eapply Forall_impl; [exact IHge|]. simpl. lia.
  - cbn [attemptsOf]. rewrite <- (app_nil_r inner), (aggregate_only_attempts url) by exact Hinner.
    simpl. split; repeat constructor.
  - cbn [attemptsOf]. rewrite (aggregate_only_attempts url) by exact Hinner.
    cbn [attemptsOf fmap list_fmap fst]. split.
    + constructor; [lia|]. eapply Forall_impl; [exact IHge|]. simpl. lia.
    + constructor; [exact IHsorted|]. eapply Forall_impl; [exact IHge|]. simpl. lia.
Qed.

Lemma rotationTrace_delays (attempt : nat) (evs : list Event) :
  rotationTrace rpcUrls maxAttempts attempt evs ->
  delaysSpaced None evs = true /\ delaysSpaced (Some [500%Z]) evs = true.
Proof.
  induction 1 as [attempt|attempt evs _ IH
                 |attempt url inner Hle Hidx Hinner
                 |attempt url inner rest Hlt Hidx Hinner _ [_ IH]].
  - split; reflexivity.
  - exact IH.
  - cbn [delaysSpaced].
    rewrite <- (app_nil_r inner), (aggregate_only_delays url) by exact Hinner.
    split; reflexivity.
  - cbn [delaysSpaced]. rewrite (aggregate_only_delays url) by exact Hinner.
    cbn [delaysSpaced fmap option_fmap option_map app]. rewrite IH.
    split; reflexivity.
Qed.

End RotationTraces.

Section Rotation.
Context `{FL : Float64} `{EN : Env}.

Lemma executeMulticallWithRPC_trace (chainId : Z) (walletAddress : string)
    (tokens : list TokenInfo) (rpcUrl : string) (w : World) :
  String.eqb rpcUrl "" = false ->
  exists inner,
    trace (snd (executeMulticallWithRPC chainId walletAddress tokens rpcUrl w))
    = trace w ++ inner /\
    (inner = [] \/ exists calls, inner = [EvAggregate3 rpcUrl calls]).
Proof.
  intros Hurl. unfold executeMulticallWithRPC, executeMulticall, bind.
  rewrite Hurl. unfold getClientWithRPC.
  destruct (mapM _ tokens) as [calls|]; simpl.
  - destruct (getNetworkConfig chainId) as [config|]; simpl.
    + unfold try_catch, bind, extern. simpl.
      exists [EvAggregate3 rpcUrl calls].
      destruct (rpc_aggregate3 _ _ _ _); simpl; eauto.
    + exists []. rewrite app_nil_r. auto.
  - exists []. rewrite app_nil_r. auto.
Qed.

Lemma rotationLoop_trace (maxAttempts : nat) (chainId : Z) (walletAddress : string)
    (tokens : list TokenInfo) (rpcUrls : list string)
    (remaining attempt : nat) (w : World) :
  attempt + remaining = S maxAttempts ->
  exists evs,
    trace (snd (rotationLoop remaining attempt maxAttempts chainId walletAddress
                  tokens rpcUrls w))
    = trace w ++ evs /\
    rotationTrace rpcUrls maxAttempts attempt evs.
Proof.
  revert attempt w. induction remaining as [|remaining IH]; intros attempt w Hsum.
  - exists []. simpl. rewrite app_nil_r. split; [reflexivity|constructor].
  - cbn [rotationLoop].
    assert (forall w0, exists evs,
              trace (snd (rotationLoop remaining (S attempt) maxAttempts chainId
                            walletAddress tokens rpcUrls w0)) = trace w0 ++ evs /\
              rotationTrace rpcUrls maxAttempts attempt evs) as Hnext.
    { intros w0. destruct (IH (S attempt) w0) as (evs & Htr & Hrt); [lia|].
      exists evs. split; [exact Htr|]. apply rotation_skip, Hrt. }
    destruct (indexMod rpcUrls (attempt - 1)) as [url|] eqn:Hidx; [|apply Hnext].
    destruct (String.eqb url "") eqn:Hurl; [apply Hnext|].
    unfold bind at 1. unfold try_catch, bind at 1. unfold modify at 1.
    set (w1 := act (EvAttempt attempt url) 0 w).
    destruct (executeMulticallWithRPC_trace chainId walletAddress tokens url w1 Hurl)
      as (inner & Hinner & Hshape).
    unfold bind at 1.
    destruct (executeMulticallWithRPC chainId walletAddress tokens url w1)
      as [[batchResult|e|] w2] eqn:Hrun; simpl in Hinner.
    + exists (EvAttempt attempt url :: inner). simpl. rewrite Hinner. simpl.
      rewrite <- app_assoc. split; [reflexivity|].
      apply rotation_last; auto. lia.
    + destruct (Nat.ltb_spec attempt maxAttempts) as [Hlt|Hge].
      * unfold bind at 1. unfold delay, modify. unfold ret at 1.
        set (w3 := act (EvDelay 500) 500 w2).
        destruct (IH (S attempt) w3) as (rest & Hrest & Hrt); [lia|].
        exists (EvAttempt attempt url :: inner ++ EvDelay 500 :: rest).
        rewrite Hrest. subst w3. simpl. rewrite Hinner. simpl.
        rewrite <- !app_assoc. simpl. rewrite <- ?app_assoc. split; [reflexivity|].
        apply rotation_retry; auto.
      * unfold bind at 1. unfold ret at 1 2.
        assert (remaining = 0) as -> by lia. simpl.
        exists (EvAttempt attempt url :: inner). rewrite Hinner. simpl.
        rewrite <- app_assoc. split; [reflexivity|].
        apply rotation_last; auto. lia.
    + exists (EvAttempt attempt url :: inner). simpl. rewrite Hinner. simpl.
      rewrite <- app_assoc. split; [reflexivity|].
      apply rotation_last; auto. lia.
Qed.

(** Claim C2.  One run of [checkSingleBatchWithRPCRotation] (with its
    three attempts) hands the batch to an endpoint at most 3 times, with
    increasing attempt numbers; attempt [k], when it is made, has
    [1 <= k <= 3] and goes to the endpoint at position
    [(k - 1) mod endpointCount] of the endpoint list; between two
    consecutive attempts there is exactly one delay, of 500 ms; and at
    most 3 distinct endpoints are tried. *)
Theorem rotation_attempts (chainId : Z) (walletAddress : string)
    (tokens : list TokenInfo) (rpcUrls : list string) (w : World) :
  exists evs,
    trace (snd (checkSingleBatchWithRPCRotation chainId walletAddress tokens
                  rpcUrls 3 w))
    = trace w ++ evs /\
    length (attemptsOf evs) <= 3 /\
    StronglySorted lt (attemptsOf evs).*1 /\
    (forall k url,
       (k, url) ∈ attemptsOf evs ->
       1 <= k <= 3 /\ rpcUrls <> [] /\
       rpcUrls !! ((k - 1) mod length rpcUrls) = Some url) /\
    delaysSpaced None evs = true /\
    length (remove_dups (attemptsOf evs).*2) <= 3.
Proof.
  unfold checkSingleBatchWithRPCRotation.
  destruct (rotationLoop_trace 3 chainId walletAddress tokens rpcUrls 3 1 w)
    as (evs & Htrace & Hrt); [reflexivity|].
  exists evs. split; [exact Htrace|].
  destruct (rotationTrace_attempts _ _ _ _ Hrt) as [Hlen Hin].
  destruct (rotationTrace_numbers _ _ _ _ Hrt) as [_ Hsorted].
  destruct (rotationTrace_delays _ _ _ _ Hrt) as [Hspaced _].
  simpl in Hlen. split; [exact Hlen|]. split; [exact Hsorted|].
  split; [|split; [exact Hspaced|]].
  - intros k url Hk. destruct (Hin k url Hk) as [Hrange Hidx].
    apply indexMod_Some in Hidx. tauto.
  - etransitivity; [apply length_remove_dups_le|]. rewrite length_fmap. exact Hlen.
Qed.

End Rotation.

Example rotation_all_attempts_fail :
  trace (snd (checkSingleBatchWithRPCRotation (FL := termFloat)
                (EN := deadAggregateEnv) 1 "0xW" [] ["https://a"; "https://b"] 3
                (initialWorld 0)))
  = [EvAttempt 1 "https://a"; EvAggregate3 "https://a" []; EvDelay 500;
     EvAttempt 2 "https://b"; EvAggregate3 "https://b" []; EvDelay 500;
     EvAttempt 3 "https://a"; EvAggregate3 "https://a" []] /\
  fst (checkSingleBatchWithRPCRotation (FL := termFloat)
         (EN := deadAggregateEnv) 1 "0xW" [] ["https://a"; "https://b"] 3
         (initialWorld 0))
  = Throw (BatchExhausted 3) /\
  checkSingleBatchWithRPCRotation (FL := termFloat) (EN := deadAggregateEnv)
    1 "0xW" [] [] 3 (initialWorld 0)
  = (Throw (BatchExhausted 3), initialWorld 0).
Proof. repeat split; vm_compute; reflexivity. Qed.

Lemma rotation_attempts_witness :
  exists evs,
    trace (snd (checkSingleBatchWithRPCRotation (FL := termFloat)
                  (EN := deadAggregateEnv) 1 "0xW" [usdc]
                  ["https://a"; "https://b"] 3 (initialWorld 0)))
    = evs /\
    attemptsOf evs = [(1, "https://a"); (2, "https://b"); (3, "https://a")] /\
    length (attemptsOf evs) <= 3 /\
    delaysSpaced None evs = true.
Proof.
  destruct (rotation_attempts (FL := termFloat) (EN := deadAggregateEnv) 1 "0xW"
              [usdc] ["https://a"; "https://b"] (initialWorld 0))
    as (evs & Htrace & Hlen & _ & _ & Hspaced & _).
  exists evs. split; [exact Htrace|]. split; [|split; [exact Hlen|exact Hspaced]].
  simpl in Htrace. rewrite <- Htrace. vm_compute. reflexivity.
Defined.

(** ** Balance orchestrator *)

Section Orchestrator.
Context `{FL : Float64} `{EN : Env}.

Lemma never_diverges {A : Type} (m : M A) (w : World) :
  Safe (fun _ => True) m -> fst (m w) <> Diverge.
Proof. intros Hm. apply (Hm w I). Qed.

Lemma checkSingleNetwork_never_diverges (walletAddress : string) (chainId : Z)
    (w : World) :
  fst (checkSingleNetwork walletAddress chainId w) <> Diverge.
Proof. apply never_diverges, Safe_checkSingleNetwork; auto. Qed.

Lemma checkSingleNetwork_result (walletAddress : string) (chainId : Z)
    (w w' : World) (net : NetworkBalanceResult) :
  checkSingleNetwork walletAddress chainId w = (Ok net, w') ->
  net_chainId net = chainId /\
  net_walletAddress net = walletAddress /\
  Forall (fun record => (0 < bal_balance record)%Z) (net_tokenBalances net).
Proof.
  unfold checkSingleNetwork.
  destruct (getNetworkConfig chainId) as [config|]; [|discriminate].
  unfold bind.
  destruct (getTokensForChain chainId w) as [[tokens|e|] w1]; try discriminate.
  destruct (checkNativeBalance chainId walletAddress w1) as [[native|e|] w2];
    try discriminate.
  destruct (checkTokenBalances chainId walletAddress tokens w2)
    as [[balances|e|] w3]; try discriminate.
  simpl. intros [= <- _]. simpl. repeat split.
  apply Forall_forall. intros record Hin.
  apply list_elem_of_filter in Hin. tauto.
Qed.

Lemma emptyNetworkResult_placeholder (walletAddress : string) (chainId : Z)
    (w : World) :
  exists net,
    emptyNetworkResult walletAddress chainId w = (Ok net, w) /\
    isPlaceholder chainId net /\
    net_walletAddress net = walletAddress.
Proof. eexists. split; [reflexivity|]. repeat split. Qed.

Lemma networkPromise_outcome (walletAddress : string) (chainId : Z) (w : World) :
  exists net w',
    networkPromise walletAddress chainId w = (Ok net, w') /\
    net_chainId net = chainId /\
    match checkSingleNetwork walletAddress chainId w with
    | (Ok result, w1) => net = result /\ w' = w1
    | (Throw _, w1) => isPlaceholder chainId net /\ w' = w1
    | (Diverge, _) => False
    end.
Proof.
  pose proof (checkSingleNetwork_never_diverges walletAddress chainId w) as Hnd.
  unfold networkPromise, try_catch.
  destruct (checkSingleNetwork walletAddress chainId w) as [[result|e|] w1] eqn:Hrun.
  - exists result, w1. split; [reflexivity|].
    split; [eapply checkSingleNetwork_result; eauto|auto].
  - destruct (emptyNetworkResult_placeholder walletAddress chainId w1)
      as (net & Hnet & Hplace & _).
    exists net, w1. split; [exact Hnet|]. split; [apply Hplace|auto].
  - contradiction.
Qed.

Lemma Promise_all_total {A B : Type} (f : A -> M B) (P : A -> B -> Prop)
    (xs : list A) (w : World) :
  (forall x w0, exists y w1, f x w0 = (Ok y, w1) /\ P x y) ->
  exists ys w', Promise_all f xs w = (Ok ys, w') /\ Forall2 P xs ys.
Proof.
  intros Hf. revert w. induction xs as [|x xs IH]; intros w; simpl.
  - exists [], w. split; [reflexivity|constructor].
  - destruct (Hf x w) as (y & w1 & Hy & HP).
    destruct (IH w1) as (ys & w2 & Hys & Hall).
    exists (y :: ys), w2. unfold bind. rewrite Hy, Hys. simpl.
    split; [reflexivity|]. constructor; assumption.
Qed.

Lemma checkAllNetworks_runs (walletAddress : string)
    (config : BalanceCheckConfig) (w : World) :
  exists result w',
    checkAllNetworks walletAddress config w = (Ok result, w') /\
    all_walletAddress result = walletAddress /\
    net_chainId <$> all_networks result
    = default getSupportedChainIds (config_chainIds config) /\
    Forall (fun net =>
              isPlaceholder (net_chainId net) net \/
              exists w1 w2,
                checkSingleNetwork walletAddress (net_chainId net) w1 = (Ok net, w2))
      (all_networks result).
Proof.
  unfold checkAllNetworks.
  set (chainIds := default getSupportedChainIds (config_chainIds config)).
  destruct (Promise_all_total (networkPromise walletAddress)
              (fun chainId net =>
                 net_chainId net = chainId /\
                 (isPlaceholder chainId net \/
                  exists w1 w2,
                    checkSingleNetwork walletAddress chainId w1 = (Ok net, w2)))
              chainIds w) as (nets & w' & Hrun & Hall).
  { intros chainId w0.
    destruct (networkPromise_outcome walletAddress chainId w0)
      as (net & w1 & Hnet & Hid & Hcase).
    exists net, w1. split; [exact Hnet|]. split; [exact Hid|].
    destruct (checkSingleNetwork walletAddress chainId w0) as [[r|e|] w2] eqn:Hsingle.
    - right. destruct Hcase as [-> _]. eauto.
    - left. tauto.
    - contradiction. }
  exists {| all_walletAddress := walletAddress; all_networks := nets;
            all_totalUsdValue := sumUsd net_totalUsdValue nets;
            all_timestamp := now w' |}, w'.
  unfold bind. rewrite Hrun. simpl. split; [reflexivity|]. split; [reflexivity|].
  clear Hrun. induction Hall as [|chainId net ids nets [Hid Hcase] Hall [IH1 IH2]].
  - split; constructor.
  - split.
    + rewrite fmap_cons, Hid, IH1. reflexivity.
    + constructor; [rewrite Hid; exact Hcase|exact IH2].
Qed.

(** Claim C8.  [checkAllNetworks] always returns a result, whatever the
    wallet address and the list of chain ids: it lists the queried chain
    ids in order, one network result each.  A network whose query threw
    (a chain id missing from the registry, a connection failure, a
    timeout) is reported by the zero-valued placeholder: native balance 0
    formatted as "0", no token balances, total USD 0.  For a chain id
    missing from the registry the placeholder is named "Chain <id>" with
    symbol "ETH". *)
Theorem checkAllNetworks_always_succeeds (walletAddress : string)
    (config : BalanceCheckConfig) (w : World) :
  (exists result w',
     checkAllNetworks walletAddress config w = (Ok result, w') /\
     all_walletAddress result = walletAddress /\
     net_chainId <$> all_networks result
     = default getSupportedChainIds (config_chainIds config) /\
     Forall (fun net =>
               isPlaceholder (net_chainId net) net \/
               exists w1 w2,
                 checkSingleNetwork walletAddress (net_chainId net) w1 = (Ok net, w2))
       (all_networks result)) /\
  (forall chainId w0,
     exists net w1,
       networkPromise walletAddress chainId w0 = (Ok net, w1) /\
       net_chainId net = chainId /\
       match checkSingleNetwork walletAddress chainId w0 with
       | (Ok result, w2) => net = result /\ w1 = w2
       | (Throw _, w2) => isPlaceholder chainId net /\ w1 = w2
       | (Diverge, _) => False
       end) /\
  (forall chainId w0,
     getNetworkConfig chainId = None ->
     networkPromise walletAddress chainId w0
     = (Ok {| net_chainId := chainId;
              net_networkName := "Chain " +:+ BigInt_toString chainId;
              net_walletAddress := walletAddress;
              net_nativeBalance :=
                {| nat_balance := 0; nat_balanceFormatted := "0";
                   nat_symbol := "ETH"; nat_usdValue := f64_zero |};
              net_tokenBalances := [];
              net_totalUsdValue := f64_zero;
              net_timestamp := now w0 |}, w0)).
Proof.
  split; [|split].
  - apply checkAllNetworks_runs.
  - intros chainId w0. apply networkPromise_outcome.
  - intros chainId w0 Hnone.
    unfold networkPromise, try_catch, checkSingleNetwork, emptyNetworkResult.
    rewrite Hnone. reflexivity.
Qed.

(** *** Zero balances are never surfaced *)

Lemma executeMulticallWithRPC_records (chainId : Z) (walletAddress : string)
    (tokens : list TokenInfo) (rpcUrl : string) (w w' : World)
    (records : list BalanceResult) :
  executeMulticallWithRPC chainId walletAddress tokens rpcUrl w = (Ok records, w') ->
  exists calls results,
    executeMulticall chainId calls (Some rpcUrl) w = (Ok results, w') /\
    length calls = length tokens /\
    records = collectBalanceResults decodeBalanceOf tokens results.
Proof.
  unfold executeMulticallWithRPC, bind.
  destruct (mapM _ tokens) as [calls|] eqn:Hcalls; simpl; [|discriminate].
  destruct (executeMulticall chainId calls (Some rpcUrl) w)
    as [[results|e|] w1] eqn:Hrun; try discriminate.
  intros [= <- <-]. exists calls, results. split; [exact Hrun|].
  split; [|reflexivity]. symmetry. eapply length_mapM, Hcalls.
Qed.

(** Claim C3.  Whatever the aggregate response to a batch, the balance
    records made from it are at most as many as the per-call results that
    report success, and each has a raw balance above zero; this holds for
    what [executeMulticallWithRPC] returns from the response it got.  The
    orchestrator filters once more: the token balances of every network
    result of [checkSingleNetwork] and of [checkAllNetworks] are all above
    zero. *)
Theorem surfaced_records_bounded_and_positive :
  (forall tokens results,
     length (collectBalanceResults decodeBalanceOf tokens results)
     <= successCount results /\
     Forall (fun record => (0 < bal_balance record)%Z)
       (collectBalanceResults decodeBalanceOf tokens results)) /\
  (forall chainId walletAddress tokens rpcUrl w w' records,
     executeMulticallWithRPC chainId walletAddress tokens rpcUrl w = (Ok records, w') ->
     exists calls results,
       executeMulticall chainId calls (Some rpcUrl) w = (Ok results, w') /\
       length records <= successCount results /\
       Forall (fun record => (0 < bal_balance record)%Z) records) /\
  (forall walletAddress chainId w w' net,
     checkSingleNetwork walletAddress chainId w = (Ok net, w') ->
     Forall (fun record => (0 < bal_balance record)%Z) (net_tokenBalances net)) /\
  (forall walletAddress config w,
     exists result w',
       checkAllNetworks walletAddress config w = (Ok result, w') /\
       Forall (fun net =>
                 Forall (fun record => (0 < bal_balance record)%Z)
                   (net_tokenBalances net))
         (all_networks result)).
Proof.
  split; [|split; [|split]].
  - intros tokens results. apply collectBalanceResults_bounded.
  - intros chainId walletAddress tokens rpcUrl w w' records Hrun.
    destruct (executeMulticallWithRPC_records _ _ _ _ _ _ _ Hrun)
      as (calls & results & Hcall & _ & ->).
    exists calls, results. split; [exact Hcall|].
    apply collectBalanceResults_bounded.
  - intros walletAddress chainId w w' net Hrun.
    eapply checkSingleNetwork_result, Hrun.
  - intros walletAddress config w.
    destruct (checkAllNetworks_runs walletAddress config w)
      as (result & w' & Hrun & _ & _ & Hall).
    exists result, w'. split; [exact Hrun|].
    eapply Forall_impl; [exact Hall|]. intros net [Hplace|(w1 & w2 & Hsingle)].
    + destruct Hplace as (_ & _ & _ & _ & -> & _). constructor.
    + eapply checkSingleNetwork_result, Hsingle.
Qed.

(** *** Catalog failures *)

Lemma getTokensForChain_throws (chainId : Z) (w w1 : World) (e : Error) :
  getTokensForChain chainId w = (Throw e, w1) ->
  e = CatalogUnavailable /\
  api_fetchTokens (externalCalls w) = None /\
  trace w1 = trace w ++ [EvFetchTokens] /\
  clientCache w1 = clientCache w /\
  healthCache w1 = healthCache w.
Proof.
  unfold getTokensForChain, bind, gets, isCacheValid, loadFromFileCache, bind,
    Date_now, gets, ret, modify, fetchFromAPI, bind, extern.
  destruct (memoryCache w !! _) as [cached|]; simpl.
  - destruct (_ <? _)%Z; simpl; [discriminate|].
    destruct (files w !! _) as [file|]; simpl.
    + destruct (_ <? _)%Z; simpl; [discriminate|].
      destruct (api_fetchTokens (externalCalls w)) as [table|]; simpl.
      * destruct (default [] _); simpl; discriminate.
      * intros [= <- <-]. simpl. auto.
    + destruct (api_fetchTokens (externalCalls w)) as [table|]; simpl.
      * destruct (default [] _); simpl; discriminate.
      * intros [= <- <-]. simpl. auto.
  - destruct (files w !! _) as [file|]; simpl.
    + destruct (_ <? _)%Z; simpl; [discriminate|].
      destruct (api_fetchTokens (externalCalls w)) as [table|]; simpl.
      * destruct (default [] _); simpl; discriminate.
      * intros [= <- <-]. simpl. auto.
    + destruct (api_fetchTokens (externalCalls w)) as [table|]; simpl.
      * destruct (default [] _); simpl; discriminate.
      * intros [= <- <-]. simpl. auto.
Qed.

(** Claim C9, as the code has it.  On a network of the registry, when
    fetching the token list throws (no valid cached list and the catalog
    request fails), the error is [CatalogUnavailable] and
    [checkSingleNetwork] throws it at once: the only request made is the
    catalog request, the native balance is not asked for.
    [checkAllNetworks] then reports the zero-valued placeholder for that
    network. *)
Theorem catalog_failure_fails_network (walletAddress : string) (chainId : Z)
    (w w1 : World) (e : Error) :
  is_Some (getNetworkConfig chainId) ->
  getTokensForChain chainId w = (Throw e, w1) ->
  e = CatalogUnavailable /\
  checkSingleNetwork walletAddress chainId w = (Throw CatalogUnavailable, w1) /\
  trace w1 = trace w ++ [EvFetchTokens] /\
  exists net,
    networkPromise walletAddress chainId w = (Ok net, w1) /\
    isPlaceholder chainId net.
Proof.
  intros [config Hconfig] Hthrow.
  destruct (getTokensForChain_throws _ _ _ _ Hthrow) as (-> & _ & Htrace & _).
  assert (checkSingleNetwork walletAddress chainId w = (Throw CatalogUnavailable, w1))
    as Hsingle.
  { unfold checkSingleNetwork. rewrite Hconfig. unfold bind. rewrite Hthrow.
    reflexivity. }
  split; [reflexivity|]. split; [exact Hsingle|]. split; [exact Htrace|].
  destruct (networkPromise_outcome walletAddress chainId w)
    as (net & w' & Hnet & _ & Hcase).
  rewrite Hsingle in Hcase. destruct Hcase as [Hplace ->]. eauto.
Qed.

End Orchestrator.

Lemma checkAllNetworks_always_succeeds_witness :
  networkPromise (FL := termFloat) (EN := steadyEnv) "0xW" 77 (initialWorld 5)
  = (Ok {| net_chainId := 77;
           net_networkName := "Chain 77";
           net_walletAddress := "0xW";
           net_nativeBalance :=
             {| nat_balance := 0; nat_balanceFormatted := "0";
                nat_symbol := "ETH"; nat_usdValue := f64_zero |};
           net_tokenBalances := [];
           net_totalUsdValue := f64_zero;
           net_timestamp := 5 |}, initialWorld 5).
Proof.
  refine (proj2 (proj2 (checkAllNetworks_always_succeeds (FL := termFloat)
            (EN := steadyEnv) "0xW"
            {| config_chainIds := None; config_batchSize := None |}
            (initialWorld 5))) 77%Z (initialWorld 5) _).
  reflexivity.
Defined.

Lemma surfaced_records_bounded_and_positive_witness :
  exists net w',
    checkSingleNetwork (FL := termFloat) (EN := steadyEnv) "0xW" 1 (initialWorld 0)
    = (Ok net, w') /\
    bal_balance <$> net_tokenBalances net = [1500000%Z] /\
    Forall (fun record => (0 < bal_balance record)%Z) (net_tokenBalances net).
Proof.
  destruct (checkSingleNetwork (FL := termFloat) (EN := steadyEnv) "0xW" 1
              (initialWorld 0)) as [[net|e|] w'] eqn:Hrun;
    try (vm_compute in Hrun; discriminate).
  exists net, w'. split; [reflexivity|]. split.
  - vm_compute in Hrun. injection Hrun as <- _. reflexivity.
  - destruct (surfaced_records_bounded_and_positive (FL := termFloat)
                (EN := steadyEnv)) as (_ & _ & Hsingle & _).
    apply (Hsingle "0xW" 1%Z (initialWorld 0) w' net). exact Hrun.
Defined.

(** The run that refutes claim C9 as the specification words it: the
    network is in the registry and the catalog is out of reach, yet the
    single-network query does not proceed with an empty token set: it
    throws, and no native balance is requested. *)
Lemma catalog_failure_counterexample :
  is_Some (getNetworkConfig 1) /\
  fst (getTokensForChain (EN := deadCatalogEnv) 1 (initialWorld 0))
  = Throw CatalogUnavailable /\
  fst (checkSingleNetwork (FL := termFloat) (EN := deadCatalogEnv) "0xW" 1
         (initialWorld 0))
  = Throw CatalogUnavailable /\
  trace (snd (checkSingleNetwork (FL := termFloat) (EN := deadCatalogEnv) "0xW" 1
                (initialWorld 0)))
  = [EvFetchTokens] /\
  fst (checkNativeBalance (FL := termFloat) (EN := deadCatalogEnv) 1 "0xW"
         (initialWorld 0))
  = Ok {| nat_balance := 2000000000000000000; nat_balanceFormatted := "2";
          nat_symbol := "ETH"; nat_usdValue := f64_zero |}.
Proof.
  split; [vm_compute; eauto|]. repeat split; vm_compute; reflexivity.
Defined.

Lemma catalog_failure_fails_network_witness :
  checkSingleNetwork (FL := termFloat) (EN := deadCatalogEnv) "0xW" 1 (initialWorld 0)
  = (Throw CatalogUnavailable,
     snd (getTokensForChain (EN := deadCatalogEnv) 1 (initialWorld 0))) /\
  exists net,
    networkPromise (FL := termFloat) (EN := deadCatalogEnv) "0xW" 1 (initialWorld 0)
    = (Ok net, snd (getTokensForChain (EN := deadCatalogEnv) 1 (initialWorld 0))) /\
    isPlaceholder 1 net.
Proof.
  destruct (catalog_failure_fails_network (FL := termFloat) (EN := deadCatalogEnv)
              "0xW" 1 (initialWorld 0)
              (snd (getTokensForChain (EN := deadCatalogEnv) 1 (initialWorld 0)))
              CatalogUnavailable) as (_ & Hsingle & _ & Hnet).
  - vm_compute. eauto.
  - vm_compute. reflexivity.
  - split; [exact Hsingle|exact Hnet].
Defined.

(** * Further properties *)

(** ** Wallet address file (wallet-utils.ts) *)

Section WalletFile.
Context `{BI : Builtins}.

Lemma addressOfLine_Some (line address : string) :
  addressOfLine line = Some address ->
  address = String_trim line /\
  address <> EmptyString /\
  String.prefix "#" address = false /\
  isAddress address = Some true.
Proof.
  unfold addressOfLine, isValidWalletAddress.
  destruct (String.eqb_spec (String_trim line) ""); simpl; [discriminate|].
  destruct (String.prefix "#" (String_trim line)) eqn:Hhash; simpl; [discriminate|].
  destruct (isAddress (String_trim line)) as [[|]|] eqn:Hvalid; try discriminate.
  intros [= <-]. auto.
Qed.

Lemma addressOfLine_None (line : string) :
  addressOfLine line = None ->
  String_trim line = EmptyString \/
  String.prefix "#" (String_trim line) = true \/
  isAddress (String_trim line) <> Some true.
Proof.
  unfold addressOfLine, isValidWalletAddress.
  destruct (String.eqb_spec (String_trim line) ""); simpl; [auto|].
  destruct (String.prefix "#" (String_trim line)); simpl; [auto|].
  destruct (isAddress (String_trim line)) as [[|]|]; try discriminate;
    intros _; right; right; discriminate.
Qed.

(** The wallet file is read line by line: what [getAllWalletAddresses]
    returns is, in file order, the trimmed form of exactly those lines
    that are not blank, are not comments and hold a valid address; it
    fails when the file is missing, and when no line qualifies, and never
    returns an empty list. *)
Theorem getAllWalletAddresses_spec (walletsTxt : option string) :
  match getAllWalletAddresses walletsTxt with
  | inr addresses =>
      exists content,
        walletsTxt = Some content /\
        addresses <> [] /\
        addresses
        = String_trim <$>
            filter (fun line =>
                      String_trim line <> EmptyString /\
                      String.prefix "#" (String_trim line) = false /\
                      isAddress (String_trim line) = Some true)
              (splitOn LF content)
  | inl WalletsFileNotFound => walletsTxt = None
  | inl NoValidWalletAddresses =>
      exists content,
        walletsTxt = Some content /\
        Forall (fun line =>
                  String_trim line = EmptyString \/
                  String.prefix "#" (String_trim line) = true \/
                  isAddress (String_trim line) <> Some true)
          (splitOn LF content)
  end.
Proof.
  assert (forall lines : list string,
            omap addressOfLine lines
            = String_trim <$>
                filter (fun line =>
                          String_trim line <> EmptyString /\
                          String.prefix "#" (String_trim line) = false /\
                          isAddress (String_trim line) = Some true) lines) as Hmap.
  { induction lines as [|line lines IH]; [reflexivity|].
    rewrite filter_cons.
    change (omap addressOfLine (line :: lines))
      with (match addressOfLine line with
            | Some address => address :: omap addressOfLine lines
            | None => omap addressOfLine lines
            end).
    rewrite IH.
    destruct (addressOfLine line) as [address|] eqn:Hline.
    - apply addressOfLine_Some in Hline as (-> & H1 & H2 & H3).
      rewrite decide_True by auto. reflexivity.
    - apply addressOfLine_None in Hline.
      rewrite decide_False; [reflexivity|]. intros (H1 & H2 & H3).
      destruct Hline as [?|[?|?]]; congruence. }
  unfold getAllWalletAddresses. destruct walletsTxt as [content|]; [|reflexivity].
  cbv zeta. destruct (omap addressOfLine (splitOn LF content)) as [|a rest] eqn:Hres.
  - exists content. split; [reflexivity|].
    apply Forall_forall. intros line Hin.
    apply addressOfLine_None.
    destruct (addressOfLine line) as [address|] eqn:Hline; [|reflexivity].
    assert (address ∈ omap addressOfLine (splitOn LF content)) as Habs
      by (apply list_elem_of_omap; eauto).
    rewrite Hres in Habs. inversion Habs.
  - exists content. split; [reflexivity|]. split; [discriminate|].
    rewrite <- Hres. apply Hmap.
Qed.


End WalletFile.

Lemma length_substring_full (n m : nat) (s : string) :
  n + m <= String.length s -> String.length (substring n m s) = m.
Proof.
  revert n m. induction s as [|c s IH]; intros [|n] [|m]; simpl; try lia.
  - intros H. rewrite IH by lia. reflexivity.
  - intros H. apply IH. lia.
  - intros H. apply IH. lia.
Qed.

Lemma string_length_app (s t : string) :
  String.length (s +:+ t) = String.length s + String.length t.
Proof. induction s as [|c s IH]; simpl; [reflexivity|]. rewrite IH. reflexivity. Qed.

(** An address of fewer than 10 characters is displayed as it is; a
    longer one is cut to 13 characters: its first 6, three dots, its last
    4. *)
Theorem formatAddressForDisplay_shape (address : string) :
  (String.length address < 10 -> formatAddressForDisplay address = address) /\
  (10 <= String.length address ->
   String.length (formatAddressForDisplay address) = 13 /\
   substring 0 6 (formatAddressForDisplay address) = substring 0 6 address /\
   substring 6 3 (formatAddressForDisplay address) = "..." /\
   substring 9 4 (formatAddressForDisplay address)
   = substring (String.length address - 4) 4 address).
Proof.
  unfold formatAddressForDisplay. split.
  - intros H. apply Nat.ltb_lt in H. rewrite H. reflexivity.
  - intros H. destruct (Nat.ltb_spec (String.length address) 10); [lia|].
    pose proof (length_substring_full 0 6 address ltac:(lia)) as H6.
    pose proof (length_substring_full (String.length address - 4) 4 address
                  ltac:(lia)) as H4.
    destruct (substring 0 6 address)
      as [|c1 [|c2 [|c3 [|c4 [|c5 [|c6 [|c7 r]]]]]]]; try discriminate.
    destruct (substring (String.length address - 4) 4 address)
      as [|d1 [|d2 [|d3 [|d4 [|d5 r]]]]]; try discriminate.
    repeat split; reflexivity.
Qed.


(** ** Proxies and contract addresses (rpc-manager.ts) *)

Lemma nextProxies_lookup (n : nat) (s : ProxyState) :
  proxies s <> [] ->
  fst (nextProxies n s)
  = (fun k => proxies s !! ((proxyIndex s + k) mod length (proxies s))) <$> seq 0 n /\
  snd (nextProxies n s)
  = {| proxies := proxies s; proxyIndex := proxyIndex s + n |}.
Proof.
  revert s. induction n as [|n IH]; intros s Hne.
  - simpl. rewrite Nat.add_0_r. destruct s; auto.
  - cbn [nextProxies].
    set (s1 := {| proxies := proxies s; proxyIndex := S (proxyIndex s) |}).
    assert (getNextProxy s
            = (proxies s !! (proxyIndex s mod length (proxies s)), s1)) as ->.
    { unfold getNextProxy. destruct (proxies s); [contradiction|reflexivity]. }
    destruct (IH s1) as [Hfst Hsnd]; [exact Hne|].
    destruct (nextProxies n s1) as [rest s2]. simpl in Hfst, Hsnd. subst rest s2.
    simpl. split.
    + rewrite Nat.add_0_r. f_equal. rewrite <- seq_shift, <- list_fmap_compose.
      apply list_fmap_ext. intros _ k _. simpl.
      replace (proxyIndex s + S k) with (S (proxyIndex s + k)) by lia. reflexivity.
    + f_equal. lia.
Qed.

(** [getNextProxy] hands the proxies out in turn: as many calls as there
    are proxies return every proxy once, in list order starting at
    position [proxyIndex mod length], and leave the index advanced by that
    many; with no proxy loaded it returns none and leaves the index where
    it was. *)
Theorem getNextProxy_round_robin (s : ProxyState) :
  (proxies s = [] -> getNextProxy s = (None, s)) /\
  fst (nextProxies (length (proxies s)) s)
  = Some <$> rotate (proxyIndex s) (proxies s) /\
  (proxies s <> [] ->
   forall n,
     snd (nextProxies n s)
     = {| proxies := proxies s; proxyIndex := proxyIndex s + n |}).
Proof.
  split; [|split].
  - intros Hempty. unfold getNextProxy. rewrite Hempty. reflexivity.
  - destruct (proxies s) as [|p ps] eqn:Hps.
    { simpl. unfold rotate. rewrite drop_nil, take_nil. reflexivity. }
    rewrite <- Hps.
    assert (proxies s <> []) as Hne by congruence.
    destruct (nextProxies_lookup (length (proxies s)) s Hne) as [-> _].
    apply list_eq. intros i. rewrite !list_lookup_fmap.
    destruct (decide (i < length (proxies s))) as [Hlt|Hge].
    + rewrite lookup_seq_lt by exact Hlt. simpl.
      rewrite lookup_rotate_r by exact Hlt.
      assert (rotate_nat_add (proxyIndex s) i (length (proxies s))
              = (proxyIndex s + i) mod length (proxies s)) as ->.
      { unfold rotate_nat_add. rewrite <- Nat2Z.inj_add, <- Nat2Z.inj_mod.
        apply Nat2Z.id. }
      destruct (lookup_lt_is_Some_2 (proxies s)
                  ((proxyIndex s + i) mod length (proxies s))) as [x Hx].
      { apply Nat.mod_upper_bound. lia. }
      rewrite Hx. reflexivity.
    + rewrite lookup_seq_ge by lia.
      rewrite (lookup_ge_None_2 (rotate _ _)) by (rewrite length_rotate; lia).
      reflexivity.
  - intros Hne n. apply nextProxies_lookup, Hne.
Qed.

(** A network supports Multicall3 exactly when [getMulticall3Address] has
    an address for it, and that address is the non-empty address of the
    first table row with the chain id; an id outside the registry has
    neither. *)
Theorem multicall3_support_matches_address (chainId : Z) :
  (supportsMulticall3 chainId = true <-> is_Some (getMulticall3Address chainId)) /\
  (forall address,
     getMulticall3Address chainId = Some address ->
     address <> EmptyString /\
     exists config,
       getNetworkConfig chainId = Some config /\
       cfg_multicallAddress config = address) /\
  (getNetworkConfig chainId = None ->
   supportsMulticall3 chainId = false /\ getMulticall3Address chainId = None).
Proof.
  unfold supportsMulticall3, getMulticall3Address.
  destruct (getNetworkConfig chainId) as [config|].
  - destruct (String.eqb_spec (cfg_multicallAddress config) "") as [Heq|Hne]; simpl.
    + split; [|split]; try discriminate.
      split; [discriminate|]. intros [x Hx]. discriminate.
    + split; [|split]; try discriminate.
      * split; eauto.
      * intros address [= <-]. eauto.
  - split; [|split]; try discriminate; auto.
    split; [discriminate|]. intros [x Hx]. discriminate.
Qed.

(** [getClientWithProxy] does not use the proxy it is given: with and
    without a proxy, and whatever the proxy, it gives the same answer, a
    client on the first endpoint of the network when there is one. *)
Theorem getClientWithProxy_ignores_proxy (chainId : Z) (proxy : option ProxyConfig) :
  getClientWithProxy chainId proxy = getClientWithProxy chainId None /\
  forall client,
    getClientWithProxy chainId proxy = inr client ->
    exists config,
      getNetworkConfig chainId = Some config /\
      cfg_rpcUrls config !! 0 = Some (client_rpcUrl client) /\
      client_chainId client = chainId.
Proof.
  unfold getClientWithProxy.
  destruct (getNetworkConfig chainId) as [config|] eqn:Hconfig.
  - destruct (cfg_rpcUrls config !! 0) as [url|] eqn:Hurl.
    + destruct (String.eqb url ""); [split; [reflexivity|discriminate]|].
      split; [destruct proxy; reflexivity|].
      intros client Hclient.
      assert (client = {| client_chainId := cfg_chainId config;
                          client_rpcUrl := url; client_options := None |}) as ->
        by (destruct proxy; congruence).
      exists config. simpl. repeat split; auto.
      apply find_some in Hconfig as [_ Hid]. apply Z.eqb_eq, Hid.
    + split; [reflexivity|discriminate].
  - split; [reflexivity|discriminate].
Qed.

(** ** The exact shape of the batches (multicall3-service.ts) *)

Lemma batch_index_in_range (len size j : nat) :
  0 < size -> (j * size < len <-> j < (len + size - 1) / size).
Proof.
  intros Hpos. split.
  - intros H. apply Nat.div_le_lower_bound; [lia|]. nia.
  - intros H.
    destruct (Nat.lt_ge_cases (j * size) len) as [Hlt|Hge]; [exact Hlt|].
    exfalso. apply (Nat.lt_irrefl j). eapply Nat.lt_le_trans; [exact H|].
    apply Nat.lt_succ_r. apply Nat.Div0.div_lt_upper_bound. nia.
Qed.

Lemma createBatches_loop_shape {A : Type} (fuel : nat) (tokens : list A)
    (batchSize j : nat) (batches : list (list A)) :
  0 < batchSize ->
  length tokens - j * batchSize <= fuel ->
  createBatches_loop fuel tokens batchSize (j * batchSize) batches
  = Some (batches ++
          ((fun k => take batchSize (drop (k * batchSize) tokens)) <$>
             seq j ((length tokens + batchSize - 1) / batchSize - j))).
Proof.
  intros Hpos. revert j batches.
  induction fuel as [|fuel IH]; intros j batches Hfuel; cbn [createBatches_loop].
  - destruct (Nat.ltb_spec (j * batchSize) (length tokens)) as [Hlt|Hge]; [lia|].
    assert (~ j < (length tokens + batchSize - 1) / batchSize) as Hcnt
      by (rewrite <- batch_index_in_range by exact Hpos; lia).
    replace ((length tokens + batchSize - 1) / batchSize - j) with 0 by lia.
    simpl. rewrite app_nil_r. reflexivity.
  - destruct (Nat.ltb_spec (j * batchSize) (length tokens)) as [Hlt|Hge].
    + assert (j < (length tokens + batchSize - 1) / batchSize) as Hcnt
        by (apply batch_index_in_range; assumption).
      replace (j * batchSize + batchSize) with (S j * batchSize) by lia.
      rewrite IH by (simpl; lia).
      replace ((length tokens + batchSize - 1) / batchSize - j)
        with (S ((length tokens + batchSize - 1) / batchSize - S j)) by lia.
      cbn [seq fmap list_fmap]. rewrite <- app_assoc. simpl.
      unfold slice.
      replace (batchSize + j * batchSize - j * batchSize) with batchSize by lia.
      reflexivity.
    + assert (~ j < (length tokens + batchSize - 1) / batchSize) as Hcnt
        by (rewrite <- batch_index_in_range by exact Hpos; lia).
      replace ((length tokens + batchSize - 1) / batchSize - j) with 0 by lia.
      simpl. rewrite app_nil_r. reflexivity.
Qed.

(** For a positive batch size, [createBatches] makes
    [ceil(length / batchSize)] batches, and batch number [k] (from 0) is
    the slice of the list from [k * batchSize] to [(k + 1) * batchSize]:
    every batch but the last is full. *)
Theorem createBatches_shape {A : Type} (tokens : list A) (batchSize : nat) :
  0 < batchSize ->
  exists batches,
    createBatches tokens batchSize = Some batches /\
    length batches = (length tokens + batchSize - 1) / batchSize /\
    (forall k,
       k < length batches ->
       batches !! k = Some (take batchSize (drop (k * batchSize) tokens))) /\
    (forall k batch,
       batches !! k = Some batch -> S k < length batches ->
       length batch = batchSize).
Proof.
  intros Hpos. unfold createBatches.
  pose proof (createBatches_loop_shape (length tokens) tokens batchSize 0 [] Hpos)
    as Hrun.
  simpl in Hrun. rewrite !Nat.sub_0_r in Hrun. rewrite Hrun by lia.
  eexists. split; [reflexivity|].
  assert (forall k,
            k < (length tokens + batchSize - 1) / batchSize ->
            ((fun k0 => take batchSize (drop (k0 * batchSize) tokens)) <$>
               seq 0 ((length tokens + batchSize - 1) / batchSize)) !! k
            = Some (take batchSize (drop (k * batchSize) tokens))) as Hlook.
  { intros k Hk. rewrite list_lookup_fmap, lookup_seq_lt by exact Hk. reflexivity. }
  rewrite length_fmap, length_seq. split; [reflexivity|]. split; [exact Hlook|].
  intros k batch Hbatch Hnext.
  rewrite Hlook in Hbatch by lia. injection Hbatch as <-.
  rewrite length_take, length_drop.
  apply batch_index_in_range in Hnext; [|exact Hpos]. simpl in Hnext. lia.
Qed.

Lemma createBatches_shape_witness :
  exists batches,
    createBatches [1; 2; 3; 4; 5; 6; 7] 3 = Some batches /\
    length batches = 3 /\
    batches !! 2 = Some [7].
Proof.
  destruct (createBatches_shape [1; 2; 3; 4; 5; 6; 7] 3) as (batches & Hrun & Hlen & Hk & _).
  - lia.
  - exists batches. split; [exact Hrun|]. split; [exact Hlen|].
    apply (Hk 2). rewrite Hlen. simpl. lia.
Defined.


(** ** Endpoint selection and client cache (rpc-manager.ts) *)

Local Open Scope M_scope.

Lemma health_key_inj (a b : string) :
  "health_" +:+ a = "health_" +:+ b -> a = b.
Proof. intros H. cbv [String.append] in H. injection H as ->. reflexivity. Qed.

Lemma registry_urls_nonempty (chainId : Z) (config : NetworkConfig) :
  getNetworkConfig chainId = Some config ->
  Forall (fun url => String.eqb url "" = false) (cfg_rpcUrls config).
Proof.
  intros Hfind. apply find_some in Hfind as [Hin _].
  assert (Forall (fun c => Forall (fun url => String.eqb url "" = false)
                             (cfg_rpcUrls c)) networkConfigs) as Hall.
  { apply Forall_forall. intros c Hc.
    assert (forallb (fun c => forallb (fun url => negb (String.eqb url ""))
                                (cfg_rpcUrls c)) networkConfigs = true) as Hb
      by (vm_compute; reflexivity).
    rewrite forallb_forall in Hb. apply list_elem_of_In in Hc.
    specialize (Hb c Hc). rewrite forallb_forall in Hb.
    apply Forall_forall. intros url Hurl. apply list_elem_of_In in Hurl.
    specialize (Hb url Hurl). destruct (String.eqb url ""); [discriminate|reflexivity]. }
  rewrite Forall_forall in Hall. apply Hall, list_elem_of_In, Hin.
Qed.

Section Endpoints.
Context `{EN : Env}.

Lemma checkRPCHealth_outcome (rpcUrl : string) (w : World) :
  exists verdict w',
    checkRPCHealth rpcUrl w = (Ok verdict, w') /\
    cachedVerdict w' rpcUrl = Some verdict /\
    clientCache w' = clientCache w /\
    memoryCache w' = memoryCache w /\
    files w' = files w /\
    (forall key, key <> "health_" +:+ rpcUrl ->
                 healthCache w' !! key = healthCache w !! key).
Proof.
  unfold checkRPCHealth, bind, gets, Date_now, gets, freshVerdict, cachedVerdict.
  destruct (healthCache w !! ("health_" +:+ rpcUrl)) as [cached|] eqn:Hcached.
  - destruct (now w - lastCheck cached <? HEALTH_CHECK_TTL)%Z.
    + exists (isHealthy cached), w. rewrite Hcached. auto 10.
    + unfold try_catch, bind, extern. simpl.
      destruct (rpc_getBlockNumber (externalCalls w) rpcUrl); simpl;
        eexists _, _; (split; [reflexivity|]); simpl;
        rewrite lookup_insert_eq; repeat split; auto;
        intros key Hkey; apply lookup_insert_ne; congruence.
  - unfold try_catch, bind, extern. simpl.
    destruct (rpc_getBlockNumber (externalCalls w) rpcUrl); simpl;
      eexists _, _; (split; [reflexivity|]); simpl;
      rewrite lookup_insert_eq; repeat split; auto;
      intros key Hkey; apply lookup_insert_ne; congruence.
Qed.

Lemma checkRPCHealth_fresh (rpcUrl : string) (w : World) :
  verdictFresh w rpcUrl ->
  exists verdict,
    cachedVerdict w rpcUrl = Some verdict /\
    checkRPCHealth rpcUrl w = (Ok verdict, w).
Proof.
  intros (cached & Hcached & Hfresh).
  exists (isHealthy cached). unfold cachedVerdict. rewrite Hcached.
  split; [reflexivity|].
  unfold checkRPCHealth, bind, gets, Date_now, gets, freshVerdict.
  rewrite Hcached. apply Z.ltb_lt in Hfresh. rewrite Hfresh. reflexivity.
Qed.

Lemma firstHealthy_outcome (rpcUrls : list string) (w : World) :
  exists found w',
    firstHealthy rpcUrls w = (Ok found, w') /\
    clientCache w' = clientCache w /\
    memoryCache w' = memoryCache w /\
    files w' = files w /\
    (forall key, (forall url, url ∈ rpcUrls -> key <> "health_" +:+ url) ->
                 healthCache w' !! key = healthCache w !! key) /\
    match found with
    | Some url => url ∈ rpcUrls /\ cachedVerdict w' url = Some true
    | None => forall url, url ∈ rpcUrls -> cachedVerdict w' url = Some false
    end.
Proof.
  revert w. induction rpcUrls as [|rpcUrl rest IH]; intros w.
  - exists None, w. simpl. repeat split; auto. intros url Hin. inversion Hin.
  - cbn [firstHealthy]. unfold bind at 1.
    destruct (checkRPCHealth_outcome rpcUrl w)
      as (verdict & w1 & Hrun & Hverdict & Hc & Hm & Hf & Hframe).
    rewrite Hrun. destruct verdict.
    + exists (Some rpcUrl), w1. repeat split; auto.
      * intros key Hkey. apply Hframe, Hkey. left.
      * left.
    + destruct (IH w1) as (found & w' & Hrest & Hc' & Hm' & Hf' & Hframe' & Hfound).
      exists found, w'. split; [exact Hrest|].
      split; [congruence|]. split; [congruence|]. split; [congruence|]. split.
      * intros key Hkey. rewrite Hframe'.
        -- apply Hframe, Hkey. left.
        -- intros url Hin. apply Hkey. right. exact Hin.
      * destruct found as [url|].
        -- destruct Hfound as [Hin Htrue]. split; [right; exact Hin|exact Htrue].
        -- intros url Hin. apply elem_of_cons in Hin as [->|Hin]; [|auto].
           destruct (decide (rpcUrl ∈ rest)) as [Hdup|Hnew]; [auto|].
           unfold cachedVerdict in *. rewrite Hframe'; [exact Hverdict|].
           intros url Hurl Heq. apply health_key_inj in Heq. congruence.
Qed.

Lemma firstHealthy_fresh (rpcUrls : list string) (w : World) :
  Forall (verdictFresh w) rpcUrls ->
  firstHealthy rpcUrls w
  = (Ok (find (fun url => bool_decide (cachedVerdict w url = Some true)) rpcUrls), w).
Proof.
  induction 1 as [|rpcUrl rest Hfresh _ IH]; [reflexivity|].
  cbn [firstHealthy find]. unfold bind.
  destruct (checkRPCHealth_fresh rpcUrl w Hfresh) as (verdict & Hcached & ->).
  rewrite Hcached. destruct verdict.
  - rewrite bool_decide_eq_true_2 by reflexivity. reflexivity.
  - rewrite bool_decide_eq_false_2 by discriminate. exact IH.
Qed.

(** [findWorkingRPC] on a network of the registry always returns.  The
    endpoint it returns is one of the network's endpoints and the health
    cache then holds a healthy verdict for it; it returns none only when
    the health cache then holds an unhealthy verdict for every endpoint
    of the network.  The client cache is not touched. *)
Theorem findWorkingRPC_outcome (chainId : Z) (w : World) :
  match getNetworkConfig chainId with
  | None => findWorkingRPC chainId w = (Throw (UnsupportedNetwork chainId), w)
  | Some config =>
      exists found w',
        findWorkingRPC chainId w = (Ok found, w') /\
        clientCache w' = clientCache w /\
        match found with
        | Some url => url ∈ cfg_rpcUrls config /\ cachedVerdict w' url = Some true
        | None =>
            forall url, url ∈ cfg_rpcUrls config -> cachedVerdict w' url = Some false
        end
  end.
Proof.
  unfold findWorkingRPC. destruct (getNetworkConfig chainId) as [config|]; [|reflexivity].
  destruct (firstHealthy_outcome (cfg_rpcUrls config) w)
    as (found & w' & Hrun & Hc & _ & _ & _ & Hfound).
  exists found, w'. auto.
Qed.

(** While the verdicts on all endpoints of a network are within their
    time to live, [findWorkingRPC] makes no request and changes nothing:
    it returns the first endpoint, in the configured order, whose cached
    verdict is healthy; endpoints marked unhealthy are passed over without
    being probed again. *)
Theorem findWorkingRPC_within_ttl (chainId : Z) (config : NetworkConfig) (w : World) :
  getNetworkConfig chainId = Some config ->
  Forall (verdictFresh w) (cfg_rpcUrls config) ->
  findWorkingRPC chainId w
  = (Ok (find (fun url => bool_decide (cachedVerdict w url = Some true))
           (cfg_rpcUrls config)), w).
Proof.
  intros Hconfig Hfresh. unfold findWorkingRPC. rewrite Hconfig.
  apply firstHealthy_fresh, Hfresh.
Qed.

(** A client that [createClient] returns is in the client cache
    afterwards, and asking again returns the same client with no request
    and no change.  A client that was not cached before is bound to a
    non-empty endpoint of the network, with the operational transport
    options, and that endpoint has a healthy verdict in the health
    cache. *)
Theorem createClient_caches (chainId : Z) (w w' : World) (client : PublicClient) :
  createClient chainId w = (Ok client, w') ->
  clientCache w' !! chainId = Some client /\
  getClient chainId w' = (Ok client, w') /\
  (clientCache w !! chainId = None ->
   exists config,
     getNetworkConfig chainId = Some config /\
     client_chainId client = chainId /\
     client_rpcUrl client ∈ cfg_rpcUrls config /\
     client_rpcUrl client <> EmptyString /\
     client_options client = Some operationalOptions /\
     cachedVerdict w' (client_rpcUrl client) = Some true).
Proof.
  intros Hrun.
  assert (clientCache w' !! chainId = Some client /\
          (clientCache w !! chainId = None ->
           exists config,
             getNetworkConfig chainId = Some config /\
             client_chainId client = chainId /\
             client_rpcUrl client ∈ cfg_rpcUrls config /\
             client_rpcUrl client <> EmptyString /\
             client_options client = Some operationalOptions /\
             cachedVerdict w' (client_rpcUrl client) = Some true)) as [Hcached Hnew].
  { revert Hrun. unfold createClient. unfold bind at 1. unfold gets at 1.
    destruct (clientCache w !! chainId) as [cachedClient|] eqn:Hold.
    - intros [= <- <-]. split; [exact Hold|discriminate].
    - destruct (getNetworkConfig chainId) as [config|] eqn:Hconfig; [|discriminate].
      unfold bind at 1. unfold findWorkingRPC. rewrite Hconfig.
      destruct (firstHealthy_outcome (cfg_rpcUrls config) w)
        as (found & w1 & Hfind & Hc & _ & _ & _ & Hfound).
      rewrite Hfind. destruct found as [url|]; [|discriminate].
      destruct (String.eqb_spec url "") as [Hempty|Hurl]; [discriminate|].
      unfold try_catch, bind, extern. simpl.
      destruct (rpc_getBlockNumber (externalCalls w1) url); simpl; [|discriminate].
      intros [= <- <-]. simpl. rewrite lookup_insert_eq. split; [reflexivity|].
      intros _. exists config. destruct Hfound as [Hin Htrue].
      apply find_some in Hconfig as Hid. destruct Hid as [_ Hid].
      apply Z.eqb_eq in Hid. repeat split; auto. }
  split; [exact Hcached|]. split; [|exact Hnew].
  unfold getClient, createClient, bind, gets. rewrite Hcached. reflexivity.
Qed.

(** When [createClient] throws, the client cache is as it was.  On a
    network of the registry the error is [NoHealthyEndpoint], and then
    every endpoint of the network has an unhealthy verdict in the health
    cache, or it is [ClientCreationFailed], and then an endpoint with a
    healthy verdict failed the smoke test. *)
Theorem createClient_failure (chainId : Z) (w w' : World) (e : Error) :
  createClient chainId w = (Throw e, w') ->
  clientCache w' = clientCache w /\
  match getNetworkConfig chainId with
  | None => e = UnsupportedNetwork chainId /\ w' = w
  | Some config =>
      (e = NoHealthyEndpoint (cfg_name config) /\
       forall url, url ∈ cfg_rpcUrls config -> cachedVerdict w' url = Some false) \/
      (e = ClientCreationFailed (cfg_name config) /\
       exists url,
         url ∈ cfg_rpcUrls config /\ cachedVerdict w' url = Some true /\
         exists before, trace w' = before ++ [EvGetBlockNumber url])
  end.
Proof.
  unfold createClient. unfold bind at 1. unfold gets at 1.
  destruct (clientCache w !! chainId) as [cachedClient|] eqn:Hold; [discriminate|].
  destruct (getNetworkConfig chainId) as [config|] eqn:Hconfig.
  - unfold bind at 1. unfold findWorkingRPC. rewrite Hconfig.
    destruct (firstHealthy_outcome (cfg_rpcUrls config) w)
      as (found & w1 & Hfind & Hc & _ & _ & _ & Hfound).
    rewrite Hfind. destruct found as [url|].
    + destruct Hfound as [Hin Htrue].
      pose proof (registry_urls_nonempty chainId config Hconfig) as Hne.
      rewrite Forall_forall in Hne. rewrite (Hne url Hin).
      unfold try_catch, bind, extern. simpl.
      destruct (rpc_getBlockNumber (externalCalls w1) url); simpl; [discriminate|].
      intros [= <- <-]. simpl. split; [exact Hc|]. right. split; [reflexivity|].
      exists url. repeat split; auto. eauto.
    + intros [= <- <-]. split; [exact Hc|]. left. auto.
  - intros [= <- <-]. auto.
Qed.

End Endpoints.

Lemma findWorkingRPC_within_ttl_witness :
  let w1 := snd (findWorkingRPC (EN := firstEndpointDownEnv) 10 (initialWorld 0)) in
  trace w1 = [EvGetBlockNumber "https://optimism-rpc.publicnode.com";
              EvGetBlockNumber "https://optimism.drpc.org"] /\
  findWorkingRPC (EN := firstEndpointDownEnv) 10 w1
  = (Ok (Some "https://optimism.drpc.org"), w1).
Proof.
  split; [vm_compute; reflexivity|].
  destruct (getNetworkConfig 10) as [config|] eqn:Hconfig; [|discriminate].
  rewrite (findWorkingRPC_within_ttl (EN := firstEndpointDownEnv) 10 config _ Hconfig).
  - injection Hconfig as <-. vm_compute. reflexivity.
  - injection Hconfig as <-.
    repeat constructor; eexists; (split; [vm_compute; reflexivity|]); vm_compute;
      reflexivity.
Defined.

Lemma createClient_caches_witness :
  exists client w',
    createClient (EN := firstEndpointDownEnv) 10 (initialWorld 0) = (Ok client, w') /\
    client_rpcUrl client = "https://optimism.drpc.org" /\
    getClient (EN := firstEndpointDownEnv) 10 w' = (Ok client, w').
Proof.
  destruct (createClient (EN := firstEndpointDownEnv) 10 (initialWorld 0))
    as [[client|e|] w'] eqn:Hrun; try (vm_compute in Hrun; discriminate).
  exists client, w'. split; [reflexivity|]. split.
  - vm_compute in Hrun. injection Hrun as <- _. reflexivity.
  - apply (createClient_caches (EN := firstEndpointDownEnv) 10 (initialWorld 0) w' client
             Hrun).
Defined.

Lemma createClient_failure_witness :
  createClient (EN := steadyEnv) 77 (initialWorld 0)
  = (Throw (UnsupportedNetwork 77), initialWorld 0).
Proof.
  destruct (createClient (EN := steadyEnv) 77 (initialWorld 0)) as [[c|e|] w'] eqn:Hrun;
    try (vm_compute in Hrun; discriminate).
  destruct (createClient_failure (EN := steadyEnv) 77 (initialWorld 0) w' e Hrun)
    as [_ Hcase].
  change (getNetworkConfig 77) with (@None NetworkConfig) in Hcase.
  destruct Hcase as [-> ->]. reflexivity.
Defined.


(** ** Availability report (rpc-manager.ts) *)

Section Availability.
Context `{EN : Env}.

Lemma availabilityOf_outcome (config : NetworkConfig) (w : World) :
  exists row w',
    availabilityOf config w = (Ok row, w') /\
    avail_chainId row = cfg_chainId config /\
    avail_name row = cfg_name config /\
    (avail_isAvailable row = true <-> is_Some (avail_workingRPC row)) /\
    (forall url,
       avail_workingRPC row = Some url ->
       url <> EmptyString /\
       cachedVerdict w' url = Some true /\
       exists first,
         getNetworkConfig (cfg_chainId config) = Some first /\
         url ∈ cfg_rpcUrls first).
Proof.
  assert (forall w0,
            exists row w',
              (Ok {| avail_chainId := cfg_chainId config;
                     avail_name := cfg_name config;
                     avail_isAvailable := false;
                     avail_workingRPC := None |}, w0) = (Ok row, w') /\
              avail_chainId row = cfg_chainId config /\
              avail_name row = cfg_name config /\
              (avail_isAvailable row = true <-> is_Some (avail_workingRPC row)) /\
              (forall url,
                 avail_workingRPC row = Some url ->
                 url <> EmptyString /\
                 cachedVerdict w' url = Some true /\
                 exists first,
                   getNetworkConfig (cfg_chainId config) = Some first /\
                   url ∈ cfg_rpcUrls first)) as Hdown.
  { intros w0. eexists _, _. split; [reflexivity|]. simpl.
    split; [reflexivity|]. split; [reflexivity|]. split; [|discriminate].
    split; [discriminate|]. intros [x Hx]. discriminate. }
  unfold availabilityOf, try_catch. unfold bind at 1. unfold findWorkingRPC.
  destruct (getNetworkConfig (cfg_chainId config)) as [first|] eqn:Hfirst;
    [|apply Hdown].
  destruct (firstHealthy_outcome (cfg_rpcUrls first) w)
    as (found & w' & Hrun & _ & _ & _ & _ & Hfound).
  rewrite Hrun. destruct found as [url|]; [|apply Hdown].
  destruct (String.eqb_spec url "") as [Hempty|Hurl]; simpl; [apply Hdown|].
  eexists _, _. split; [reflexivity|]. simpl.
  split; [reflexivity|]. split; [reflexivity|]. split; [split; eauto|].
  intros url' [= <-]. split; [exact Hurl|]. split; [tauto|].
  exists first. tauto.
Qed.

(** [RPCManager.checkAllNetworks] always returns, with one row per table
    row, in table order, carrying that row's chain id and name.  A row is
    available exactly when it names a working endpoint.  The endpoint was
    looked up by chain id, so it is an endpoint of the first table row
    with that id: the row named Hyperliquid (id 999) reports an endpoint
    of HyperEVM's list. *)
Theorem checkNetworkAvailability_rows (w : World) :
  exists rows w',
    checkNetworkAvailability w = (Ok rows, w') /\
    avail_chainId <$> rows = getSupportedChainIds /\
    avail_name <$> rows = cfg_name <$> networkConfigs /\
    Forall (fun row =>
              (avail_isAvailable row = true <-> is_Some (avail_workingRPC row)) /\
              forall url,
                avail_workingRPC row = Some url ->
                exists first,
                  getNetworkConfig (avail_chainId row) = Some first /\
                  url ∈ cfg_rpcUrls first)
      rows /\
    Forall (fun row =>
              avail_name row = "Hyperliquid" ->
              forall url,
                avail_workingRPC row = Some url ->
                url ∈ ["https://rpc.hyperliquid.xyz/evm";
                       "https://rpc.hyperlend.finance";
                       "https://hyperliquid-json-rpc.stakely.io";
                       "https://hyperliquid.drpc.org"])
      rows.
Proof.
  unfold checkNetworkAvailability.
  destruct (Promise_all_total availabilityOf
              (fun config row =>
                 avail_chainId row = cfg_chainId config /\
                 avail_name row = cfg_name config /\
                 (avail_isAvailable row = true <-> is_Some (avail_workingRPC row)) /\
                 (forall url,
                    avail_workingRPC row = Some url ->
                    exists first,
                      getNetworkConfig (cfg_chainId config) = Some first /\
                      url ∈ cfg_rpcUrls first))
              networkConfigs w) as (rows & w' & Hrun & Hall).
  { intros config w0.
    destruct (availabilityOf_outcome config w0) as (row & w1 & Hrow & Hid & Hname & Hav & Hurl).
    exists row, w1. split; [exact Hrow|]. repeat split; try tauto.
    intros url Hsome. apply Hurl in Hsome. tauto. }
  exists rows, w'. split; [exact Hrun|].
  assert (Forall (fun config =>
                    cfg_name config = "Hyperliquid" -> cfg_chainId config = 999%Z)
            networkConfigs) as Hnames.
  { apply Forall_forall. intros config Hin.
    assert (forallb (fun c => negb (String.eqb (cfg_name c) "Hyperliquid")
                              || Z.eqb (cfg_chainId c) 999) networkConfigs = true)
      as Hb by (vm_compute; reflexivity).
    rewrite forallb_forall in Hb. apply list_elem_of_In in Hin.
    specialize (Hb config Hin). intros Hname. rewrite Hname in Hb.
    simpl in Hb. apply Z.eqb_eq, Hb. }
  unfold getSupportedChainIds. clear Hrun.
  induction Hall as [|config row configs rows (Hid & Hname & Hav & Hurl) Hall IH].
  - repeat split; constructor.
  - apply Forall_cons in Hnames as [Hthis Hnames].
    destruct (IH Hnames) as (IH1 & IH2 & IH3 & IH4).
    split; [|split; [|split]].
    + simpl. rewrite Hid. f_equal. exact IH1.
    + simpl. rewrite Hname. f_equal. exact IH2.
    + constructor; [|exact IH3]. split; [exact Hav|]. rewrite Hid. exact Hurl.
    + constructor; [|exact IH4]. intros Hhyper url Hsome.
      rewrite Hname in Hhyper. specialize (Hthis Hhyper).
      destruct (Hurl url Hsome) as (first & Hfirst & Hin).
      rewrite Hthis in Hfirst. vm_compute in Hfirst. injection Hfirst as <-.
      exact Hin.
Qed.

End Availability.

(** ** Token lists (token-list-manager.ts) *)

Section TokenLists.
Context `{EN : Env} `{BI : Builtins}.

Lemma getTokensForChain_memory_hit (chainId : Z) (w : World) (cached : CachedData) :
  memoryCache w !! ("tokens_" +:+ BigInt_toString chainId) = Some cached ->
  (now w - cached_timestamp cached < cached_ttl cached)%Z ->
  getTokensForChain chainId w = (Ok (cached_data cached), w).
Proof.
  intros Hcached Hvalid.
  unfold getTokensForChain, bind, gets, isCacheValid, bind, Date_now, gets, ret.
  rewrite Hcached. apply Z.ltb_lt in Hvalid. rewrite Hvalid. reflexivity.
Qed.

(** Where a token list comes from.  A list that [getTokensForChain]
    returns is the list of a memory-cache entry that has not expired (and
    then nothing changes); or, failing that, the list of a cache file that
    has not expired (no request is made, and the list enters the memory
    cache); or, failing both, what the catalog answers for the chain (the
    empty list when the answer has no entry for it). *)
Theorem getTokensForChain_sources (chainId : Z) (w w' : World)
    (tokens : list TokenInfo) :
  getTokensForChain chainId w = (Ok tokens, w') ->
  let key := "tokens_" +:+ BigInt_toString chainId in
  let memoryExpired :=
    forall cached,
      memoryCache w !! key = Some cached ->
      ~ (now w - cached_timestamp cached < cached_ttl cached)%Z in
  (exists cached,
     memoryCache w !! key = Some cached /\
     (now w - cached_timestamp cached < cached_ttl cached)%Z /\
     tokens = cached_data cached /\ w' = w) \/
  (memoryExpired /\
   exists file,
     files w !! getCacheFilePath chainId = Some file /\
     (now w - cached_timestamp file < cached_ttl file)%Z /\
     tokens = cached_data file /\
     trace w' = trace w /\
     memoryCache w' !! key
     = Some {| cached_data := tokens; cached_timestamp := now w;
               cached_ttl := CACHE_DURATION |}) \/
  (memoryExpired /\
   (forall file,
      files w !! getCacheFilePath chainId = Some file ->
      ~ (now w - cached_timestamp file < cached_ttl file)%Z) /\
   exists table,
     api_fetchTokens (externalCalls w) = Some table /\
     tokens = default [] (table !! BigInt_toString chainId) /\
     trace w' = trace w ++ [EvFetchTokens]).
Proof.
  intros Hrun key memoryExpired. subst key memoryExpired. revert Hrun.
  unfold getTokensForChain, bind, gets, isCacheValid, loadFromFileCache, bind,
    Date_now, gets, ret, modify, fetchFromAPI, bind, extern, saveToFileCache,
    bind, Date_now, gets, modify, fromOption, ret, throw.
  set (key := "tokens_" +:+ BigInt_toString chainId).
  assert (forall cached : CachedData,
            (cached_ttl cached <= now w - cached_timestamp cached)%Z ->
            forall c, Some cached = Some c ->
                      ~ (now w - cached_timestamp c < cached_ttl c)%Z) as Hstale
    by (intros cached Hle c [= <-]; lia).
  destruct (memoryCache w !! key) as [cached|] eqn:Hmem; simpl.
  - destruct (Z.ltb_spec (now w - cached_timestamp cached) (cached_ttl cached))
      as [Hvalid|Hexpired]; simpl.
    + intros [= <- <-]. left. eauto.
    + destruct (files w !! getCacheFilePath chainId) as [file|] eqn:Hfile; simpl.
      * destruct (Z.ltb_spec (now w - cached_timestamp file) (cached_ttl file))
          as [Hfvalid|Hfexpired]; simpl.
        -- intros [= <- <-]. right. left. split; [apply Hstale, Hexpired|].
           exists file. simpl. rewrite lookup_insert_eq. auto.
        -- destruct (api_fetchTokens (externalCalls w)) as [table|] eqn:Hfetch; simpl;
             [|discriminate].
           destruct (default [] (table !! BigInt_toString chainId)) as [|t ts] eqn:Hd;
             simpl; intros [= <- <-]; right; right;
             (split; [apply Hstale, Hexpired|]); (split; [apply Hstale, Hfexpired|]);
             exists table; auto.
      * destruct (api_fetchTokens (externalCalls w)) as [table|] eqn:Hfetch; simpl;
          [|discriminate].
        destruct (default [] (table !! BigInt_toString chainId)) as [|t ts] eqn:Hd;
          simpl; intros [= <- <-]; right; right;
          (split; [apply Hstale, Hexpired|]); (split; [discriminate|]);
          exists table; auto.
  - destruct (files w !! getCacheFilePath chainId) as [file|] eqn:Hfile; simpl.
    + destruct (Z.ltb_spec (now w - cached_timestamp file) (cached_ttl file))
        as [Hfvalid|Hfexpired]; simpl.
      * intros [= <- <-]. right. left. split; [discriminate|].
        exists file. simpl. rewrite lookup_insert_eq. auto.
      * destruct (api_fetchTokens (externalCalls w)) as [table|] eqn:Hfetch; simpl;
          [|discriminate].
        destruct (default [] (table !! BigInt_toString chainId)) as [|t ts] eqn:Hd;
          simpl; intros [= <- <-]; right; right;
          (split; [discriminate|]); (split; [apply Hstale, Hfexpired|]);
          exists table; auto.
    + destruct (api_fetchTokens (externalCalls w)) as [table|] eqn:Hfetch; simpl;
        [|discriminate].
      destruct (default [] (table !! BigInt_toString chainId)) as [|t ts] eqn:Hd;
        simpl; intros [= <- <-]; right; right;
        (split; [discriminate|]); (split; [discriminate|]);
        exists table; auto.
Qed.

Lemma getTokensForChain_never_diverges (chainId : Z) (w : World) :
  fst (getTokensForChain chainId w) <> Diverge.
Proof. apply never_diverges, Safe_getTokensForChain; auto. Qed.

(** A non-empty token list that [getTokensForChain] returns is in the
    memory cache afterwards, not yet expired, and asking again at once
    returns the same list with no request and no change. *)
Theorem getTokensForChain_repeat (chainId : Z) (w w' : World)
    (tokens : list TokenInfo) :
  getTokensForChain chainId w = (Ok tokens, w') ->
  tokens <> [] ->
  (exists cached,
     memoryCache w' !! ("tokens_" +:+ BigInt_toString chainId) = Some cached /\
     cached_data cached = tokens /\
     (now w' - cached_timestamp cached < cached_ttl cached)%Z) /\
  getTokensForChain chainId w' = (Ok tokens, w').
Proof.
  intros Hrun Hne.
  assert (exists cached,
            memoryCache w' !! ("tokens_" +:+ BigInt_toString chainId) = Some cached /\
            cached_data cached = tokens /\
            (now w' - cached_timestamp cached < cached_ttl cached)%Z) as Hcached.
  { revert Hrun.
    unfold getTokensForChain, bind, gets, isCacheValid, loadFromFileCache, bind,
      Date_now, gets, ret, modify, fetchFromAPI, bind, extern, saveToFileCache,
      bind, Date_now, gets, modify, fromOption, ret, throw.
    set (key := "tokens_" +:+ BigInt_toString chainId).
    assert (forall (w0 : World) (t : Z) (data : list TokenInfo),
              now w0 = t ->
              memoryCache w0 !! key
              = Some {| cached_data := data; cached_timestamp := t;
                        cached_ttl := CACHE_DURATION |} ->
              exists cached,
                memoryCache w0 !! key = Some cached /\
                cached_data cached = data /\
                (now w0 - cached_timestamp cached < cached_ttl cached)%Z) as Hnew.
    { intros w0 t data Hnow Hlook. eexists. split; [exact Hlook|]. simpl.
      split; [reflexivity|]. unfold CACHE_DURATION. lia. }
    destruct (memoryCache w !! key) as [cached|] eqn:Hmem; simpl.
    - destruct (Z.ltb_spec (now w - cached_timestamp cached) (cached_ttl cached))
        as [Hvalid|Hexpired]; simpl.
      + intros [= <- <-]. eauto.
      + destruct (files w !! getCacheFilePath chainId) as [file|] eqn:Hfile; simpl.
        * destruct (Z.ltb_spec (now w - cached_timestamp file) (cached_ttl file))
            as [Hfvalid|Hfexpired]; simpl.
          -- intros [= <- <-]. eapply Hnew; [reflexivity|]. simpl.
             apply lookup_insert_eq.
          -- destruct (api_fetchTokens (externalCalls w)) as [table|]; simpl;
               [|discriminate].
             destruct (default [] (table !! BigInt_toString chainId)) as [|t ts];
               simpl; intros [= <- <-]; [contradiction|].
             eapply Hnew; [reflexivity|]. simpl. apply lookup_insert_eq.
        * destruct (api_fetchTokens (externalCalls w)) as [table|]; simpl;
            [|discriminate].
          destruct (default [] (table !! BigInt_toString chainId)) as [|t ts];
            simpl; intros [= <- <-]; [contradiction|].
          eapply Hnew; [reflexivity|]. simpl. apply lookup_insert_eq.
    - destruct (files w !! getCacheFilePath chainId) as [file|] eqn:Hfile; simpl.
      + destruct (Z.ltb_spec (now w - cached_timestamp file) (cached_ttl file))
          as [Hfvalid|Hfexpired]; simpl.
        * intros [= <- <-]. eapply Hnew; [reflexivity|]. simpl.
          apply lookup_insert_eq.
        * destruct (api_fetchTokens (externalCalls w)) as [table|]; simpl;
            [|discriminate].
          destruct (default [] (table !! BigInt_toString chainId)) as [|t ts];
            simpl; intros [= <- <-]; [contradiction|].
          eapply Hnew; [reflexivity|]. simpl. apply lookup_insert_eq.
      + destruct (api_fetchTokens (externalCalls w)) as [table|]; simpl;
          [|discriminate].
        destruct (default [] (table !! BigInt_toString chainId)) as [|t ts];
          simpl; intros [= <- <-]; [contradiction|].
        eapply Hnew; [reflexivity|]. simpl. apply lookup_insert_eq. }
  split; [exact Hcached|].
  destruct Hcached as (cached & Hlook & <- & Hvalid).
  apply getTokensForChain_memory_hit; assumption.
Qed.

(** An empty answer is not cached.  When neither cache has an entry for
    the chain and the catalog answers with no token for it,
    [getTokensForChain] returns the empty list and writes to neither
    cache, so the next call asks the catalog again. *)
Theorem getTokensForChain_empty_not_cached (chainId : Z) (w : World)
    (table : gmap string (list TokenInfo)) :
  memoryCache w !! ("tokens_" +:+ BigInt_toString chainId) = None ->
  files w !! getCacheFilePath chainId = None ->
  api_fetchTokens (externalCalls w) = Some table ->
  default [] (table !! BigInt_toString chainId) = [] ->
  exists w',
    getTokensForChain chainId w = (Ok [], w') /\
    memoryCache w' = memoryCache w /\
    files w' = files w /\
    trace w' = trace w ++ [EvFetchTokens] /\
    trace (snd (getTokensForChain chainId w'))
    = trace w ++ [EvFetchTokens; EvFetchTokens].
Proof.
  intros Hmem Hfile Hfetch Hempty.
  assert (forall w0 : World,
            memoryCache w0 !! ("tokens_" +:+ BigInt_toString chainId) = None ->
            files w0 !! getCacheFilePath chainId = None ->
            trace (snd (getTokensForChain chainId w0)) = trace w0 ++ [EvFetchTokens] /\
            (api_fetchTokens (externalCalls w0) = Some table ->
             getTokensForChain chainId w0
             = (Ok [], tick (act EvFetchTokens (elapsed (externalCalls w0)) w0))))
    as Hmiss.
  { intros w0 Hm Hf.
    unfold getTokensForChain, bind, gets, isCacheValid, loadFromFileCache, bind,
      Date_now, gets, ret, modify, fetchFromAPI, bind, extern, saveToFileCache,
      bind, Date_now, gets, modify, fromOption, ret, throw.
    rewrite Hm. simpl. rewrite Hf. simpl. split.
    - destruct (api_fetchTokens (externalCalls w0)) as [table0|]; simpl;
        [|reflexivity].
      destruct (default [] (table0 !! BigInt_toString chainId)); reflexivity.
    - intros ->. simpl. rewrite Hempty. reflexivity. }
  destruct (Hmiss w Hmem Hfile) as [_ Hrun]. specialize (Hrun Hfetch).
  eexists. split; [exact Hrun|]. simpl. repeat split.
  destruct (Hmiss (tick (act EvFetchTokens (elapsed (externalCalls w)) w)))
    as [Htrace _]; [exact Hmem|exact Hfile|].
  rewrite Htrace. simpl. rewrite <- app_assoc. reflexivity.
Qed.


(** [findTokenByAddress] compares addresses through [toLowerCase]: the
    token it returns is the first of the chain's list, in list order,
    whose lower-cased address is the lower-cased query; it returns none
    only when no token of the list matches; and two queries with the same
    lower-cased form get the same answer. *)
Theorem findTokenByAddress_first_match (chainId : Z) (address : string) (w : World) :
  (forall found w',
     findTokenByAddress chainId address w = (Ok found, w') ->
     exists tokens,
       getTokensForChain chainId w = (Ok tokens, w') /\
       match found with
       | Some token =>
           exists i,
             tokens !! i = Some token /\
             String_toLowerCase (tok_address token) = String_toLowerCase address /\
             forall j earlier,
               j < i -> tokens !! j = Some earlier ->
               String_toLowerCase (tok_address earlier)
               <> String_toLowerCase address
       | None =>
           forall token,
             token ∈ tokens ->
             String_toLowerCase (tok_address token) <> String_toLowerCase address
       end) /\
  (forall other,
     String_toLowerCase other = String_toLowerCase address ->
     findTokenByAddress chainId other w = findTokenByAddress chainId address w).
Proof.
  split.
  - intros found w'. unfold findTokenByAddress, bind.
    destruct (getTokensForChain chainId w) as [[tokens|e|] w1]; try discriminate.
    intros [= <- <-]. exists tokens. split; [reflexivity|].
    destruct (find _ tokens) as [token|] eqn:Hfind.
    + destruct (find_first_match _ _ _ Hfind) as (i & Hi & Hmatch & Hbefore).
      exists i. split; [exact Hi|]. split; [apply String.eqb_eq, Hmatch|].
      intros j earlier Hj Hlook. apply String.eqb_neq. eapply Hbefore; eauto.
    + intros token Hin. apply String.eqb_neq.
      apply list_elem_of_In in Hin. eapply find_none in Hfind; eauto.
  - intros other Hsame. unfold findTokenByAddress. rewrite Hsame. reflexivity.
Qed.

End TokenLists.

(** ** Decoding a batch, continued (multicall3-service.ts) *)

Section Pairing.
Context `{FL : Float64}.

Lemma balanceResultAt_inv (decode : string -> option Z)
    (tokens : list TokenInfo) (results : list MulticallResult) (i : nat)
    (record : BalanceResult) :
  record ∈ balanceResultAt decode tokens results i ->
  exists token result usdValue,
    tokens !! i = Some token /\
    results !! i = Some result /\
    res_success result = true /\
    decode (res_returnData result) = Some (bal_balance record) /\
    formatTokenBalance (bal_balance record) (tok_decimals token)
    = Some (bal_balanceFormatted record) /\
    calculateUSDValue (bal_balance record) (tok_decimals token) (tok_priceUSD token)
    = Some usdValue /\
    record = {| bal_address := tok_address token;
                bal_symbol := tok_symbol token;
                bal_name := tok_name token;
                bal_balance := bal_balance record;
                bal_balanceFormatted := bal_balanceFormatted record;
                bal_decimals := tok_decimals token;
                bal_usdValue := usdValue;
                bal_priceUSD := tok_priceUSD token |}.
Proof.
  unfold balanceResultAt.
  destruct (tokens !! i) as [token|]; [|intros H; inversion H].
  destruct (results !! i) as [result|]; [|intros H; inversion H].
  destruct (res_success result) eqn:Hok; [|intros H; inversion H].
  destruct (decode (res_returnData result)) as [balance|] eqn:Hdecode; simpl;
    [|intros H; inversion H].
  destruct (formatTokenBalance balance (tok_decimals token)) as [formatted|] eqn:Hfmt;
    simpl; [|intros H; inversion H].
  destruct (calculateUSDValue balance (tok_decimals token) (tok_priceUSD token))
    as [usd|] eqn:Husd; simpl; [|intros H; inversion H].
  intros Hin. apply list_elem_of_singleton in Hin. subst record. simpl.
  exists token, result, usd. repeat split; auto.
Qed.

Lemma calculateUSDValue_defined (balance decimals : Z) (priceUSD formatted : string) :
  formatTokenBalance balance decimals = Some formatted ->
  is_Some (calculateUSDValue balance decimals priceUSD).
Proof.
  intros Hfmt. unfold calculateUSDValue. rewrite Hfmt. simpl.
  destruct (f64_isNaN _ || f64_le_zero _); eauto.
Qed.

Lemma pushed_addresses_in_order (decode : string -> option Z)
    (tokens : list TokenInfo) (results : list MulticallResult) :
  bal_address <$>
    flat_map (balanceResultAt decode tokens results) (seq 0 (length tokens))
  `sublist_of` tok_address <$> tokens.
Proof.
  revert results. induction tokens as [|token tokens IH]; intros results.
  - constructor.
  - destruct results as [|result results].
    + rewrite flat_map_all_nil by (intros; apply balanceResultAt_no_results).
      apply sublist_nil_l.
    + cbn [length seq flat_map]. rewrite <- seq_shift, flat_map_concat_map,
        map_map, <- flat_map_concat_map.
      rewrite (flat_map_ext _ (balanceResultAt decode tokens results))
        by (intros; apply balanceResultAt_shift).
      rewrite fmap_app, fmap_cons.
      pose proof (balanceResultAt_length decode (token :: tokens) (result :: results) 0)
        as Hlen.
      destruct (balanceResultAt decode (token :: tokens) (result :: results) 0)
        as [|record [|extra more]] eqn:Hfirst.
      * simpl. apply sublist_cons, IH.
      * assert (record ∈ balanceResultAt decode (token :: tokens) (result :: results) 0)
          as Hin by (rewrite Hfirst; left).
        apply balanceResultAt_inv in Hin as (t & r & usd & Ht & _ & _ & _ & _ & _ & ->).
        injection Ht as <-. simpl. apply sublist_skip, IH.
      * simpl in Hlen. destruct (res_success result); simpl in Hlen; lia.
Qed.

(** Call results are matched to tokens by position.  Every record that
    [executeMulticallWithRPC] makes from a response stands for one index
    [i]: it carries the address, symbol, name, precision and price of
    token [i], and its balance is the decoded payload of result [i], which
    reported success.  The records keep the order of the tokens.  And no
    holding is lost: a token whose result reports success and decodes to a
    balance above zero that can be formatted has its record. *)
Theorem collectBalanceResults_by_position (decode : string -> option Z)
    (tokens : list TokenInfo) (results : list MulticallResult) :
  (forall record,
     record ∈ collectBalanceResults decode tokens results ->
     exists i token result,
       tokens !! i = Some token /\
       results !! i = Some result /\
       res_success result = true /\
       decode (res_returnData result) = Some (bal_balance record) /\
       bal_address record = tok_address token /\
       bal_symbol record = tok_symbol token /\
       bal_name record = tok_name token /\
       bal_decimals record = tok_decimals token /\
       bal_priceUSD record = tok_priceUSD token /\
       formatTokenBalance (bal_balance record) (tok_decimals token)
       = Some (bal_balanceFormatted record)) /\
  bal_address <$> collectBalanceResults decode tokens results
  `sublist_of` tok_address <$> tokens /\
  (forall i token result balance formatted,
     tokens !! i = Some token ->
     results !! i = Some result ->
     res_success result = true ->
     decode (res_returnData result) = Some balance ->
     (0 < balance)%Z ->
     formatTokenBalance balance (tok_decimals token) = Some formatted ->
     exists record,
       record ∈ collectBalanceResults decode tokens results /\
       bal_address record = tok_address token /\
       bal_balance record = balance /\
       bal_balanceFormatted record = formatted).
Proof.
  unfold collectBalanceResults. split; [|split].
  - intros record Hin. apply list_elem_of_filter in Hin as [_ Hin].
    apply list_elem_of_In, in_flat_map in Hin as (i & _ & Hin).
    apply list_elem_of_In in Hin.
    apply balanceResultAt_inv in Hin
      as (token & result & usd & Ht & Hr & Hok & Hdec & Hfmt & _ & Hrec).
    exists i, token, result. rewrite Hrec. simpl. repeat split; auto.
  - etransitivity; [|apply pushed_addresses_in_order].
    apply fmap_sublist, sublist_filter.
  - intros i token result balance formatted Ht Hr Hok Hdec Hpos Hfmt.
    destruct (calculateUSDValue_defined balance (tok_decimals token)
                (tok_priceUSD token) formatted Hfmt) as [usd Husd].
    eexists. split.
    + apply list_elem_of_filter. split; [|].
      2:{ apply list_elem_of_In, in_flat_map. exists i. split.
          - apply in_seq. apply lookup_lt_Some in Ht. lia.
          - unfold balanceResultAt. rewrite Ht, Hr, Hok, Hdec. simpl.
            rewrite Hfmt. simpl. rewrite Husd. simpl. left. reflexivity. }
      simpl. exact Hpos.
    + simpl. auto.
Qed.

End Pairing.

Lemma collectBalanceResults_by_position_witness :
  exists record,
    record ∈ collectBalanceResults (FL := termFloat) (fun _ => Some 1500000%Z)
               [usdc] [{| res_success := true; res_returnData := "0x16e360" |}] /\
    bal_address record = tok_address usdc /\
    bal_balance record = 1500000%Z /\
    bal_balanceFormatted record = "1.5".
Proof.
  destruct (collectBalanceResults_by_position (FL := termFloat)
              (fun _ => Some 1500000%Z) [usdc]
              [{| res_success := true; res_returnData := "0x16e360" |}])
    as (_ & _ & Hcomplete).
  apply (Hcomplete 0 usdc {| res_success := true; res_returnData := "0x16e360" |});
    try reflexivity.
Defined.

(** ** Formatting, continued *)

Lemma lastChar_app_String (s : string) (c : ascii) (t : string) :
  lastChar (s +:+ String c t) = lastChar (String c t).
Proof.
  induction s as [|a s IH]; [reflexivity|].
  change (String a s +:+ String c t) with (String a (s +:+ String c t)).
  cbn [lastChar]. rewrite IH.
  destruct (s +:+ String c t) eqn:Happ; [|reflexivity].
  destruct s; discriminate.
Qed.

Lemma stripTrailingZeros_last (s : string) :
  lastChar (stripTrailingZeros s) <> Some "0"%char.
Proof.
  induction s as [|c s IH]; simpl; [discriminate|].
  destruct (Ascii.eqb_spec c "0") as [->|Hc]; simpl.
  - destruct (String.eqb_spec (stripTrailingZeros s) "") as [Hempty|Hne];
      [discriminate|].
    cbn [lastChar]. destruct (stripTrailingZeros s); [contradiction|exact IH].
  - cbn [lastChar]. destruct (stripTrailingZeros s); [congruence|exact IH].
Qed.

Lemma stripTrailingZeros_chars (c : ascii) (s : string) :
  hasChar c (stripTrailingZeros s) = true -> hasChar c s = true.
Proof.
  induction s as [|a s IH]; simpl; [auto|].
  destruct (Ascii.eqb a "0" && String.eqb (stripTrailingZeros s) ""); simpl.
  - discriminate.
  - intros H. apply orb_true_iff in H as [H|H]; [rewrite H; reflexivity|].
    rewrite (IH H). apply orb_true_r.
Qed.

Lemma lastChar_hasChar (c : ascii) (s : string) :
  lastChar s = Some c -> hasChar c s = true.
Proof.
  induction s as [|a s IH]; [discriminate|].
  cbn [lastChar hasChar]. destruct s as [|b s].
  - intros [= ->]. rewrite Ascii.eqb_refl. reflexivity.
  - intros H. rewrite (IH H). apply orb_true_r.
Qed.

Section TrailingZeros.
Context `{FL : Float64}.

(** A formatted balance with a decimal point never ends in a zero or in
    the point: the fractional part is trimmed, and dropped when nothing
    is left of it. *)
Theorem formatTokenBalance_trimmed (balance decimals : Z) (formatted : string) :
  formatTokenBalance balance decimals = Some formatted ->
  hasChar "." formatted = true ->
  lastChar formatted <> Some "0"%char /\ lastChar formatted <> Some "."%char.
Proof.
  unfold formatTokenBalance.
  destruct (BigInt_pow10 decimals) as [divisor|]; simpl; [|discriminate].
  destruct (divisor =? 0)%Z; [discriminate|].
  destruct (Z.rem balance divisor =? 0)%Z.
  { intros [= <-]. rewrite BigInt_toString_no_dot. discriminate. }
  set (fractionalStr := padStart (BigInt_toString (Z.rem balance divisor)) decimals "0").
  destruct (String.eqb_spec (stripTrailingZeros fractionalStr) "") as [Hempty|Hne].
  { intros [= <-]. rewrite BigInt_toString_no_dot. discriminate. }
  intros [= <-] _.
  pose proof (stripTrailingZeros_last fractionalStr) as Hlast.
  destruct (stripTrailingZeros fractionalStr) as [|c t] eqn:Hstrip; [contradiction|].
  change (BigInt_toString (Z.quot balance divisor) +:+ "." +:+ String c t)
    with (BigInt_toString (Z.quot balance divisor) +:+ String "." (String c t)).
  rewrite lastChar_app_String.
  change (lastChar (String "." (String c t))) with (lastChar (String c t)).
  split; [exact Hlast|].
  intros Hdot.
  assert (hasChar "." fractionalStr = true) as Habs.
  { apply (stripTrailingZeros_chars "." fractionalStr). rewrite Hstrip.
    apply lastChar_hasChar, Hdot. }
  unfold fractionalStr, padStart in Habs. rewrite hasChar_app in Habs.
  rewrite BigInt_toString_no_dot, orb_false_r in Habs.
  clear -Habs. induction (Z.to_nat decimals - _) as [|n IH]; simpl in Habs;
    [discriminate|auto].
Qed.

End TrailingZeros.

Lemma formatTokenBalance_trimmed_witness :
  lastChar "1.5" <> Some "0"%char /\ lastChar "1.5" <> Some "."%char.
Proof.
  apply (formatTokenBalance_trimmed (FL := termFloat) 1500000 6 "1.5");
    reflexivity.
Defined.

(** ** The effects of the batch path (multicall3-service.ts) *)

Lemma aggregateCalls_app (evs1 evs2 : list Event) :
  aggregateCalls (evs1 ++ evs2) = aggregateCalls evs1 + aggregateCalls evs2.
Proof.
  induction evs1 as [|ev evs1 IH]; [reflexivity|].
  destruct ev; simpl; rewrite IH; reflexivity.
Qed.

Lemma batchEffect_refl (w : World) : batchEffect 0 w w.
Proof.
  repeat split. exists []. rewrite app_nil_r. repeat split; [constructor|simpl; lia].
Qed.

Lemma batchEffect_trans (k1 k2 : nat) (w w1 w2 : World) :
  batchEffect k1 w w1 -> batchEffect k2 w1 w2 -> batchEffect (k1 + k2) w w2.
Proof.
  intros (Hc1 & Hh1 & Hm1 & Hf1 & evs1 & Ht1 & Hall1 & Hn1)
         (Hc2 & Hh2 & Hm2 & Hf2 & evs2 & Ht2 & Hall2 & Hn2).
  repeat split; try congruence.
  exists (evs1 ++ evs2). repeat split.
  - rewrite Ht2, Ht1, app_assoc. reflexivity.
  - apply Forall_app; auto.
  - rewrite aggregateCalls_app. lia.
Qed.

Lemma batchEffect_mono (k k' : nat) (w w' : World) :
  k <= k' -> batchEffect k w w' -> batchEffect k' w w'.
Proof.
  intros Hle (Hc & Hh & Hm & Hf & evs & Ht & Hall & Hn).
  repeat split; auto. exists evs. repeat split; auto. lia.
Qed.

Lemma batchEffect_act (ev : Event) (ms : Z) (w : World) :
  batchEvent ev -> batchEffect (aggregateCalls [ev]) w (act ev ms w).
Proof.
  intros Hev. repeat split. exists [ev]. repeat split; auto.
Qed.

Lemma Within_mono {A : Type} (k k' : nat) (Q Q' : Outcome A -> Prop) (m : M A) :
  k <= k' -> (forall o, Q o -> Q' o) -> Within k Q m -> Within k' Q' m.
Proof.
  intros Hle HQ Hm w. destruct (Hm w) as [Ho He].
  split; [auto|eapply batchEffect_mono; eauto].
Qed.

Lemma Within_ret {A : Type} (Q : Outcome A -> Prop) (a : A) :
  Q (Ok a) -> Within 0 Q (ret a).
Proof. intros HQ w. split; [exact HQ|apply batchEffect_refl]. Qed.

Lemma Within_throw {A : Type} (Q : Outcome A -> Prop) (e : Error) :
  Q (Throw e) -> Within 0 Q (throw e).
Proof. intros HQ w. split; [exact HQ|apply batchEffect_refl]. Qed.

Lemma Within_bind {A B : Type} (k1 k2 : nat) (P : A -> Prop)
    (Q : Outcome B -> Prop) (m : M A) (f : A -> M B) :
  Within k1 (halts P) m ->
  (forall a, P a -> Within k2 Q (f a)) ->
  (forall e, Q (Throw e)) ->
  Within (k1 + k2) Q (bind m f).
Proof.
  intros Hm Hf Hthrow w. unfold bind.
  destruct (Hm w) as [Ho He]. destruct (m w) as [[a|e|] w1]; simpl in *.
  - destruct (Hf a Ho w1) as [Ho2 He2].
    split; [exact Ho2|eapply batchEffect_trans; eauto].
  - split; [apply Hthrow|]. eapply batchEffect_mono; [|exact He]. lia.
  - contradiction.
Qed.

Lemma Within_try_catch {A : Type} (k1 k2 : nat) (P : A -> Prop)
    (Q : Outcome A -> Prop) (m : M A) (handler : Error -> M A) :
  Within k1 (halts P) m ->
  (forall e, Within k2 Q (handler e)) ->
  (forall a, P a -> Q (Ok a)) ->
  Within (k1 + k2) Q (try_catch m handler).
Proof.
  intros Hm Hh Hok w. unfold try_catch.
  destruct (Hm w) as [Ho He]. destruct (m w) as [[a|e|] w1]; simpl in *.
  - split; [auto|]. eapply batchEffect_mono; [|exact He]. lia.
  - destruct (Hh e w1) as [Ho2 He2].
    split; [exact Ho2|eapply batchEffect_trans; eauto].
  - contradiction.
Qed.

Lemma Within_bind_returns {A B : Type} (k1 k2 : nat) (P : A -> Prop)
    (Q : Outcome B -> Prop) (m : M A) (f : A -> M B) :
  Within k1 (returns P) m ->
  (forall a, P a -> Within k2 Q (f a)) ->
  Within (k1 + k2) Q (bind m f).
Proof.
  intros Hm Hf w. unfold bind.
  destruct (Hm w) as [Ho He]. destruct (m w) as [[a|e|] w1]; simpl in *;
    try contradiction.
  destruct (Hf a Ho w1) as [Ho2 He2].
  split; [exact Ho2|eapply batchEffect_trans; eauto].
Qed.

Lemma Within_Promise_all {A B : Type} (g : A -> nat) (P : B -> Prop)
    (f : A -> M B) (xs : list A) :
  (forall x, Within (g x) (returns P) (f x)) ->
  Within (sum_list_with g xs) (returns (Forall P)) (Promise_all f xs).
Proof.
  intros Hf. induction xs as [|x xs IH]; simpl.
  - apply Within_ret. constructor.
  - apply (Within_bind_returns _ _ P); [apply Hf|].
    intros y Hy. rewrite <- (Nat.add_0_r (sum_list_with g xs)).
    apply (Within_bind_returns _ _ (Forall P)); [exact IH|].
    intros ys Hys. apply Within_ret. constructor; assumption.
Qed.

Lemma Within_loopResult {A : Type} (Q : Outcome A -> Prop) (a : A) :
  Q (Ok a) -> Within 0 Q (loopResult (Some a)).
Proof. intros HQ w. split; [exact HQ|apply batchEffect_refl]. Qed.

Lemma createBatches_count {A : Type} (tokens : list A) (batchSize : nat) :
  0 < batchSize ->
  exists batches,
    createBatches tokens batchSize = Some batches /\
    length batches = (length tokens + batchSize - 1) / batchSize /\
    concat batches = tokens.
Proof.
  intros Hpos.
  destruct (createBatches_covers tokens batchSize Hpos) as (batches & Hrun & Hcat & _).
  exists batches. split; [exact Hrun|]. split; [|exact Hcat].
  unfold createBatches in Hrun.
  pose proof (createBatches_loop_shape (length tokens) tokens batchSize 0 [] Hpos)
    as Hshape.
  simpl in Hshape. rewrite !Nat.sub_0_r in Hshape. rewrite Hshape in Hrun by lia.
  injection Hrun as <-. rewrite length_fmap, length_seq. reflexivity.
Qed.

Lemma sum_list_with_const {A : Type} (c : nat) (xs : list A) :
  sum_list_with (fun _ => c) xs = c * length xs.
Proof. induction xs as [|x xs IH]; simpl; lia. Qed.

Lemma sum_list_with_lengths {A : Type} (c : nat) (xss : list (list A)) :
  sum_list_with (fun xs => c * length xs) xss = c * length (concat xss).
Proof.
  induction xss as [|xs xss IH]; simpl; [lia|]. rewrite length_app. lia.
Qed.

Lemma Forall_concat_concat {A : Type} (P : A -> Prop) (xsss : list (list (list A))) :
  Forall (Forall (Forall P)) xsss -> Forall P (concat (concat xsss)).
Proof.
  intros H. apply Forall_concat. apply Forall_concat. exact H.
Qed.

Section BatchPath.
Context `{FL : Float64} `{EN : Env}.

Lemma collectBalanceResults_positive (decode : string -> option Z)
    (tokens : list TokenInfo) (results : list MulticallResult) :
  positiveRecords (collectBalanceResults decode tokens results).
Proof.
  unfold positiveRecords, collectBalanceResults. apply Forall_forall.
  intros record Hin. apply list_elem_of_filter in Hin as [Hpos _]. exact Hpos.
Qed.

Lemma Within_executeMulticallWithRPC (chainId : Z) (walletAddress : string)
    (tokens : list TokenInfo) (rpcUrl : string) :
  rpcUrl <> "" ->
  Within 1 (halts positiveRecords)
    (executeMulticallWithRPC chainId walletAddress tokens rpcUrl).
Proof.
  intros Hurl. unfold executeMulticallWithRPC.
  apply (Within_bind 0 1 (fun _ => True)); [| |simpl; auto].
  { destruct (mapM _ tokens); simpl; [apply Within_ret|apply Within_throw]; simpl; auto. }
  intros calls _. rewrite <- (Nat.add_0_r 1).
  apply (Within_bind 1 0 (fun _ => True)); [| |simpl; auto].
  2:{ intros results _. apply Within_ret. simpl. apply collectBalanceResults_positive. }
  unfold executeMulticall.
  destruct (String.eqb_spec rpcUrl "") as [|_]; [contradiction|].
  unfold getClientWithRPC.
  destruct (getNetworkConfig chainId) as [networkConfig|] eqn:Hcfg.
  2:{ intros w. unfold bind, throw. simpl. split; [exact Logic.I|].
      eapply batchEffect_mono; [|apply batchEffect_refl]. lia. }
  intros w. unfold bind, ret, try_catch, extern, fromOption, throw. simpl.
  destruct (rpc_aggregate3 _ _ _ _); simpl.
  - split; [exact Logic.I|]. repeat split. eexists [_]. simpl.
    repeat split; [repeat constructor|lia].
  - split; [exact Logic.I|]. repeat split. eexists [_]. simpl.
    repeat split; [repeat constructor|lia].
Qed.

Lemma Within_rotationLoop (remaining attempt maxAttempts : nat) (chainId : Z)
    (walletAddress : string) (tokens : list TokenInfo) (rpcUrls : list string) :
  Within remaining (halts positiveRecords)
    (rotationLoop remaining attempt maxAttempts chainId walletAddress tokens
       rpcUrls).
Proof.
  revert attempt. induction remaining as [|remaining IH]; intros attempt;
    cbn [rotationLoop].
  - apply Within_throw. exact Logic.I.
  - assert (Within (S remaining) (halts positiveRecords)
              (rotationLoop remaining (S attempt) maxAttempts chainId walletAddress
                 tokens rpcUrls)) as Hnext.
    { eapply Within_mono; [|intros o Ho; exact Ho|apply IH]. lia. }
    destruct (indexMod rpcUrls (attempt - 1)) as [currentRpc|]; [|exact Hnext].
    destruct (String.eqb_spec currentRpc "") as [|Hurl]; [exact Hnext|].
    change (S remaining) with (1 + remaining).
    apply (Within_bind 1 remaining
             (fun returned => from_option positiveRecords True returned));
      [| |simpl; auto].
    + change 1 with (1 + 0) at 1.
      apply (Within_try_catch 1 0
               (fun returned => from_option positiveRecords True returned)).
      * change 1 with (0 + 1) at 1.
        apply (Within_bind 0 1 (fun _ => True)); [| |simpl; auto].
        { intros w. simpl. split; [exact Logic.I|].
          apply (batchEffect_act (EvAttempt attempt currentRpc)). exact Logic.I. }
        intros _ _. rewrite <- (Nat.add_0_r 1).
        apply (Within_bind 1 0 positiveRecords); [| |simpl; auto].
        { apply Within_executeMulticallWithRPC, Hurl. }
        intros records Hrecords. apply Within_ret. exact Hrecords.
      * intros e. change 0 with (0 + 0) at 1.
        apply (Within_bind 0 0 (fun _ => True)); [| |simpl; auto].
        { destruct (attempt <? maxAttempts).
          - intros w. simpl. split; [exact Logic.I|].
            apply (batchEffect_act (EvDelay 500)). exact Logic.I.
          - apply Within_ret. exact Logic.I. }
        intros _ _. apply Within_ret. exact Logic.I.
      * intros returned Hreturned. exact Hreturned.
    + intros [records|] Hreturned.
      * eapply Within_mono; [|intros o Ho; exact Ho|apply Within_ret, Hreturned]. lia.
      * apply IH.
Qed.

Lemma Within_batch (chainId : Z) (walletAddress : string)
    (rpcUrls : list string) (batch : list TokenInfo) :
  Within 3 (returns positiveRecords)
    (try_catch
       (checkSingleBatchWithRPCRotation chainId walletAddress batch rpcUrls 3)
       (fun _ => ret [])).
Proof.
  change 3 with (3 + 0) at 1.
  apply (Within_try_catch 3 0 positiveRecords).
  - apply Within_rotationLoop.
  - intros e. apply Within_ret. constructor.
  - intros records Hrecords. exact Hrecords.
Qed.

Lemma Within_checkTokenBalancesBatched (chainId : Z) (walletAddress : string)
    (tokens : list TokenInfo) :
  Within
    (3 * ((length tokens + chooseBatchSize (length tokens) - 1)
          / chooseBatchSize (length tokens)))
    (returns positiveRecords)
    (checkTokenBalancesBatched chainId walletAddress tokens).
Proof.
  unfold checkTokenBalancesBatched.
  destruct tokens as [|token tokens].
  { eapply Within_mono; [|intros o Ho; exact Ho|apply Within_ret; constructor]. lia. }
  destruct (createBatches_count (token :: tokens)
              (chooseBatchSize (length (token :: tokens))))
    as (batches & -> & <- & _); [apply chooseBatchSize_pos|].
  apply (Within_mono (0 + (0 + (3 * length batches + 0))) _ (returns positiveRecords));
    [lia|auto|].
  apply (Within_bind_returns 0 _ (eq batches));
    [apply Within_loopResult; reflexivity|].
  intros ? <-.
  destruct (createBatches_count batches MAX_CONCURRENT_BATCHES)
    as (batchGroups & -> & _ & Hgroups); [unfold MAX_CONCURRENT_BATCHES; lia|].
  apply (Within_bind_returns 0 _ (eq batchGroups));
    [apply Within_loopResult; reflexivity|].
  intros ? <-.
  apply (Within_bind_returns _ 0 (Forall (Forall positiveRecords))).
  - rewrite <- Hgroups, <- sum_list_with_lengths.
    apply Within_Promise_all. intros batchGroup.
    rewrite <- sum_list_with_const.
    apply Within_Promise_all. intros batch. apply Within_batch.
  - intros groupResults Hall. apply Within_ret. simpl.
    apply Forall_concat_concat, Hall.
Qed.

Lemma Within_checkTokenBalances (chainId : Z) (walletAddress : string)
    (tokens : list TokenInfo) :
  Within
    (3 * ((length tokens + chooseBatchSize (length tokens) - 1)
          / chooseBatchSize (length tokens)))
    (returns positiveRecords)
    (checkTokenBalances chainId walletAddress tokens).
Proof.
  unfold checkTokenBalances. destruct tokens as [|token tokens].
  - eapply Within_mono; [|intros o Ho; exact Ho|apply Within_ret; constructor]. lia.
  - apply Within_checkTokenBalancesBatched.
Qed.

(** Checking token balances touches nothing but the nodes.  From any world
    and for any answers of the network, [checkTokenBalances] returns (it
    neither throws nor runs forever), every record it returns has a raw
    balance above zero, all it adds to the history are attempts, aggregate
    calls and delays, with at most three aggregate calls for each batch
    (and so none for an empty token list), and the client cache, the
    health cache and the token-list caches are as they were: this path
    probes no endpoint and never uses or stores a cached client. *)
Theorem checkTokenBalances_effects (chainId : Z) (walletAddress : string)
    (tokens : list TokenInfo) (w : World) :
  let batchSize := chooseBatchSize (length tokens) in
  let run := checkTokenBalances chainId walletAddress tokens w in
  (exists records, fst run = Ok records /\ positiveRecords records) /\
  clientCache (snd run) = clientCache w /\
  healthCache (snd run) = healthCache w /\
  memoryCache (snd run) = memoryCache w /\
  files (snd run) = files w /\
  exists evs,
    trace (snd run) = trace w ++ evs /\
    Forall batchEvent evs /\
    aggregateCalls evs <= 3 * ((length tokens + batchSize - 1) / batchSize).
Proof.
  intros batchSize run.
  destruct (Within_checkTokenBalances chainId walletAddress tokens w)
    as [Hout Heffect].
  fold run in Hout, Heffect. split; [|exact Heffect].
  destruct (fst run) as [records| |]; simpl in Hout; try contradiction.
  exists records. split; [reflexivity|exact Hout].
Qed.

Lemma Within_checkBatchTokenBalances_from (chainId : Z) (walletAddress : string)
    (tokenBatches : list (list TokenInfo)) (allResults : list BalanceResult) :
  positiveRecords allResults ->
  Within
    (sum_list_with
       (fun batch =>
          3 * ((length batch + chooseBatchSize (length batch) - 1)
               / chooseBatchSize (length batch)))
       tokenBatches)
    (returns positiveRecords)
    (checkBatchTokenBalances_from chainId walletAddress tokenBatches allResults).
Proof.
  revert allResults.
  induction tokenBatches as [|batch rest IH]; intros allResults Hall;
    cbn [checkBatchTokenBalances_from sum_list_with].
  - apply Within_ret. exact Hall.
  - apply (Within_bind_returns _ _ positiveRecords); [|intros pushed; apply IH].
    rewrite <- (Nat.add_0_r (3 * _)).
    apply (Within_try_catch _ 0 positiveRecords).
    + rewrite <- (Nat.add_0_r (3 * _)).
      apply (Within_bind_returns _ 0 positiveRecords).
      * apply Within_checkTokenBalances.
      * intros batchResults Hbatch. apply Within_ret. simpl.
        apply Forall_app. split; assumption.
    + intros e. apply Within_ret. exact Hall.
    + intros records Hrecords. exact Hrecords.
Qed.

(** [checkBatchTokenBalances] returns for any list of batches: no batch
    makes it throw or run forever.  Every record has a raw balance above
    zero, and the caches are as they were. *)
Theorem checkBatchTokenBalances_effects (chainId : Z) (walletAddress : string)
    (tokenBatches : list (list TokenInfo)) (w : World) :
  let run := checkBatchTokenBalances chainId walletAddress tokenBatches w in
  (exists records, fst run = Ok records /\ positiveRecords records) /\
  clientCache (snd run) = clientCache w /\
  healthCache (snd run) = healthCache w /\
  memoryCache (snd run) = memoryCache w /\
  files (snd run) = files w.
Proof.
  intros run.
  destruct (Within_checkBatchTokenBalances_from chainId walletAddress tokenBatches []
              (Forall_nil_2 _) w)
    as [Hout (Hc & Hh & Hm & Hf & _)].
  fold (checkBatchTokenBalances chainId walletAddress tokenBatches) in Hout, Hc, Hh, Hm, Hf.
  fold run in Hout, Hc, Hh, Hm, Hf.
  split; [|auto].
  destruct (fst run) as [records| |]; simpl in Hout; try contradiction.
  exists records. split; [reflexivity|exact Hout].
Qed.

End BatchPath.

(** ** Errors of a network query (balance-checker.ts) *)

Lemma Raises_mono {A : Type} (E E' : Error -> Prop) (m : M A) :
  (forall e, E e -> E' e) -> Raises E m -> Raises E' m.
Proof. intros HE Hm w e w' Hrun. eapply HE, Hm, Hrun. Qed.

Lemma Raises_bind {A B : Type} (E : Error -> Prop) (m : M A) (f : A -> M B) :
  Raises E m -> (forall a, Raises E (f a)) -> Raises E (bind m f).
Proof.
  intros Hm Hf w e w'. unfold bind.
  destruct (m w) as [[a|e0|] w1] eqn:Hrun.
  - apply Hf.
  - intros [= <- _]. eapply Hm, Hrun.
  - discriminate.
Qed.

Lemma Raises_try_catch {A : Type} (E : Error -> Prop) (m : M A)
    (handler : Error -> M A) :
  (forall e, Raises E (handler e)) -> Raises E (try_catch m handler).
Proof.
  intros Hh w e w'. unfold try_catch.
  destruct (m w) as [[a|e0|] w1]; try discriminate. apply Hh.
Qed.

Lemma Raises_throw {A : Type} (E : Error -> Prop) (e : Error) :
  E e -> Raises E (@throw A e).
Proof. intros He w e' w'. intros [= <- _]. exact He. Qed.

Lemma Raises_returns {A : Type} (k : nat) (P : A -> Prop) (E : Error -> Prop)
    (m : M A) :
  Within k (returns P) m -> Raises E m.
Proof.
  intros Hm w e w' Hrun. destruct (Hm w) as [Hout _]. rewrite Hrun in Hout.
  contradiction.
Qed.

Section NetworkErrors.
Context `{FL : Float64} `{EN : Env}.

Lemma Raises_createClient (chainId : Z) (config : NetworkConfig) :
  getNetworkConfig chainId = Some config ->
  Raises (networkError config) (createClient chainId).
Proof.
  intros Hconfig w e w'. unfold createClient. unfold bind at 1. unfold gets at 1.
  destruct (clientCache w !! chainId) as [cachedClient|]; [discriminate|].
  rewrite Hconfig. unfold bind at 1. unfold findWorkingRPC. rewrite Hconfig.
  destruct (firstHealthy_outcome (cfg_rpcUrls config) w)
    as (found & w1 & Hfind & _).
  rewrite Hfind. destruct found as [url|].
  - destruct (String.eqb url "").
    + intros [= <- _]. right. left. reflexivity.
    + unfold try_catch, bind, extern. simpl.
      destruct (rpc_getBlockNumber (externalCalls w1) url); simpl; [discriminate|].
      intros [= <- _]. right. right. left. reflexivity.
  - intros [= <- _]. right. left. reflexivity.
Qed.

Lemma Raises_checkNativeBalance (chainId : Z) (walletAddress : string)
    (config : NetworkConfig) :
  getNetworkConfig chainId = Some config ->
  Raises (networkError config) (checkNativeBalance chainId walletAddress).
Proof.
  intros Hconfig. unfold checkNativeBalance. rewrite Hconfig.
  apply Raises_bind; [apply Raises_createClient, Hconfig|].
  intros client. apply Raises_try_catch. intros e. apply Raises_throw.
  right. right. right. reflexivity.
Qed.

(** The errors of [checkSingleNetwork].  For a chain id that is not in the
    registry it throws the unsupported-network error with the world
    untouched.  For a network of the registry it throws one of four
    errors only: the token catalog is out of reach, no endpoint of the
    network is healthy, the client could not be created, or the native
    balance could not be read.  No failure of the token balance calls
    makes it throw. *)
Theorem checkSingleNetwork_errors (walletAddress : string) (chainId : Z)
    (w w' : World) (e : Error) :
  checkSingleNetwork walletAddress chainId w = (Throw e, w') ->
  match getNetworkConfig chainId with
  | None => e = UnsupportedNetwork chainId /\ w' = w
  | Some config => networkError config e
  end.
Proof.
  intros Hrun. unfold checkSingleNetwork in Hrun.
  destruct (getNetworkConfig chainId) as [config|] eqn:Hconfig.
  - revert Hrun. revert w e w'.
    change (Raises (networkError config)
              (tokens <- getTokensForChain chainId ;;
               nativeBalance <- checkNativeBalance chainId walletAddress ;;
               tokenBalances <- checkTokenBalances chainId walletAddress tokens ;;
               t <- Date_now ;;
               ret {| net_chainId := chainId;
                      net_networkName := cfg_name config;
                      net_walletAddress := walletAddress;
                      net_nativeBalance := nativeBalance;
                      net_tokenBalances :=
                        filter (fun token => (0 < bal_balance token)%Z) tokenBalances;
                      net_totalUsdValue :=
                        f64_add (nat_usdValue nativeBalance)
                          (sumUsd bal_usdValue
                             (filter (fun token => (0 < bal_balance token)%Z)
                                tokenBalances));
                      net_timestamp := t |})%M).
    apply Raises_bind.
    { intros w e w' Hrun. apply getTokensForChain_throws in Hrun as [-> _].
      left. reflexivity. }
    intros tokens. apply Raises_bind; [apply Raises_checkNativeBalance, Hconfig|].
    intros nativeBalance. apply Raises_bind.
    { eapply Raises_returns, Within_checkTokenBalances. }
    intros tokenBalances w e w'. discriminate.
  - injection Hrun as <- <-. auto.
Qed.

Lemma getNativeTokenPrice_returns (chainId : Z) (w : World) :
  exists price w', getNativeTokenPrice chainId w = (Ok price, w').
Proof.
  pose proof (getTokensForChain_never_diverges chainId w) as Hnd.
  unfold getNativeTokenPrice, try_catch, bind.
  destruct (getTokensForChain chainId w) as [[tokens|e|] w1]; [| |contradiction].
  - destruct tokens; eauto.
  - eauto.
Qed.

(** What [checkNativeBalance] does once it has its client.  If the
    balance request fails, or the balance cannot be formatted with the
    currency's precision, it throws the native-balance error.  Otherwise
    it returns the raw balance (zero included), its formatted form and the
    currency symbol of the registry, whatever the token catalog answers
    when asked for the price. *)
Theorem checkNativeBalance_outcome (chainId : Z) (walletAddress : string)
    (config : NetworkConfig) (client : PublicClient) (w w1 : World) :
  getNetworkConfig chainId = Some config ->
  getClient chainId w = (Ok client, w1) ->
  let decimals := cur_decimals (cfg_nativeCurrency config) in
  match rpc_getBalance (externalCalls w1) (client_rpcUrl client) walletAddress with
  | Some balance =>
      match formatNativeBalance balance decimals with
      | Some formatted =>
          exists usdValue w',
            checkNativeBalance chainId walletAddress w
            = (Ok {| nat_balance := balance;
                     nat_balanceFormatted := formatted;
                     nat_symbol := cur_symbol (cfg_nativeCurrency config);
                     nat_usdValue := usdValue |}, w')
      | None =>
          exists w', checkNativeBalance chainId walletAddress w
                     = (Throw NativeBalanceFailed, w')
      end
  | None =>
      exists w', checkNativeBalance chainId walletAddress w
                 = (Throw NativeBalanceFailed, w')
  end.
Proof.
  intros Hconfig Hclient decimals.
  assert (forall balance formatted w2,
            formatNativeBalance balance decimals = Some formatted ->
            exists usdValue w',
              calculateNativeUSDValue balance decimals chainId w2
              = (Ok usdValue, w')) as Husd.
  { intros balance formatted w2 Hfmt. unfold calculateNativeUSDValue, bind.
    destruct (getNativeTokenPrice_returns chainId w2) as (price & w3 & ->).
    destruct (f64_le_zero price); simpl; [eauto|].
    rewrite Hfmt. simpl. eauto. }
  destruct (rpc_getBalance (externalCalls w1) (client_rpcUrl client) walletAddress)
    as [balance|] eqn:Hbal;
    [destruct (formatNativeBalance balance decimals) as [formatted|] eqn:Hfmt|];
    unfold checkNativeBalance; rewrite Hconfig; unfold bind at 1; rewrite Hclient;
    unfold try_catch, bind, extern; simpl; rewrite Hbal; simpl.
  - fold decimals. rewrite Hfmt. simpl.
    match goal with
    | |- context [calculateNativeUSDValue balance decimals chainId ?w0] =>
        destruct (Husd balance formatted w0 Hfmt) as (usdValue & w' & ->)
    end.
    simpl. eauto.
  - fold decimals. rewrite Hfmt. simpl. eauto.
  - eauto.
Qed.

End NetworkErrors.

Lemma checkSingleNetwork_errors_witness :
  let run :=
    checkSingleNetwork (FL := termFloat) (EN := deadBalanceEnv) "0xW" 1
      (initialWorld 0) in
  fst run = Throw NativeBalanceFailed /\
  match getNetworkConfig 1 with
  | None => NativeBalanceFailed = UnsupportedNetwork 1 /\ snd run = initialWorld 0
  | Some config => networkError config NativeBalanceFailed
  end.
Proof.
  intros run. split; [vm_compute; reflexivity|].
  apply (checkSingleNetwork_errors (FL := termFloat) (EN := deadBalanceEnv) "0xW" 1
           (initialWorld 0) (snd run) NativeBalanceFailed).
  vm_compute. reflexivity.
Defined.

Lemma checkNativeBalance_outcome_witness :
  exists usdValue w',
    checkNativeBalance (FL := termFloat) (EN := steadyEnv) 1 "0xW" (initialWorld 0)
    = (Ok {| nat_balance := 2000000000000000000;
             nat_balanceFormatted := "2";
             nat_symbol := "ETH";
             nat_usdValue := usdValue |}, w').
Proof.
  destruct (getNetworkConfig 1) as [config|] eqn:Hconfig; [|discriminate].
  destruct (getClient (EN := steadyEnv) 1 (initialWorld 0)) as [[client|e|] w1] eqn:Hrun;
    try (vm_compute in Hrun; discriminate).
  pose proof (checkNativeBalance_outcome (FL := termFloat) (EN := steadyEnv) 1 "0xW"
                config client (initialWorld 0) w1 Hconfig Hrun) as Hout.
  injection Hconfig as <-. exact Hout.
Defined.

(** ** Several wallets (balance-checker.ts) *)

Lemma Forall2_concat_rows {A B : Type} (P : A -> B -> Prop)
    (xss : list (list A)) (yss : list (list B)) :
  Forall2 (Forall2 P) xss yss -> Forall2 P (concat xss) (concat yss).
Proof.
  induction 1 as [|xs ys xss yss Hrow _ IH]; simpl; [constructor|].
  apply Forall2_app; assumption.
Qed.

Section Wallets.
Context `{FL : Float64} `{EN : Env}.

Lemma walletPromise_outcome (config : BalanceCheckConfig) (walletAddress : string)
    (w : World) :
  exists kept w',
    walletPromise config walletAddress w = (Ok kept, w') /\
    if String.eqb walletAddress "" then kept = None
    else
      exists wallet,
        kept = Some wallet /\
        wallet_address wallet = walletAddress /\
        all_walletAddress (wallet_results wallet) = walletAddress /\
        net_chainId <$> all_networks (wallet_results wallet)
        = default getSupportedChainIds (config_chainIds config).
Proof.
  unfold walletPromise. destruct (String.eqb walletAddress "").
  - exists None, w. split; reflexivity.
  - destruct (checkAllNetworks_runs walletAddress config w)
      as (result & w' & Hrun & Haddr & Hids & _).
    unfold try_catch, bind. rewrite Hrun. simpl.
    eexists _, w'. split; [reflexivity|]. eexists. split; [reflexivity|].
    simpl. auto.
Qed.

(** [checkMultipleWallets] returns for any list of addresses.  Its result
    holds one entry for each non-empty address, in the order given; empty
    addresses are skipped.  Each entry is the all-networks result of its
    own address, with one network result for each chain id asked for. *)
Theorem checkMultipleWallets_total (walletAddresses : list string)
    (config : BalanceCheckConfig) (w : World) :
  exists result w',
    checkMultipleWallets walletAddresses config w = (Ok result, w') /\
    wallet_address <$> multi_wallets result
    = filter (fun address => address <> "") walletAddresses /\
    Forall (fun wallet =>
              all_walletAddress (wallet_results wallet) = wallet_address wallet /\
              net_chainId <$> all_networks (wallet_results wallet)
              = default getSupportedChainIds (config_chainIds config))
      (multi_wallets result).
Proof.
  unfold checkMultipleWallets.
  destruct (createBatches_covers walletAddresses WALLET_BATCH_SIZE)
    as (batches & Hbatches & Hcat & _); [unfold WALLET_BATCH_SIZE; lia|].
  rewrite Hbatches. unfold bind at 1. cbn [loopResult].
  set (kept_for := fun (walletAddress : string) (kept : option WalletBalanceResult) =>
         if String.eqb walletAddress "" then kept = None
         else
           exists wallet,
             kept = Some wallet /\
             wallet_address wallet = walletAddress /\
             all_walletAddress (wallet_results wallet) = walletAddress /\
             net_chainId <$> all_networks (wallet_results wallet)
             = default getSupportedChainIds (config_chainIds config)).
  destruct (Promise_all_total
              (fun batch => Promise_all (walletPromise config) batch)
              (Forall2 kept_for) batches w) as (batchResults & w1 & Hrun & Hall).
  { intros batch w0. apply Promise_all_total. intros walletAddress w2.
    apply walletPromise_outcome. }
  unfold bind at 1. rewrite Hrun. simpl.
  eexists _, w1. split; [reflexivity|]. simpl.
  apply Forall2_concat_rows in Hall. rewrite Hcat in Hall.
  clear -Hall. induction Hall as [|walletAddress kept addresses rest Hkept _ IH].
  - split; [reflexivity|constructor].
  - destruct IH as [IHaddr IHall]. unfold kept_for in Hkept.
    destruct (String.eqb_spec walletAddress "") as [->|Hne].
    + subst kept. rewrite filter_cons_False by (intros Hne; apply Hne; reflexivity).
      simpl. split; assumption.
    + destruct Hkept as (wallet & -> & Haddr & Hself & Hids).
      rewrite filter_cons_True by exact Hne. simpl. split.
      * rewrite Haddr. f_equal. exact IHaddr.
      * constructor; [|exact IHall]. rewrite Haddr. split; assumption.
Qed.

End Wallets.

(** ** Forgetting the endpoint state (rpc-manager.ts) *)

Section Forgetting.
Context `{EN : Env}.

(** [clearCache] and [closeAllConnections] do the same: they empty the
    client cache and the health cache and leave the token-list caches and
    the history alone.  Right after either, no verdict is remembered, so
    a health check of any endpoint sends a request again. *)
Theorem clearCache_forgets (w : World) (rpcUrl : string) :
  closeAllConnections w = clearCache w /\
  let w' := snd (clearCache w) in
  fst (clearCache w) = Ok tt /\
  clientCache w' = ∅ /\
  healthCache w' = ∅ /\
  memoryCache w' = memoryCache w /\
  files w' = files w /\
  trace w' = trace w /\
  trace (snd (checkRPCHealth rpcUrl w')) = trace w ++ [EvGetBlockNumber rpcUrl].
Proof.
  split; [reflexivity|]. simpl. repeat split.
  unfold checkRPCHealth, bind, gets, Date_now, gets. simpl.
  rewrite lookup_empty. simpl. unfold try_catch, bind, extern. simpl.
  destruct (rpc_getBlockNumber (externalCalls w) rpcUrl); reflexivity.
Qed.

End Forgetting.

(** ** Runs of the token list manager *)

Lemma getTokensForChain_sources_witness :
  let w' := snd (getTokensForChain (EN := steadyEnv) 1 (initialWorld 0)) in
  exists table,
    api_fetchTokens (Env := steadyEnv) 0 = Some table /\
    [usdc] = default [] (table !! "1") /\
    trace w' = [EvFetchTokens].
Proof.
  intros w'.
  destruct (getTokensForChain_sources (EN := steadyEnv) 1 (initialWorld 0) w' [usdc])
    as [(cached & Hmem & _)|[(_ & file & Hfile & _)|(_ & _ & table & Hapi & Htokens & Htrace)]].
  - vm_compute. reflexivity.
  - vm_compute in Hmem. discriminate.
  - vm_compute in Hfile. discriminate.
  - exists table. split; [exact Hapi|]. split; [exact Htokens|exact Htrace].
Defined.

Lemma getTokensForChain_repeat_witness :
  let w' := snd (getTokensForChain (EN := steadyEnv) 1 (initialWorld 0)) in
  getTokensForChain (EN := steadyEnv) 1 w' = (Ok [usdc], w').
Proof.
  intros w'.
  apply (getTokensForChain_repeat (EN := steadyEnv) 1 (initialWorld 0) w' [usdc]).
  - vm_compute. reflexivity.
  - discriminate.
Defined.

Lemma getTokensForChain_empty_not_cached_witness :
  exists w',
    getTokensForChain (EN := steadyEnv) 10 (initialWorld 0) = (Ok [], w') /\
    trace (snd (getTokensForChain (EN := steadyEnv) 10 w'))
    = [EvFetchTokens; EvFetchTokens].
Proof.
  destruct (getTokensForChain_empty_not_cached (EN := steadyEnv) 10 (initialWorld 0)
              {[ "1" := [usdc] ]})
    as (w' & Hrun & _ & _ & _ & Htrace); try (vm_compute; reflexivity).
  exists w'. split; [exact Hrun|exact Htrace].
Defined.

(** ** One cache entry for each network (token-list-manager.ts) *)

Lemma BigInt_toString_inj (a b : Z) :
  BigInt_toString a = BigInt_toString b -> a = b.
Proof.
  unfold BigInt_toString. intros Heq.
  assert (forall z, NilZero.int_of_string (NilZero.string_of_int (Z.to_int z))
                    = Some (Z.to_int z)) as Hparse.
  { intros z. apply NilZero.isi; destruct z; simpl; try discriminate;
      intros [= Hnil]; exact (DecimalPos.Unsigned.to_uint_nonnil _ Hnil). }
  apply DecimalZ.to_int_inj.
  pose proof (Hparse a) as Ha. rewrite Heq, Hparse in Ha. congruence.
Qed.

Lemma append_inv_tail (s1 s2 t : string) : s1 +:+ t = s2 +:+ t -> s1 = s2.
Proof.
  intros Heq.
  assert (String.length s1 = String.length s2) as Hlen.
  { apply (f_equal String.length) in Heq. rewrite !string_length_app in Heq. lia. }
  revert s2 Hlen Heq. induction s1 as [|c s1 IH]; intros [|d s2] Hlen Heq;
    try discriminate; [reflexivity|].
  cbv [String.append] in Heq. fold String.append in Heq.
  injection Heq as -> Heq. f_equal. apply IH; [simpl in Hlen; lia|exact Heq].
Qed.

Lemma memory_key_inj (a b : Z) :
  "tokens_" +:+ BigInt_toString a = "tokens_" +:+ BigInt_toString b -> a = b.
Proof.
  intros Heq. cbv [String.append] in Heq. injection Heq as Heq.
  apply BigInt_toString_inj, Heq.
Qed.

Lemma getCacheFilePath_inj (a b : Z) :
  getCacheFilePath a = getCacheFilePath b -> a = b.
Proof.
  unfold getCacheFilePath. intros Heq.
  cbv [String.append] in Heq. fold String.append in Heq.
  injection Heq as Heq. apply append_inv_tail in Heq.
  apply BigInt_toString_inj, Heq.
Qed.

Section CacheFrame.
Context `{EN : Env}.

(** Each network has cache entries of its own: the memory keys and the
    file paths of two different chain ids differ, and asking for the
    tokens of one network leaves the memory entry and the cache file of
    every other network as they were, as well as the client cache and
    the health cache. *)
Theorem getTokensForChain_frame (chainId other : Z) (w : World) :
  other <> chainId ->
  let w' := snd (getTokensForChain chainId w) in
  "tokens_" +:+ BigInt_toString other <> "tokens_" +:+ BigInt_toString chainId /\
  getCacheFilePath other <> getCacheFilePath chainId /\
  memoryCache w' !! ("tokens_" +:+ BigInt_toString other)
  = memoryCache w !! ("tokens_" +:+ BigInt_toString other) /\
  files w' !! getCacheFilePath other = files w !! getCacheFilePath other /\
  clientCache w' = clientCache w /\
  healthCache w' = healthCache w.
Proof.
  intros Hne w'.
  assert ("tokens_" +:+ BigInt_toString chainId
          <> "tokens_" +:+ BigInt_toString other) as Hkey
    by (intros Heq; apply Hne; symmetry; apply memory_key_inj, Heq).
  assert (getCacheFilePath chainId <> getCacheFilePath other) as Hpath
    by (intros Heq; apply Hne; symmetry; apply getCacheFilePath_inj, Heq).
  split; [congruence|]. split; [congruence|]. subst w'.
  unfold getTokensForChain, bind, gets, isCacheValid, loadFromFileCache, bind,
    Date_now, gets, ret, modify, fetchFromAPI, bind, extern, saveToFileCache,
    bind, Date_now, gets, modify, fromOption, ret, throw.
  set (key := "tokens_" +:+ BigInt_toString chainId) in *.
  set (otherKey := "tokens_" +:+ BigInt_toString other) in *.
  destruct (memoryCache w !! key) as [cached|]; simpl;
    [destruct (now w - cached_timestamp cached <? cached_ttl cached)%Z; simpl;
       [auto|]|];
    (destruct (files w !! getCacheFilePath chainId) as [file|]; simpl;
       [destruct (now w - cached_timestamp file <? cached_ttl file)%Z; simpl|]);
    try (destruct (api_fetchTokens (externalCalls w)) as [table|]; simpl;
         [destruct (default [] (table !! BigInt_toString chainId)); simpl|]);
    rewrite ?lookup_insert_ne, ?lookup_delete_ne by assumption; auto.
Qed.

End CacheFrame.

Lemma getTokensForChain_frame_witness :
  let w' := snd (getTokensForChain (EN := steadyEnv) 1 (initialWorld 0)) in
  memoryCache w' !! ("tokens_" +:+ BigInt_toString 10)
  = memoryCache (initialWorld 0) !! ("tokens_" +:+ BigInt_toString 10) /\
  files w' !! getCacheFilePath 10 = files (initialWorld 0) !! getCacheFilePath 10.
Proof.
  intros w'.
  destruct (getTokensForChain_frame (EN := steadyEnv) 1 10 (initialWorld 0))
    as (_ & _ & Hmem & Hfile & _); [lia|].
  split; [exact Hmem|exact Hfile].
Defined.
